(** * SDG progress predictor: feature engineering, labels and risk categories

    A shallow embedding of [src/ml/train_sdg_predictor.py]
    ([engineer_features], [train_model], [generate_predictions]) together
    with the pandas / numpy / scikit-learn operations these functions call.

    Conventions of the embedding.
    - A pandas float column is a [list (option Q)]: [None] is NaN/None.
      A finite double is the rational it denotes; comparisons, minima and
      maxima of doubles are exact, so every threshold test of the program is
      modelled by the same test on [Q].  An overflow to infinity is not
      modelled.
    - The arithmetic that rounds goes through [Floats]: the sums, means,
      standard deviations and midpoints the library computes, and the
      rounding of the program's own products and differences.  These are
      parameters, together with what IEEE 754 arithmetic guarantees of
      them; so is the scikit-learn estimator.
    - A DataFrame is the list of its rows, a row is a record of its columns. *)

From Stdlib Require Import String Ascii List ZArith QArith Qminmax Qround Bool Lia.
From Stdlib Require Import Permutation Sorted OrdersEx Lqa.
Import ListNotations.

(** ** Ordering of column values *)

(** The order pandas and numpy sort a key column by. *)
Class Compare (K : Type) := compare_key : K -> K -> comparison.

(** Python compares [str] values by code point, lexicographically. *)
#[export] Instance compare_string : Compare string := String_as_OT.compare.

#[export] Instance compare_Z : Compare Z := Z.compare.

#[export] Instance compare_Q : Compare Q := Qcompare.

(** Missing keys sort last ([na_position='last']). *)
#[export] Instance compare_option {K : Type} `{Compare K} : Compare (option K) :=
  fun a b =>
    match a, b with
    | Some x, Some y => compare_key x y
    | Some _, None => Lt
    | None, Some _ => Gt
    | None, None => Eq
    end.

(** Several key columns compare lexicographically. *)
#[export] Instance compare_pair {K1 K2 : Type} `{Compare K1} `{Compare K2}
  : Compare (K1 * K2) :=
  fun a b =>
    match compare_key (fst a) (fst b) with
    | Eq => compare_key (snd a) (snd b)
    | c => c
    end.

Definition leb_key {K : Type} `{Compare K} (x y : K) : bool :=
  match compare_key x y with Gt => false | _ => true end.

Definition eqb_key {K : Type} `{Compare K} (x y : K) : bool :=
  match compare_key x y with Eq => true | _ => false end.

(** ** pandas / numpy operations *)

Module Pandas.

(** [dropna]: the non-missing entries of a column, in order. *)
Fixpoint dropna {A : Type} (c : list (option A)) : list A :=
  match c with
  | [] => []
  | Some x :: t => x :: dropna t
  | None :: t => dropna t
  end.

(** [Series.fillna(v)]: [v] is itself NaN when it is a median of nothing. *)
Definition fillna {A : Type} (v : option A) (x : option A) : option A :=
  match x with Some _ => x | None => v end.

(** [fillna(d)] with a constant that is present. *)
Definition fillna_with {A : Type} (d : A) (x : option A) : A :=
  match x with Some a => a | None => d end.

(** Insertion of a row before the first row whose key is not smaller. *)
Fixpoint insert_sorted {A K : Type} `{Compare K} (by_ : A -> K) (x : A) (l : list A)
  : list A :=
  match l with
  | [] => [x]
  | y :: t => if leb_key (by_ x) (by_ y) then x :: l else y :: insert_sorted by_ x t
  end.

(** [DataFrame.sort_values(by)]: ascending, rows with equal keys kept in
    their order of arrival. *)
Definition sort_values {A K : Type} `{Compare K} (by_ : A -> K) (df : list A) : list A :=
  fold_right (insert_sorted by_) [] df.

Fixpoint insert_unique {K : Type} `{Compare K} (x : K) (l : list K) : list K :=
  match l with
  | [] => [x]
  | y :: t =>
      match compare_key x y with
      | Lt => x :: l
      | Eq => l
      | Gt => y :: insert_unique x t
      end
  end.

(** [np.unique]: the distinct values, sorted ascending. *)
Definition unique {K : Type} `{Compare K} (l : list K) : list K :=
  fold_right insert_unique [] l.

(** The rows of the group of key [k]. Rows with a missing key belong to no
    group ([dropna=True]). *)
Definition in_group {K : Type} `{Compare K} (k : K) (x : option K) : bool :=
  match x with Some k' => eqb_key k k' | None => false end.

(** [df.groupby(key)]: the groups in ascending key order ([sort=True]), the
    rows of a group in the order they have in [df]. *)
Definition groupby {A K : Type} `{Compare K} (key : A -> option K) (df : list A)
  : list (K * list A) :=
  map (fun k => (k, filter (fun r => in_group k (key r)) df))
      (unique (dropna (map key df))).

(** The arithmetic on doubles that rounds.  [fsum], [fmean] and [fstd] are
    the library's sum, mean and sample standard deviation ([ddof=1]) of the
    values of a column, in the order of the column; [fmid] is the mean of the
    two middle values that [median] takes; [fround] is the double nearest to
    a real number, the result of one operation of the program.  The laws are
    those of IEEE 754 arithmetic as long as nothing overflows: the mean of
    one value is that value; the mean of two values lies between them, and is
    the same for the same two numbers; the mean of values of [[0, 1]] lies
    in [[0, 1]]; rounding is monotone and keeps the integers up to 2^53. *)
Record Floats : Type := {
  fsum : list Q -> Q;
  fmean : list Q -> Q;
  fstd : list Q -> Q;
  fmid : Q -> Q -> Q;
  fround : Q -> Q;
  fmean_one : forall x, fmean [x] == x;
  fmean_unit :
    forall v, v <> [] -> (forall x, In x v -> 0 <= x <= 1) -> 0 <= fmean v <= 1;
  fmid_between : forall a b, a <= b -> a <= fmid a b <= b;
  fmid_proper : forall a a' b b', a == a' -> b == b' -> fmid a b == fmid a' b';
  fround_mono : forall x y, x <= y -> fround x <= fround y;
  fround_int :
    forall z, (Z.abs z <= 2 ^ 53)%Z -> fround (inject_Z z) == inject_Z z
}.

(** ['sum']: missing entries are skipped, the sum of nothing is 0. *)
Definition agg_sum (np : Floats) (c : list (option Q)) : option Q :=
  match dropna c with
  | [] => Some 0
  | v => Some (fsum np v)
  end.

(** ['mean']: missing entries are skipped, the mean of nothing is NaN. *)
Definition agg_mean (np : Floats) (c : list (option Q)) : option Q :=
  match dropna c with
  | [] => None
  | v => Some (fmean np v)
  end.

(** ['std']: sample standard deviation ([ddof=1]), NaN below two values. *)
Definition agg_std (np : Floats) (c : list (option Q)) : option Q :=
  match dropna c with
  | [] => None
  | [_] => None
  | v => Some (fstd np v)
  end.

Definition agg_min (c : list (option Q)) : option Q :=
  match dropna c with
  | [] => None
  | x :: t => Some (fold_left Qmin t x)
  end.

Definition agg_max (c : list (option Q)) : option Q :=
  match dropna c with
  | [] => None
  | x :: t => Some (fold_left Qmax t x)
  end.

(** ['last'] and [GroupBy.last()]: the last non-missing entry of the column. *)
Definition agg_last {A : Type} (c : list (option A)) : option A :=
  fold_left (fun acc x => match x with Some _ => x | None => acc end) c None.

(** ['count']: the number of non-missing entries. *)
Definition agg_count {A : Type} (c : list (option A)) : Z :=
  Z.of_nat (length (dropna c)).

Definition agg_max_int (c : list (option Z)) : option Z :=
  match dropna c with
  | [] => None
  | x :: t => Some (fold_left Z.max t x)
  end.

(** [Series.median()]: missing entries are skipped; the middle value of the
    sorted values, or the mean of the two middle ones. *)
Definition median (np : Floats) (c : list (option Q)) : option Q :=
  let s := sort_values (fun x : Q => x) (dropna c) in
  let n := length s in
  match n with
  | O => None
  | _ =>
      if Nat.even n
      then Some (fmid np (nth (n / 2 - 1) s 0) (nth (n / 2) s 0))
      else Some (nth (n / 2) s 0)
  end.

(** [a > b] on floats: false as soon as one side is NaN. *)
Definition gt (a b : option Q) : bool :=
  match a, b with
  | Some x, Some y => negb (Qle_bool x y)
  | _, _ => false
  end.

(** [bins.searchsorted(x, side='left')] on ascending [bins]: the first index
    [i] with [x <= bins[i]]. *)
Fixpoint searchsorted_left (bins : list Q) (x : Q) : nat :=
  match bins with
  | [] => O
  | b :: t => if Qle_bool x b then O else S (searchsorted_left t x)
  end.

(** [pd.cut(x, bins, labels)] with the defaults [right=True] and
    [include_lowest=False]: bin [i] is [(bins[i], bins[i+1]]]; a value at or
    below the first edge, or above the last, gets no category (NaN). *)
Definition cut (bins : list Q) (labels : list string) (x : Q) : option string :=
  let i := searchsorted_left bins x in
  if (Nat.eqb i 0 || Nat.eqb i (length bins))%bool then None
  else nth_error labels (i - 1).

(** A cell that is not missing: a number or a string. *)
Inductive cell : Type :=
| Num (x : Q)
| Str (s : string).

End Pandas.

(** ** Tables of the program *)

(** A row of the frame returned by [load_training_data]. [year] is never
    missing: the query keeps only rows with [f.year >= 2000]. *)
Module Obs.
Record row : Type := {
  country_code : option string;
  country_name : option string;
  goal_code : option string;
  year : Z;
  region : option string;
  income_level : option string;
  indicators_measured : option Q;
  avg_indicator_value : option Q;
  yoy_change : option Q;
  gdp_per_capita : option Q;
  population : option Q;
  life_expectancy : option Q;
  adult_literacy_rate : option Q
}.
End Obs.

(** A row of [progress_features]: one per (country_code, goal_code). *)
Module Prog.
Record row : Type := {
  country_code : string;
  goal_code : string;
  value_mean : option Q;
  value_std : option Q;
  value_min : option Q;
  value_max : option Q;
  value_latest : option Q;
  avg_yoy_change : option Q;
  total_change : option Q;
  data_points : Z;
  latest_year : option Z;
  avg_indicators_measured : option Q
}.
End Prog.

(** The country attributes of [latest_attrs], and a row of that frame. *)
Module Attr.
Record cols : Type := {
  country_name : option string;
  region : option string;
  income_level : option string;
  gdp_per_capita : option Q;
  population : option Q;
  life_expectancy : option Q;
  adult_literacy_rate : option Q
}.
Record row : Type := {
  country_code : string;
  attrs : cols
}.
(** What a left join puts in the right-hand columns of an unmatched row. *)
Definition missing : cols :=
  {| country_name := None; region := None; income_level := None;
     gdp_per_capita := None; population := None; life_expectancy := None;
     adult_literacy_rate := None |}.
End Attr.

(** A row of [features] after the merge. *)
Module Merged.
Record row : Type := {
  prog : Prog.row;
  attrs : Attr.cols
}.
End Merged.

(** A row of [features] as [engineer_features] returns it. *)
Module Feat.
Record row : Type := {
  base : Merged.row;
  on_track_2030 : Z;
  region_encoded : Z;
  income_encoded : Z
}.
End Feat.

(** A row of [features] as [generate_predictions] returns it. *)
Module Pred.
Record row : Type := {
  feat : Feat.row;
  prediction_2030_probability : Q;
  prediction_2030_on_track : Z;
  prediction_category : option string
}.
End Pred.

(** ** scikit-learn *)

Module Sklearn.

(** [LabelEncoder]: [classes_] after [fit]. *)
Record LabelEncoder : Type := { classes_ : list string }.

(** [fit]: the classes are [np.unique(y)]. *)
Definition fit (y : list string) : LabelEncoder :=
  {| classes_ := Pandas.unique y |}.

(** The code of a value: its position in [classes_]. *)
Fixpoint index_of (v : string) (classes : list string) : nat :=
  match classes with
  | [] => O
  | c :: t => if eqb_key v c then O else S (index_of v t)
  end.

Definition encode (le : LabelEncoder) (v : string) : Z :=
  Z.of_nat (index_of v (classes_ le)).

(** [fit_transform]: the fitted encoder and the codes of the column. *)
Definition fit_transform (y : list string) : LabelEncoder * list Z :=
  let le := fit y in (le, map (encode le) y).

(** What the library raises. *)
Inductive py_exn : Type := ValueError | IndexError | KeyError.

(** The estimator side of the library, as far as the program calls it.  The
    split, the forest and its scores are library code: they are taken as
    given, each call either raising or returning.  What they do with a
    matrix that holds strings is theirs to decide. *)
Record Estimator : Type := {
  Model : Type;
  (** [train_test_split(X, y, test_size, random_state)] *)
  train_test_split :
    list (list Pandas.cell) -> list Z -> Q -> Z ->
    py_exn + (list (list Pandas.cell) * list (list Pandas.cell) * list Z * list Z);
  (** [RandomForestClassifier(n_estimators, max_depth, random_state).fit(X, y)];
      [n_jobs] only spreads the work. *)
  forest_fit : Z -> Z -> Z -> list (list Pandas.cell) -> list Z -> py_exn + Model;
  (** [model.predict(X)] *)
  predict : Model -> list (list Pandas.cell) -> py_exn + list Z;
  (** [model.predict_proba(X)[:, 1]] *)
  predict_proba_1 : Model -> list (list Pandas.cell) -> py_exn + list Q
}.

End Sklearn.

(** ** Outcome of a call *)

(** The error kinds of the specification, and the library's exceptions. *)
Inductive exn : Type :=
| DataIntegrityError
| TrainingError
| ImputationError
| LibraryError (e : Sklearn.py_exn).

Inductive outcome (A : Type) : Type :=
| Returned (a : A)
| Raised (e : exn).

Arguments Returned {A} a.
Arguments Raised {A} e.

Definition bind {A B : Type} (m : outcome A) (f : A -> outcome B) : outcome B :=
  match m with
  | Returned a => f a
  | Raised e => Raised e
  end.

(** A library call inside the program: its exception propagates. *)
Definition call {A : Type} (r : Sklearn.py_exn + A) : outcome A :=
  match r with
  | inl e => Raised (LibraryError e)
  | inr a => Returned a
  end.

Notation "x <- m ;; k" := (bind m (fun x => k))
  (at level 61, m at next level, right associativity).

(** ** [engineer_features] *)

Import Pandas.

(** The sort key of [df.sort_values(['country_code', 'goal_code', 'year'])]. *)
Definition country_goal_year (o : Obs.row) : option string * (option string * Z) :=
  (Obs.country_code o, (Obs.goal_code o, Obs.year o)).

(** The key of [df.groupby(['country_code', 'goal_code'])]: missing as soon
    as one of the two columns is. *)
Definition country_goal (o : Obs.row) : option (string * string) :=
  match Obs.country_code o, Obs.goal_code o with
  | Some c, Some g => Some (c, g)
  | _, _ => None
  end.

(** The [agg] of one group, with the flattened column names. *)
Definition agg_progress (np : Floats) (g : (string * string) * list Obs.row)
  : Prog.row :=
  let value := map Obs.avg_indicator_value (snd g) in
  let yoy := map Obs.yoy_change (snd g) in
  let years := map (fun o => Some (Obs.year o)) (snd g) in
  {| Prog.country_code := fst (fst g);
     Prog.goal_code := snd (fst g);
     Prog.value_mean := agg_mean np value;
     Prog.value_std := agg_std np value;
     Prog.value_min := agg_min value;
     Prog.value_max := agg_max value;
     Prog.value_latest := agg_last value;
     Prog.avg_yoy_change := agg_mean np yoy;
     Prog.total_change := agg_sum np yoy;
     Prog.data_points := agg_count years;
     Prog.latest_year := agg_max_int years;
     Prog.avg_indicators_measured :=
       agg_mean np (map Obs.indicators_measured (snd g)) |}.

(** Lines 71-85: progress metrics per country-goal, on the sorted frame. *)
Definition progress_features (np : Floats) (df : list Obs.row) : list Prog.row :=
  map (agg_progress np) (groupby country_goal df).

(** [GroupBy.last()] on the attribute columns of one country. *)
Definition last_attrs (g : string * list Obs.row) : Attr.row :=
  {| Attr.country_code := fst g;
     Attr.attrs :=
       {| Attr.country_name := agg_last (map Obs.country_name (snd g));
          Attr.region := agg_last (map Obs.region (snd g));
          Attr.income_level := agg_last (map Obs.income_level (snd g));
          Attr.gdp_per_capita := agg_last (map Obs.gdp_per_capita (snd g));
          Attr.population := agg_last (map Obs.population (snd g));
          Attr.life_expectancy := agg_last (map Obs.life_expectancy (snd g));
          Attr.adult_literacy_rate := agg_last (map Obs.adult_literacy_rate (snd g)) |} |}.

(** Lines 88-91: [df.sort_values('year').groupby('country_code').last()].
    The library's default sort need not keep rows of equal year in order;
    what is proved of this frame holds for any order among them. *)
Definition latest_attrs (df : list Obs.row) : list Attr.row :=
  map last_attrs (groupby Obs.country_code (sort_values Obs.year df)).

(** Line 94: [progress_features.merge(latest_attrs, on='country_code',
    how='left')]. Every left row is kept, in order, once per matching right
    row, or once with missing attributes when nothing matches. *)
Definition merge_left (left : list Prog.row) (right : list Attr.row) : list Merged.row :=
  flat_map
    (fun p =>
       match filter (fun a => eqb_key (Prog.country_code p) (Attr.country_code a)) right with
       | [] => [ {| Merged.prog := p; Merged.attrs := Attr.missing |} ]
       | ms => map (fun a => {| Merged.prog := p; Merged.attrs := Attr.attrs a |}) ms
       end)
    left.

(** The frame after line 94. *)
Definition merged_features (np : Floats) (df : list Obs.row) : list Merged.row :=
  let df := sort_values country_goal_year df in
  merge_left (progress_features np df) (latest_attrs df).

Definition column (f : Merged.row -> option Q) (features : list Merged.row)
  : list (option Q) := map f features.

Definition gdp_per_capita (r : Merged.row) := Attr.gdp_per_capita (Merged.attrs r).
Definition population (r : Merged.row) := Attr.population (Merged.attrs r).
Definition life_expectancy (r : Merged.row) := Attr.life_expectancy (Merged.attrs r).
Definition adult_literacy_rate (r : Merged.row) := Attr.adult_literacy_rate (Merged.attrs r).
Definition avg_yoy_change (r : Merged.row) := Prog.avg_yoy_change (Merged.prog r).
Definition value_std (r : Merged.row) := Prog.value_std (Merged.prog r).
Definition region (r : Merged.row) := Attr.region (Merged.attrs r).
Definition income_level (r : Merged.row) := Attr.income_level (Merged.attrs r).

(** Lines 97-99 on one row: [fillna(0)] of the three trend columns. *)
Definition fill_trend (p : Prog.row) : Prog.row :=
  {| Prog.country_code := Prog.country_code p;
     Prog.goal_code := Prog.goal_code p;
     Prog.value_mean := Prog.value_mean p;
     Prog.value_std := fillna (Some 0) (Prog.value_std p);
     Prog.value_min := Prog.value_min p;
     Prog.value_max := Prog.value_max p;
     Prog.value_latest := Prog.value_latest p;
     Prog.avg_yoy_change := fillna (Some 0) (Prog.avg_yoy_change p);
     Prog.total_change := fillna (Some 0) (Prog.total_change p);
     Prog.data_points := Prog.data_points p;
     Prog.latest_year := Prog.latest_year p;
     Prog.avg_indicators_measured := Prog.avg_indicators_measured p |}.

(** Lines 97-103 on one row, given the medians of the four economic
    columns. *)
Definition fill_row (gdp pop life lit : option Q) (r : Merged.row) : Merged.row :=
  let a := Merged.attrs r in
  {| Merged.prog := fill_trend (Merged.prog r);
     Merged.attrs :=
       {| Attr.country_name := Attr.country_name a;
          Attr.region := Attr.region a;
          Attr.income_level := Attr.income_level a;
          Attr.gdp_per_capita := fillna gdp (Attr.gdp_per_capita a);
          Attr.population := fillna pop (Attr.population a);
          Attr.life_expectancy := fillna life (Attr.life_expectancy a);
          Attr.adult_literacy_rate := fillna lit (Attr.adult_literacy_rate a) |} |}.

(** Lines 97-103: fill missing values; each economic column with its own
    median over the frame. *)
Definition fill_missing (np : Floats) (features : list Merged.row) : list Merged.row :=
  let gdp := median np (column gdp_per_capita features) in
  let pop := median np (column population features) in
  let life := median np (column life_expectancy features) in
  let lit := median np (column adult_literacy_rate features) in
  map (fill_row gdp pop life lit) features.

(** Line 107: [features['avg_yoy_change'].median()]. *)
Definition median_change (np : Floats) (features : list Merged.row) : option Q :=
  median np (column avg_yoy_change features).

(** Line 108 on one row: [(avg_yoy_change > median_change).astype(int)]. *)
Definition on_track (median_change : option Q) (r : Merged.row) : Z :=
  if gt (avg_yoy_change r) median_change then 1%Z else 0%Z.

(** Lines 107-108: the target column of a frame. *)
Definition create_target (np : Floats) (features : list Merged.row) : list Z :=
  map (on_track (median_change np features)) features.

(** The column handed to a [LabelEncoder]: [fillna('Unknown')]. *)
Definition categorical (col : list (option string)) : list string :=
  map (fillna_with "Unknown"%string) col.

(** Puts the three new columns next to the rows. *)
Definition assign (features : list Merged.row) (target region_codes income_codes : list Z)
  : list Feat.row :=
  map
    (fun x =>
       {| Feat.base := fst x;
          Feat.on_track_2030 := fst (snd x);
          Feat.region_encoded := fst (snd (snd x));
          Feat.income_encoded := snd (snd (snd x)) |})
    (combine features (combine target (combine region_codes income_codes))).

(** [engineer_features(df)]. No statement of the function raises, and the
    printed summary is not part of the result. *)
Definition engineer_features (np : Floats) (df : list Obs.row)
  : outcome (list Feat.row * Sklearn.LabelEncoder * Sklearn.LabelEncoder) :=
  let features := fill_missing np (merged_features np df) in
  let target := create_target np features in
  let region_fit := Sklearn.fit_transform (categorical (map region features)) in
  let income_fit := Sklearn.fit_transform (categorical (map income_level features)) in
  Returned (assign features target (snd region_fit) (snd income_fit),
            fst region_fit, fst income_fit).

(** ** [train_model] and [generate_predictions] *)

Definition feature_cols : list string :=
  [ "value_mean"; "value_std"; "value_min"; "value_max"; "value_latest";
    "avg_yoy_change"; "total_change"; "data_points"; "avg_indicators_measured";
    "gdp_per_capita"; "population"; "life_expectancy"; "adult_literacy_rate";
    "region_encoded"; "income_encoded" ]%string.

Definition int_column (f : Feat.row -> Z) (r : Feat.row) : option cell :=
  Some (Num (inject_Z (f r))).

Definition prog_column (f : Prog.row -> option Q) (r : Feat.row) : option cell :=
  option_map Num (f (Merged.prog (Feat.base r))).

Definition attr_column (f : Attr.cols -> option Q) (r : Feat.row) : option cell :=
  option_map Num (f (Merged.attrs (Feat.base r))).

Definition key_column (f : Prog.row -> string) (r : Feat.row) : option cell :=
  Some (Str (f (Merged.prog (Feat.base r)))).

Definition text_column (f : Attr.cols -> option string) (r : Feat.row) : option cell :=
  option_map Str (f (Merged.attrs (Feat.base r))).

(** The columns of [features] as [engineer_features] returns it, by name:
    the two key columns and the aggregates of lines 79-85, the attributes of
    lines 89-90, and the three columns of lines 108, 114 and 115. *)
Definition frame_columns : list (string * (Feat.row -> option cell)) :=
  [ ("country_code", key_column Prog.country_code);
    ("goal_code", key_column Prog.goal_code);
    ("value_mean", prog_column Prog.value_mean);
    ("value_std", prog_column Prog.value_std);
    ("value_min", prog_column Prog.value_min);
    ("value_max", prog_column Prog.value_max);
    ("value_latest", prog_column Prog.value_latest);
    ("avg_yoy_change", prog_column Prog.avg_yoy_change);
    ("total_change", prog_column Prog.total_change);
    ("data_points", int_column (fun r => Prog.data_points (Merged.prog (Feat.base r))));
    ("latest_year",
     prog_column (fun p => option_map inject_Z (Prog.latest_year p)));
    ("avg_indicators_measured", prog_column Prog.avg_indicators_measured);
    ("country_name", text_column Attr.country_name);
    ("region", text_column Attr.region);
    ("income_level", text_column Attr.income_level);
    ("gdp_per_capita", attr_column Attr.gdp_per_capita);
    ("population", attr_column Attr.population);
    ("life_expectancy", attr_column Attr.life_expectancy);
    ("adult_literacy_rate", attr_column Attr.adult_literacy_rate);
    ("on_track_2030", int_column Feat.on_track_2030);
    ("region_encoded", int_column Feat.region_encoded);
    ("income_encoded", int_column Feat.income_encoded) ]%string.

Fixpoint lookup_column (name : string) (cols : list (string * (Feat.row -> option cell)))
  : option (Feat.row -> option cell) :=
  match cols with
  | [] => None
  | (n, f) :: t => if eqb_key name n then Some f else lookup_column name t
  end.

(** [features[cols]]: a name that is no column of the frame raises. *)
Fixpoint select (cols : list string) : Sklearn.py_exn + list (Feat.row -> option cell) :=
  match cols with
  | [] => inr []
  | c :: t =>
      match lookup_column c frame_columns, select t with
      | Some f, inr fs => inr (f :: fs)
      | None, _ => inl Sklearn.KeyError
      | _, inl e => inl e
      end
  end.

(** [features[cols].fillna(0)]: the feature matrix, one row per record. *)
Definition feature_matrix (cols : list string) (features : list Feat.row)
  : outcome (list (list cell)) :=
  fs <- call (select cols) ;;
  Returned (map (fun r => map (fun f => fillna_with (Num 0) (f r)) fs) features).

(** [train_model(features)]. The accuracy and the importance table are only
    printed. *)
Definition train_model (sk : Sklearn.Estimator) (features : list Feat.row)
  : outcome (Sklearn.Model sk * list string) :=
  X <- feature_matrix feature_cols features ;;
  let y := map Feat.on_track_2030 features in
  split <- call (Sklearn.train_test_split sk X y (2 # 10) 42%Z) ;;
  let X_train := fst (fst (fst split)) in
  let X_test := snd (fst (fst split)) in
  let y_train := snd (fst split) in
  model <- call (Sklearn.forest_fit sk 100%Z 10%Z 42%Z X_train y_train) ;;
  y_pred <- call (Sklearn.predict sk model X_test) ;;
  Returned (model, feature_cols).

(** Line 184 on one probability: [(predictions >= 0.5).astype(int)]. *)
Definition prediction_on_track (p : Q) : Z :=
  if Qle_bool (5 # 10) p then 1%Z else 0%Z.

Definition category_bins : list Q := [0; 3 # 10; 5 # 10; 7 # 10; 1].

Definition category_labels : list string :=
  [ "Off Track"; "At Risk"; "Moderate Progress"; "On Track" ]%string.

(** Lines 187-191 on one probability. *)
Definition prediction_category (p : Q) : option string :=
  cut category_bins category_labels p.

Definition predicted (r : Feat.row) (p : Q) : Pred.row :=
  {| Pred.feat := r;
     Pred.prediction_2030_probability := p;
     Pred.prediction_2030_on_track := prediction_on_track p;
     Pred.prediction_category := prediction_category p |}.

(** [generate_predictions(model, features, feature_cols)]. Assigning a
    column whose length is not that of the frame raises. *)
Definition generate_predictions (sk : Sklearn.Estimator) (model : Sklearn.Model sk)
  (features : list Feat.row) (cols : list string) : outcome (list Pred.row) :=
  X <- feature_matrix cols features ;;
  predictions <- call (Sklearn.predict_proba_1 sk model X) ;;
  if Nat.eqb (length predictions) (length features)
  then Returned (map (fun x => predicted (fst x) (snd x)) (combine features predictions))
  else Raised (LibraryError Sklearn.ValueError).

(** [main()] between loading and exporting. *)
Definition pipeline (np : Floats) (sk : Sklearn.Estimator) (df : list Obs.row)
  : outcome (list Pred.row) :=
  engineered <- engineer_features np df ;;
  let features := fst (fst engineered) in
  trained <- train_model sk features ;;
  generate_predictions sk (fst trained) features (snd trained).

(** ** Laws of the key orders *)

(** The order of a key column is a total preorder... *)
Class CompareLaws (K : Type) `{Compare K} : Prop := {
  compare_antisym : forall x y : K, compare_key y x = CompOpp (compare_key x y);
  compare_lt_trans : forall x y z : K,
    compare_key x y = Lt -> compare_key y z = Lt -> compare_key x z = Lt;
  compare_eq_l : forall x y z : K,
    compare_key x y = Eq -> compare_key x z = compare_key y z
}.

Arguments CompareLaws K {_}.

(** ... and on strings, integers and their tuples, keys that compare equal
    are the same key. *)
Class CompareEq (K : Type) `{Compare K} : Prop :=
  compare_eq : forall x y : K, compare_key x y = Eq -> x = y.

Arguments CompareEq K {_}.


(** ** Vocabulary of the properties *)

(** The key of a record of the merged frame, and of a feature record. *)
Definition merged_key (r : Merged.row) : string * string :=
  (Prog.country_code (Merged.prog r), Prog.goal_code (Merged.prog r)).

Definition feature_key (r : Feat.row) : string * string :=
  merged_key (Feat.base r).

(** The observations of a batch under one (country, goal) key. *)
Definition observations_of (k : string * string) (df : list Obs.row) : list Obs.row :=
  filter (fun o => in_group k (country_goal o)) df.

(** The observations of a batch for one country. *)
Definition observations_of_country (c : string) (df : list Obs.row) : list Obs.row :=
  filter (fun o => in_group c (Obs.country_code o)) df.

(** [v] is the latest known value of the attribute [f] of country [c]: the
    value of an observation of [c] that has the attribute, no observation of
    [c] that has it being later; or missing when no observation of [c] has
    it. *)
Definition latest_known {A : Type} (df : list Obs.row) (c : string)
  (f : Obs.row -> option A) (v : option A) : Prop :=
  match v with
  | Some x =>
      exists o, In o (observations_of_country c df) /\ f o = Some x
                /\ forall o', In o' (observations_of_country c df) ->
                              f o' <> None -> (Obs.year o' <= Obs.year o)%Z
  | None => forall o', In o' (observations_of_country c df) -> f o' = None
  end.

(** An observation has the maximum period among those of its country. *)
Definition latest_of_country (df : list Obs.row) (c : string) (o : Obs.row) : Prop :=
  In o (observations_of_country c df)
  /\ forall o', In o' (observations_of_country c df) -> (Obs.year o' <= Obs.year o)%Z.

(** The record the merged frame holds for the key [k]: the aggregates of
    the observations of [k], in period order, and the last known attributes
    of the country of [k]. *)
Definition group_row (np : Floats) (df : list Obs.row) (k : string * string)
  : Merged.row :=
  {| Merged.prog :=
       agg_progress np
         (k, sort_values country_goal_year (observations_of k df));
     Merged.attrs :=
       Attr.attrs
         (last_attrs
            (fst k,
             sort_values Obs.year
               (sort_values country_goal_year (observations_of_country (fst k) df)))) |}.

(** The feature records of a run, none when it raised. *)
Definition returned_features
  (run : outcome (list Feat.row * Sklearn.LabelEncoder * Sklearn.LabelEncoder))
  : list Feat.row :=
  match run with
  | Returned out => fst (fst out)
  | Raised _ => []
  end.

(** Both key columns of an observation are present. *)
Definition has_key (o : Obs.row) : bool :=
  match country_goal o with Some _ => true | None => false end.

(** The value of an observation is present. *)
Definition has_value (o : Obs.row) : bool :=
  match Obs.avg_indicator_value o with Some _ => true | None => false end.

(** The key columns and the value of an observation are all present. *)
Definition complete (o : Obs.row) : bool := has_key o && has_value o.

(** The labels of the training split of a run of [train_model], when the
    split returns. *)
Definition training_labels (sk : Sklearn.Estimator) (features : list Feat.row)
  : option (list Z) :=
  match feature_matrix feature_cols features with
  | Returned X =>
      match Sklearn.train_test_split sk X (map Feat.on_track_2030 features)
              (2 # 10) 42%Z with
      | inr split => Some (snd (fst split))
      | inl _ => None
      end
  | Raised _ => None
  end.

(** The median of the specification, by counting.  [x] has rank [k] among
    [v], ranks starting at 0, when it is one of the values, at most [k] of
    them are smaller and more than [k] of them are at most [x]. *)
Definition count_below (v : list Q) (x : Q) : nat :=
  length (filter (fun y => negb (Qle_bool x y)) v).

Definition count_at_most (v : list Q) (x : Q) : nat :=
  length (filter (fun y => Qle_bool y x) v).

Definition has_rank (v : list Q) (k : nat) (x : Q) : Prop :=
  In x v /\ (count_below v x <= k < count_at_most v x)%nat.

(** [m] is the median of the values [v]: the middle value when their number
    is odd, and the mean of the two middle values, as the library rounds it,
    when it is even.  Nothing has no median. *)
Definition batch_median (np : Floats) (v : list Q) (m : Q) : Prop :=
  if Nat.even (length v)
  then exists lo hi,
         has_rank v (length v / 2 - 1) lo /\ has_rank v (length v / 2) hi
         /\ m = fmid np lo hi
  else has_rank v (length v / 2) m.

(** The changes of a frame that are present. *)
Definition changes (features : list Merged.row) : list Q :=
  dropna (column avg_yoy_change features).

(** An exception of the library, as opposed to an error kind of the
    specification. *)
Definition library_error (e : exn) : Prop :=
  exists pe, e = LibraryError pe.

(** The number of distinct labels of a split. *)
Definition label_classes (y : list Z) : nat := length (unique y).

(** ** Sample data *)

(** An arithmetic to run the examples: exact sums, means and midpoints, and
    a square root to six decimals.  On the sample batches below, whose sums,
    means and midpoints are integers and halves, it is the arithmetic of
    doubles; no statement depends on the standard deviations. *)
Definition qsum (v : list Q) : Q := fold_left Qplus v 0.

Definition qlen (v : list Q) : Q := inject_Z (Z.of_nat (length v)).

Definition sqrt_6dp (q : Q) : Q :=
  Z.sqrt (Qnum q * 10 ^ 12 / Zpos (Qden q)) # 10 ^ 6.

Definition exact_std (v : list Q) : Q :=
  let m := qsum v / qlen v in
  sqrt_6dp (qsum (map (fun x => (x - m) * (x - m)) v) / (qlen v - 1)).

Program Definition exact_floats : Floats :=
  {| fsum := qsum;
     fmean := fun v => qsum v / qlen v;
     fstd := exact_std;
     fmid := fun a b => (a + b) / 2;
     fround := fun x => x |}.
Next Obligation.
  unfold qsum, qlen. simpl. field.
Qed.
Next Obligation.
  rename H into Ne, H0 into B.
  assert (Acc : forall (t : list Q) (a : Q), fold_left Qplus t a == a + qsum t).
  { unfold qsum. induction t as [| y t IH]; intros a; simpl; [ring |].
    rewrite (IH (a + y)), (IH (0 + y)). ring. }
  assert (S : forall t : list Q,
             (forall x, In x t -> 0 <= x <= 1) -> 0 <= qsum t <= qlen t).
  { induction t as [| y t IH]; intros Bt.
    - unfold qsum, qlen. simpl. split; apply Qle_refl.
    - assert (Ey : qsum (y :: t) == y + qsum t).
      { unfold qsum at 1. simpl. rewrite Acc. ring. }
      assert (El : qlen (y :: t) == 1 + qlen t).
      { unfold qlen. cbn [length]. rewrite Nat2Z.inj_succ. unfold Z.succ.
        rewrite inject_Z_plus. ring. }
      destruct (Bt y (or_introl eq_refl)) as [Y0 Y1].
      destruct (IH (fun x I => Bt x (or_intror I))) as [T0 T1].
      rewrite Ey, El. split; lra. }
  destruct (S v B) as [S0 S1].
  assert (Pos : 0 < qlen v).
  { destruct v as [| y t]; [contradiction Ne; reflexivity |].
    unfold qlen. change 0 with (inject_Z 0). rewrite <- Zlt_Qlt.
    cbn [length]. lia. }
  split.
  - apply Qle_shift_div_l; [exact Pos | lra].
  - apply Qle_shift_div_r; [exact Pos | lra].
Qed.
Next Obligation.
  rename H into Le. split.
  - apply Qle_shift_div_l; [reflexivity | lra].
  - apply Qle_shift_div_r; [reflexivity | lra].
Qed.
Next Obligation.
  rename H into Ea, H0 into Eb. rewrite Ea, Eb. reflexivity.
Qed.
Next Obligation.
  reflexivity.
Qed.

Definition observation (c g : option string) (y : Z) (value yoy gdp : option Q)
  : Obs.row :=
  {| Obs.country_code := c;
     Obs.country_name := c;
     Obs.goal_code := g;
     Obs.year := y;
     Obs.region := Some "Asia"%string;
     Obs.income_level := Some "High income"%string;
     Obs.indicators_measured := Some 3;
     Obs.avg_indicator_value := value;
     Obs.yoy_change := yoy;
     Obs.gdp_per_capita := gdp;
     Obs.population := Some 1000;
     Obs.life_expectancy := Some 70;
     Obs.adult_literacy_rate := None |}.

(** Three countries, one goal, one observation each, the same change. *)
Definition flat_batch : list Obs.row :=
  [ observation (Some "JPN") (Some "1") 2020 (Some 50) (Some 2) (Some 400);
    observation (Some "KOR") (Some "1") 2020 (Some 60) (Some 2) (Some 300);
    observation (Some "THA") (Some "1") 2020 (Some 40) (Some 2) (Some 100) ]%string.

(** Four countries with changes 1, 2, 3 and 4. *)
Definition trend_batch : list Obs.row :=
  [ observation (Some "JPN") (Some "1") 2020 (Some 50) (Some 1) (Some 400);
    observation (Some "KOR") (Some "1") 2020 (Some 60) (Some 2) (Some 300);
    observation (Some "THA") (Some "1") 2020 (Some 40) (Some 3) (Some 100);
    observation (Some "VNM") (Some "1") 2020 (Some 30) (Some 4) None ]%string.

(** One country, one goal, one observation, with a change of 5. *)
Definition single_batch : list Obs.row :=
  [ observation (Some "JPN") (Some "1") 2020 (Some 50) (Some 5) (Some 400) ]%string.

(** Two keys for one country, one of them observed twice; the later year of
    the country has no GDP figure. *)
Definition mixed_batch : list Obs.row :=
  [ observation (Some "JPN") (Some "2") 2020 (Some 7) None None;
    observation (Some "JPN") (Some "1") 2020 (Some 50) (Some 5) None;
    observation (Some "JPN") (Some "1") 2019 (Some 45) None (Some 400) ]%string.

(** A batch with an observation that has no country code, one that has no
    goal code and one that has no value. *)
Definition incomplete_batch : list Obs.row :=
  [ observation None (Some "1") 2020 (Some 50) (Some 5) (Some 400);
    observation (Some "JPN") None 2020 (Some 50) (Some 5) (Some 400);
    observation (Some "JPN") (Some "1") 2020 None (Some 5) (Some 400);
    observation (Some "JPN") (Some "1") 2021 (Some 8) (Some 1) (Some 400) ]%string.

(** A stand-in for the estimator, to run the examples: a split that keeps
    the order of the rows, and a model that records the classes it was
    fitted on. *)
Definition holdout_split (X : list (list cell)) (y : list Z) (test_size : Q) (seed : Z)
  : Sklearn.py_exn + (list (list cell) * list (list cell) * list Z * list Z) :=
  let n := length X in
  let n_test := Z.to_nat (Qceiling (test_size * inject_Z (Z.of_nat n))) in
  let n_train := (n - n_test)%nat in
  if Nat.eqb n_train 0 then inl Sklearn.ValueError
  else inr (firstn n_train X, skipn n_train X, firstn n_train y, skipn n_train y).

Definition holdout_estimator : Sklearn.Estimator :=
  {| Sklearn.Model := list Z;
     Sklearn.train_test_split := holdout_split;
     Sklearn.forest_fit := fun _ _ _ _ y => inr (unique y);
     Sklearn.predict := fun m X => inr (map (fun _ => hd 0%Z m) X);
     Sklearn.predict_proba_1 :=
       fun m X =>
         match m with
         | _ :: _ :: _ => inr (map (fun _ => 1 # 2) X)
         | _ => inl Sklearn.IndexError
         end |}.

(** ** Further vocabulary *)

(** The sum of a column of integers. *)
Definition zsum (l : list Z) : Z := fold_right Z.add 0%Z l.

(** [v] is the latest known value of the column [f] among [rows]. *)
Definition latest_in {A : Type} (rows : list Obs.row) (f : Obs.row -> option A)
  (v : option A) : Prop :=
  match v with
  | Some x =>
      exists o, In o rows /\ f o = Some x
                /\ forall o', In o' rows -> f o' <> None ->
                              (Obs.year o' <= Obs.year o)%Z
  | None => forall o', In o' rows -> f o' = None
  end.

(** The observations of a key that carry a value. *)
Definition valued (k : string * string) (df : list Obs.row) : list Obs.row :=
  filter has_value (observations_of k df).

(** How line 100-103 treats one economic attribute [get] of one record:
    [joined] is what the merge gave the record, [filled] what it has after
    the fill. *)
Definition imputed (np : Floats) (merged : list Merged.row)
  (get : Merged.row -> option Q) (joined filled : option Q) : Prop :=
  (forall x, joined = Some x -> filled = Some x)
  /\ (joined = None -> filled = median np (column get merged))
  /\ (filled = None <-> forall m, In m merged -> get m = None)
  /\ (forall x, filled = Some x ->
        exists a b, In (Some a) (column get merged)
                    /\ In (Some b) (column get merged) /\ a <= x <= b).


(** An observation of a country in a given region. *)
Definition observation_in (rg : option string) (c : string) (yoy : Q) : Obs.row :=
  {| Obs.country_code := Some c;
     Obs.country_name := Some c;
     Obs.goal_code := Some "1"%string;
     Obs.year := 2020;
     Obs.region := rg;
     Obs.income_level := None;
     Obs.indicators_measured := Some 3;
     Obs.avg_indicator_value := Some 50;
     Obs.yoy_change := Some yoy;
     Obs.gdp_per_capita := None;
     Obs.population := None;
     Obs.life_expectancy := None;
     Obs.adult_literacy_rate := None |}.

(** Five countries in three regions, one of them unknown, with five
    different changes. *)
Definition region_batch : list Obs.row :=
  [ observation_in (Some "Europe") "DEU" 3;
    observation_in None "ATA" 1;
    observation_in (Some "Asia") "JPN" 5;
    observation_in (Some "Europe") "FRA" 2;
    observation_in (Some "Asia") "KOR" 4 ]%string.

(** ** Codes of targets and indicators ([scripts/extract_data.py]) *)

Module Extract.

(** [s.split(sep)] for a separator of one character: the pieces between the
    occurrences of [sep], at least one piece. *)
Fixpoint split_on (sep : ascii) (s : string) : list string :=
  match s with
  | EmptyString => [EmptyString]
  | String c s' =>
      if Ascii.eqb c sep then EmptyString :: split_on sep s'
      else match split_on sep s' with
           | h :: t => String c h :: t
           | [] => [String c EmptyString]
           end
  end.

(** The number of occurrences of a character. *)
Fixpoint count_char (c : ascii) (s : string) : nat :=
  match s with
  | EmptyString => O
  | String d s' => if Ascii.eqb d c then S (count_char c s') else count_char c s'
  end.

(** Lines 69 and 87: [code.split('.')[0]]; [None] is the [IndexError] of an
    empty list. *)
Definition goal_code_of (code : string) : option string :=
  hd_error (split_on "."%char code).

(** Line 88: ['.'.join(code.split('.')[:2])]. *)
Definition target_code_of (code : string) : string :=
  String.concat "."%string (firstn 2 (split_on "."%char code)).

End Extract.

(** ** The World Bank extractor ([scripts/extract_data.py]) *)

Module WorldBank.

(** The JSON of a response, as far as [extract_indicator] reads it. *)
Record country : Type := {
  id : option string;
  name : option string
}.

(** [value] is [None] for a JSON null or a missing key; [date] and
    [country] are [None] for a missing key. *)
Record record : Type := {
  country_of : option country;
  date : option string;
  value : option Q
}.

(** [data[0]]: the key [pages]. *)
Record meta : Type := { pages : option nat }.

(** [data]: [Short] when [len(data) < 2]; otherwise [data[0]] and
    [data[1]], the latter empty also when it is null. *)
Inductive response : Type :=
| Short
| Page (m : meta) (records : list record).

(** A row of [all_data]; its time stamp is left out. *)
Record row : Type := {
  indicator_code : string;
  indicator_name : string;
  country_code : string;
  country_name : string;
  year : Z;
  row_value : option Q
}.

(** What a call of [extract_indicator] comes to: the rows, or an exception
    of a request or of a conversion, which nothing catches. *)
Inductive result : Type :=
| Rows (all_data : list row)
| Failed.

Section Extractor.

(** [requests.get(url, params).json()] for a page number; [None] when it
    raises. *)
Variable fetch : nat -> option response.

(** [int(s)] on a string; [None] when it raises. *)
Variable int_of_string : string -> option Z.

Variables code name_ : string.

(** Lines 229-238 for one record: [None] when a conversion raises,
    otherwise the row, if the record has a value. *)
Definition row_of (r : record) : option (option row) :=
  match value r with
  | None => Some None
  | Some v =>
      match (match date r with
             | Some s => int_of_string s
             | None => Some 0%Z
             end) with
      | None => None
      | Some y =>
          Some (Some
            {| indicator_code := code;
               indicator_name := name_;
               country_code :=
                 match country_of r with
                 | Some c => fillna_with ""%string (id c)
                 | None => ""%string
                 end;
               country_name :=
                 match country_of r with
                 | Some c => fillna_with ""%string (name c)
                 | None => ""%string
                 end;
               year := y;
               row_value := if Qeq_bool v 0 then None else Some v |})
      end
  end.

(** Lines 228-238: the rows of the records of one page, in order. *)
Fixpoint page_rows (records : list record) : option (list row) :=
  match records with
  | [] => Some []
  | r :: t =>
      match row_of r with
      | None => None
      | Some o =>
          match page_rows t with
          | None => None
          | Some rows =>
              Some (match o with Some x => x :: rows | None => rows end)
          end
      end
  end.

Definition total_pages (m : meta) : nat :=
  match pages m with Some n => n | None => 1%nat end.

(** Lines 213-244: the loop from a page on; [fuel] bounds the number of
    requests, and [None] is the loop still running when it is used up. *)
Fixpoint extract_from (fuel : nat) (page : nat) (all_data : list row)
  : option result :=
  match fuel with
  | O => None
  | S fuel' =>
      match fetch page with
      | None => Some Failed
      | Some Short => Some (Rows all_data)
      | Some (Page m []) => Some (Rows all_data)
      | Some (Page m records) =>
          match page_rows records with
          | None => Some Failed
          | Some rows =>
              if Nat.leb (total_pages m) page
              then Some (Rows (all_data ++ rows))
              else extract_from fuel' (S page) (all_data ++ rows)
          end
      end
  end.

(** [extract_indicator(indicator_code, indicator_name)], before the frame is
    built. *)
Definition extract_indicator (fuel : nat) : option result :=
  extract_from fuel 1 [].

End Extractor.

End WorldBank.

(** [int(s)] on a string of decimal digits, to run the examples; any other
    string is refused here. *)
Fixpoint digits_value (s : string) (acc : Z) : option Z :=
  match s with
  | EmptyString => Some acc
  | String c s' =>
      let n := nat_of_ascii c in
      if (Nat.leb 48 n && Nat.leb n 57)%bool
      then digits_value s' (10 * acc + Z.of_nat (n - 48))%Z
      else None
  end.

Definition int_of_digits (s : string) : option Z :=
  match s with
  | EmptyString => None
  | _ => digits_value s 0%Z
  end.

Definition wb_record (c : string) (d : string) (v : option Q) : WorldBank.record :=
  {| WorldBank.country_of := Some {| WorldBank.id := Some c; WorldBank.name := None |};
     WorldBank.date := Some d;
     WorldBank.value := v |}.

(** A server with two pages: a measured 5, a measured 0 and a null on the
    first, a measured 7 on the second. *)
Definition two_pages (page : nat) : option WorldBank.response :=
  match page with
  | 1%nat =>
      Some (WorldBank.Page {| WorldBank.pages := Some 2%nat |}
              [ wb_record "JPN" "2020" (Some 5);
                wb_record "JPN" "2021" (Some 0);
                wb_record "JPN" "2022" None ]%string)
  | 2%nat =>
      Some (WorldBank.Page {| WorldBank.pages := Some 2%nat |}
              [ wb_record "KOR" "2023" (Some 7) ]%string)
  | _ => Some WorldBank.Short
  end.

(** ** The rankings printed by [main] *)

Definition is_present {A : Type} (x : option A) : bool :=
  match x with Some _ => true | None => false end.

(** [Series.sort_values(ascending=False)]: the present values are reversed,
    sorted ascending and reversed again; the missing ones come last.  The
    default sort of pandas does not fix the order among equal values; here
    it is the order of a stable sort. *)
Definition sort_values_desc {A : Type} (by_ : A -> option Q) (l : list A) : list A :=
  rev (sort_values by_ (rev (filter (fun x => is_present (by_ x)) l)))
  ++ filter (fun x => negb (is_present (by_ x))) l.

Definition prediction_country_name (r : Pred.row) : option string :=
  Attr.country_name (Merged.attrs (Feat.base (Pred.feat r))).

(** Lines 279 and 287:
    [predictions.groupby('country_name')['prediction_2030_probability'].mean()]. *)
Definition mean_probability (np : Floats) (predictions : list Pred.row)
  : list (string * option Q) :=
  map (fun g =>
         (fst g,
          agg_mean np
            (map (fun r => Some (Pred.prediction_2030_probability r)) (snd g))))
      (groupby prediction_country_name predictions).

(** Line 280: [top_countries.sort_values(ascending=False).head(10)]. *)
Definition top_countries (np : Floats) (predictions : list Pred.row)
  : list (string * option Q) :=
  firstn 10 (sort_values_desc snd (mean_probability np predictions)).

(** Line 288: [bottom_countries.sort_values().head(10)]. *)
Definition bottom_countries (np : Floats) (predictions : list Pred.row)
  : list (string * option Q) :=
  firstn 10 (sort_values snd (mean_probability np predictions)).

(** [int(x)] on a float: the fraction is dropped. *)
Definition int_of_float (x : Q) : Z :=
  if Qle_bool 0 x then Qfloor x else Qceiling x.

(** Lines 282 and 290: the number of glyphs of the bar of a country of the
    first list, [int(prob * 30)], and of the second, [int((1 - prob) * 30)],
    each operation rounding its result; a string times a negative number is
    empty. *)
Definition top_bar (np : Floats) (prob : Q) : nat :=
  Z.to_nat (int_of_float (fround np (prob * 30))).

Definition bottom_bar (np : Floats) (prob : Q) : nat :=
  Z.to_nat (int_of_float (fround np (fround np (1 - prob) * 30))).

(** The mean of the first entry is at most that of the second, both being
    present. *)
Definition mean_le (a b : string * option Q) : Prop :=
  exists x y, snd a = Some x /\ snd b = Some y /\ x <= y.

(** The predictions of a run, none when it raised. *)
Definition returned_predictions (run : outcome (list Pred.row)) : list Pred.row :=
  match run with
  | Returned out => out
  | Raised _ => []
  end.

(** The predictions of the batch of four countries with the stand-in
    estimator. *)
Definition sample_predictions : list Pred.row :=
  returned_predictions (pipeline exact_floats holdout_estimator trend_batch).
(** * Properties *)

(** ** Risk categories and the on-track flag *)

Local Open Scope Q_scope.

(** Comparison of two rational constants. *)
Ltac qcmp := unfold Qlt, Qle; simpl; lia.

Lemma Qle_bool_false (x y : Q) : Qle_bool x y = false <-> y < x.
Proof.
  split; intros E.
  - apply Qnot_le_lt. intros L. apply Qle_bool_iff in L. congruence.
  - destruct (Qle_bool x y) eqn:B; [| reflexivity].
    apply Qle_bool_iff in B. exfalso. exact (Qle_not_lt _ _ B E).
Qed.

(** The bins of [pd.cut] as the program calls it, read off one probability. *)
Lemma prediction_category_bins (p : Q) :
  prediction_category p =
  if Qle_bool p 0 then None
  else if Qle_bool p (3 # 10) then Some "Off Track"%string
  else if Qle_bool p (5 # 10) then Some "At Risk"%string
  else if Qle_bool p (7 # 10) then Some "Moderate Progress"%string
  else if Qle_bool p 1 then Some "On Track"%string
  else None.
Proof.
  unfold prediction_category, cut, category_bins, category_labels.
  cbn [searchsorted_left].
  destruct (Qle_bool p 0); [reflexivity |].
  destruct (Qle_bool p (3 # 10)); [reflexivity |].
  destruct (Qle_bool p (5 # 10)); [reflexivity |].
  destruct (Qle_bool p (7 # 10)); [reflexivity |].
  destruct (Qle_bool p 1); reflexivity.
Qed.

(** A probability of exactly 0 is at the first edge, which the first bin
    does not include: it gets no category. *)
Lemma prediction_category_zero : prediction_category 0 = None.
Proof. reflexivity. Qed.

Lemma prediction_on_track_one (p : Q) :
  prediction_on_track p = 1%Z <-> 5 # 10 <= p.
Proof.
  unfold prediction_on_track.
  destruct (Qle_bool (5 # 10) p) eqn:B.
  - apply Qle_bool_iff in B. tauto.
  - apply Qle_bool_false in B. split; [discriminate |].
    intros L. exfalso. exact (Qle_not_lt _ _ L B).
Qed.

Lemma prediction_on_track_zero (p : Q) :
  prediction_on_track p = 0%Z <-> p < 5 # 10.
Proof.
  unfold prediction_on_track.
  destruct (Qle_bool (5 # 10) p) eqn:B.
  - apply Qle_bool_iff in B. split; [discriminate |].
    intros L. exfalso. exact (Qle_not_lt _ _ B L).
  - apply Qle_bool_false in B. tauto.
Qed.

Lemma combine_predicted (features : list Feat.row) (predictions : list Q) (r : Pred.row) :
  In r (map (fun x => predicted (fst x) (snd x)) (combine features predictions)) ->
  Pred.prediction_2030_on_track r = prediction_on_track (Pred.prediction_2030_probability r)
  /\ Pred.prediction_category r = prediction_category (Pred.prediction_2030_probability r).
Proof.
  intros I. apply in_map_iff in I. destruct I as [x [E _]]. subst r. split; reflexivity.
Qed.

(** Every row [generate_predictions] returns carries the flag and the
    category of its own probability. *)
Lemma generate_predictions_rows (sk : Sklearn.Estimator) (model : Sklearn.Model sk)
  (features : list Feat.row) (cols : list string) (out : list Pred.row) (r : Pred.row) :
  generate_predictions sk model features cols = Returned out ->
  In r out ->
  Pred.prediction_2030_on_track r = prediction_on_track (Pred.prediction_2030_probability r)
  /\ Pred.prediction_category r = prediction_category (Pred.prediction_2030_probability r).
Proof.
  unfold generate_predictions, feature_matrix, bind.
  destruct (call (select cols)) as [fs | e]; [| discriminate].
  destruct (call (Sklearn.predict_proba_1 sk model _)) as [ps | e]; [| discriminate].
  destruct (Nat.eqb (length ps) (length features)); [| discriminate].
  intros E I. injection E as E. subst out.
  exact (combine_predicted _ _ _ I).
Qed.

(** C1, as stated, fails: a probability of exactly 0.5 is flagged on track,
    but its category is "At Risk", not "Moderate Progress". *)
Lemma C1_half_is_at_risk :
  ~ (prediction_on_track (5 # 10) = 1%Z
     /\ prediction_category (5 # 10) = Some "Moderate Progress"%string).
Proof. intros [_ H]. vm_compute in H. discriminate H. Qed.

(** C1, amended: the flag and the category are two rules on the probability
    alone; the flag is 1 iff [p >= 0.5]; 0.5 gives flag 1 with category
    "At Risk", 0.49999 gives flag 0 with category "At Risk"; so the category
    does not determine the flag. *)
Theorem C1_flag_and_category_rules :
  (forall p, prediction_on_track p = 1%Z <-> 5 # 10 <= p)
  /\ (forall p, prediction_on_track p = 0%Z <-> p < 5 # 10)
  /\ (forall p,
        0 < p <= 1 ->
        exists c, In c category_labels /\ prediction_category p = Some c)
  /\ prediction_on_track (5 # 10) = 1%Z
  /\ prediction_category (5 # 10) = Some "At Risk"%string
  /\ prediction_on_track (49999 # 100000) = 0%Z
  /\ prediction_category (49999 # 100000) = Some "At Risk"%string
  /\ (forall sk model features cols out r,
        generate_predictions sk model features cols = Returned out ->
        In r out ->
        Pred.prediction_2030_on_track r
        = prediction_on_track (Pred.prediction_2030_probability r)
        /\ Pred.prediction_category r
           = prediction_category (Pred.prediction_2030_probability r)).
Proof.
  split; [exact prediction_on_track_one |].
  split; [exact prediction_on_track_zero |].
  split.
  { intros p [Hp0 Hp1]. rewrite prediction_category_bins.
    apply Qle_bool_false in Hp0. rewrite Hp0.
    apply Qle_bool_iff in Hp1. rewrite Hp1.
    unfold category_labels.
    destruct (Qle_bool p (3 # 10)); [eexists; split; [| reflexivity]; simpl; tauto |].
    destruct (Qle_bool p (5 # 10)); [eexists; split; [| reflexivity]; simpl; tauto |].
    destruct (Qle_bool p (7 # 10)); eexists; (split; [| reflexivity]); simpl; tauto. }
  repeat split; try reflexivity.
  - eapply generate_predictions_rows; eassumption.
  - eapply generate_predictions_rows; eassumption.
Qed.

(** C1, amended, at probability 0.4 and on the rules at 0.5. *)
Lemma C1_flag_and_category_rules_witness :
  prediction_on_track (4 # 10) = 0%Z
  /\ exists c, In c category_labels /\ prediction_category (4 # 10) = Some c.
Proof.
  split.
  - apply (proj1 (proj2 C1_flag_and_category_rules)). qcmp.
  - apply (proj1 (proj2 (proj2 C1_flag_and_category_rules))).
    split; qcmp.
Defined.

(** C2, as stated, fails: the edges 0.3, 0.5 and 0.7 do not fall in the
    upper of their two adjacent bins. *)
Lemma C2_edges_not_in_upper_bin :
  ~ (prediction_category (3 # 10) = Some "At Risk"%string
     /\ prediction_category (5 # 10) = Some "Moderate Progress"%string
     /\ prediction_category (7 # 10) = Some "On Track"%string).
Proof. intros [H _]. vm_compute in H. discriminate H. Qed.

(** C2, amended: every probability in (0,1] gets exactly one of the four
    categories, by the right-closed bins (0,0.3], (0.3,0.5], (0.5,0.7],
    (0.7,1]; each of the edges 0.3, 0.5, 0.7 falls in the lower of its two
    adjacent bins. *)
Theorem C2_category_partition :
  (forall p,
     0 < p <= 1 ->
     (exists c, In c category_labels /\ prediction_category p = Some c)
     /\ (prediction_category p = Some "Off Track"%string <-> p <= 3 # 10)
     /\ (prediction_category p = Some "At Risk"%string <-> 3 # 10 < p <= 5 # 10)
     /\ (prediction_category p = Some "Moderate Progress"%string
         <-> 5 # 10 < p <= 7 # 10)
     /\ (prediction_category p = Some "On Track"%string <-> 7 # 10 < p))
  /\ prediction_category (3 # 10) = Some "Off Track"%string
  /\ prediction_category (5 # 10) = Some "At Risk"%string
  /\ prediction_category (7 # 10) = Some "Moderate Progress"%string.
Proof.
  split; [| repeat split; reflexivity].
  intros p [Hp0 Hp1]. rewrite prediction_category_bins.
  apply Qle_bool_false in Hp0. rewrite Hp0.
  apply Qle_bool_iff in Hp1. rewrite Hp1.
  assert (L37 : 3 # 10 < 7 # 10) by qcmp.
  assert (L35 : 3 # 10 < 5 # 10) by qcmp.
  assert (L57 : 5 # 10 < 7 # 10) by qcmp.
  destruct (Qle_bool p (3 # 10)) eqn:B3.
  { apply Qle_bool_iff in B3.
    split; [exists "Off Track"%string; simpl; tauto |].
    split; [tauto |].
    split; [split; [discriminate | intros [L _]; exfalso; exact (Qle_not_lt _ _ B3 L)] |].
    split; (split; [discriminate |]).
    - intros [L _]. exfalso.
      exact (Qle_not_lt _ _ B3 (Qlt_trans _ _ _ L35 L)).
    - intros L. exfalso.
      exact (Qle_not_lt _ _ B3 (Qlt_trans _ _ _ L37 L)). }
  apply Qle_bool_false in B3.
  destruct (Qle_bool p (5 # 10)) eqn:B5.
  { apply Qle_bool_iff in B5.
    split; [exists "At Risk"%string; simpl; tauto |].
    split; [split; [discriminate | intros L; exfalso; exact (Qle_not_lt _ _ L B3)] |].
    split; [tauto |].
    split; (split; [discriminate |]).
    - intros [L _]. exfalso. exact (Qle_not_lt _ _ B5 L).
    - intros L. exfalso.
      exact (Qle_not_lt _ _ B5 (Qlt_trans _ _ _ L57 L)). }
  apply Qle_bool_false in B5.
  destruct (Qle_bool p (7 # 10)) eqn:B7.
  { apply Qle_bool_iff in B7.
    split; [exists "Moderate Progress"%string; simpl; tauto |].
    split; [split; [discriminate | intros L; exfalso; exact (Qle_not_lt _ _ L B3)] |].
    split; [split; [discriminate | intros [_ L]; exfalso; exact (Qle_not_lt _ _ L B5)] |].
    split; [tauto |].
    split; [discriminate |].
    intros L. exfalso. exact (Qle_not_lt _ _ B7 L). }
  apply Qle_bool_false in B7.
  split; [exists "On Track"%string; simpl; tauto |].
  split; [split; [discriminate | intros L; exfalso; exact (Qle_not_lt _ _ L B3)] |].
  split; [split; [discriminate | intros [_ L]; exfalso; exact (Qle_not_lt _ _ L B5)] |].
  split; [split; [discriminate | intros [_ L]; exfalso; exact (Qle_not_lt _ _ L B7)] |].
  tauto.
Qed.

(** C2, amended, at probability 0.6. *)
Lemma C2_category_partition_witness :
  0 < 6 # 10 <= 1
  /\ prediction_category (6 # 10) = Some "Moderate Progress"%string.
Proof.
  assert (H : 0 < 6 # 10 <= 1) by (split; qcmp).
  split; [exact H |].
  apply (proj1 (proj2 (proj2 (proj2 (proj1 C2_category_partition (6 # 10) H))))).
  split; qcmp.
Defined.

(** ** Laws of the key orders *)

Section KeyOrder.

Context {K : Type} `{CompareLaws K}.

Lemma compare_refl (x : K) : compare_key x x = Eq.
Proof.
  pose proof (compare_antisym x x) as E.
  destruct (compare_key x x); simpl in E; congruence.
Qed.

Lemma compare_eq_r (x y z : K) :
  compare_key x y = Eq -> compare_key z x = compare_key z y.
Proof.
  intros E. rewrite (compare_antisym x z), (compare_antisym y z).
  f_equal. apply compare_eq_l. exact E.
Qed.

Lemma compare_gt_lt (x y : K) : compare_key x y = Gt <-> compare_key y x = Lt.
Proof.
  rewrite (compare_antisym x y).
  destruct (compare_key x y); simpl; split; congruence.
Qed.

Lemma leb_key_total (x y : K) : leb_key x y = false -> leb_key y x = true.
Proof.
  unfold leb_key. rewrite (compare_antisym x y).
  destruct (compare_key x y); simpl; congruence.
Qed.

Lemma leb_key_trans (x y z : K) :
  leb_key x y = true -> leb_key y z = true -> leb_key x z = true.
Proof.
  unfold leb_key.
  destruct (compare_key x y) eqn:Exy; try discriminate; intros _.
  - rewrite (compare_eq_l _ _ z Exy). tauto.
  - destruct (compare_key y z) eqn:Eyz; try discriminate; intros _.
    + rewrite <- (compare_eq_r _ _ x Eyz), Exy. reflexivity.
    + rewrite (compare_lt_trans _ _ _ Exy Eyz). reflexivity.
Qed.

End KeyOrder.

(** A comparison that decides a strict total order obeys the laws. *)
Lemma laws_of_compare_spec (K : Type) (c : Compare K) (lt : K -> K -> Prop) :
  StrictOrder lt ->
  (forall x y, CompSpec eq lt x y (compare_key x y)) ->
  CompareLaws K /\ CompareEq K.
Proof.
  intros [Irr Tr] Sp.
  assert (Eqc : forall x y, compare_key x y = Eq -> x = y).
  { intros x y E. destruct (Sp x y); congruence. }
  assert (Ltc : forall x y, compare_key x y = Lt <-> lt x y).
  { intros x y. destruct (Sp x y) as [E | L | G]; split; try congruence; intros L'.
    - subst. exfalso. exact (Irr _ L').
    - exfalso. exact (Irr _ (Tr _ _ _ L' G)). }
  split; [split |].
  - intros x y. destruct (Sp x y) as [E | L | G]; simpl.
    + subst. destruct (Sp y y) as [_ | L | L]; [reflexivity | |]; exfalso; exact (Irr _ L).
    + destruct (Sp y x) as [E | L' | _]; [| | reflexivity]; exfalso.
      * subst. exact (Irr _ L).
      * exact (Irr _ (Tr _ _ _ L L')).
    + apply Ltc. exact G.
  - intros x y z Hxy Hyz. apply Ltc. apply Ltc in Hxy, Hyz. exact (Tr _ _ _ Hxy Hyz).
  - intros x y z E. apply Eqc in E. subst. reflexivity.
  - exact Eqc.
Qed.

#[export] Instance string_laws : CompareLaws string.
Proof.
  exact (proj1 (laws_of_compare_spec string compare_string _ String_as_OT.lt_strorder String_as_OT.compare_spec)).
Qed.

#[export] Instance string_eq : CompareEq string.
Proof.
  exact (proj2 (laws_of_compare_spec string compare_string _ String_as_OT.lt_strorder String_as_OT.compare_spec)).
Qed.

#[export] Instance Z_laws : CompareLaws Z.
Proof.
  exact (proj1 (laws_of_compare_spec Z compare_Z _ Z.lt_strorder Z.compare_spec)).
Qed.

#[export] Instance Z_eq : CompareEq Z.
Proof.
  exact (proj2 (laws_of_compare_spec Z compare_Z _ Z.lt_strorder Z.compare_spec)).
Qed.

#[export] Instance Q_laws : CompareLaws Q.
Proof.
  split; unfold compare_key, compare_Q.
  - intros x y. symmetry. apply Qcompare_antisym.
  - intros x y z Hxy Hyz. apply Qlt_alt. apply Qlt_alt in Hxy, Hyz.
    exact (Qlt_trans _ _ _ Hxy Hyz).
  - intros x y z E. apply Qeq_alt in E. rewrite E. reflexivity.
Qed.

#[export] Instance option_laws (K : Type) `{CompareLaws K} : CompareLaws (option K).
Proof.
  split.
  - intros [x |] [y |]; cbv [compare_key compare_option]; try reflexivity.
    apply (compare_antisym (K := K)).
  - intros [x |] [y |] [z |]; cbv [compare_key compare_option]; try congruence.
    apply (compare_lt_trans (K := K)).
  - intros [x |] [y |] [z |]; cbv [compare_key compare_option]; try congruence.
    apply (compare_eq_l (K := K)).
Qed.

#[export] Instance option_eq (K : Type) `{CompareEq K} : CompareEq (option K).
Proof.
  intros [x |] [y |]; cbv [compare_key compare_option]; try congruence.
  intros E. f_equal. apply (compare_eq (K := K)). exact E.
Qed.

Lemma compare_pair_unfold (K1 K2 : Type) `{Compare K1} `{Compare K2}
  (x1 y1 : K1) (x2 y2 : K2) :
  compare_key (x1, x2) (y1, y2)
  = match compare_key x1 y1 with Eq => compare_key x2 y2 | c => c end.
Proof. reflexivity. Qed.

#[export] Instance pair_laws (K1 K2 : Type) `{CompareLaws K1} `{CompareLaws K2}
  : CompareLaws (K1 * K2).
Proof.
  split.
  - intros [x1 x2] [y1 y2]. rewrite !compare_pair_unfold.
    rewrite (compare_antisym x1 y1).
    destruct (compare_key x1 y1); simpl; try reflexivity. apply compare_antisym.
  - intros [x1 x2] [y1 y2] [z1 z2]. rewrite !compare_pair_unfold.
    destruct (compare_key x1 y1) eqn:E1; try discriminate.
    + rewrite (compare_eq_l _ _ z1 E1).
      destruct (compare_key y1 z1); try discriminate; [| reflexivity].
      apply compare_lt_trans.
    + intros _. destruct (compare_key y1 z1) eqn:E2; try discriminate; intros _.
      * rewrite <- (compare_eq_r _ _ x1 E2), E1. reflexivity.
      * rewrite (compare_lt_trans _ _ _ E1 E2). reflexivity.
  - intros [x1 x2] [y1 y2] [z1 z2]. rewrite !compare_pair_unfold.
    destruct (compare_key x1 y1) eqn:E1; try discriminate.
    intros E2. rewrite (compare_eq_l _ _ z1 E1).
    destruct (compare_key y1 z1); try reflexivity.
    apply compare_eq_l. exact E2.
Qed.

#[export] Instance pair_eq (K1 K2 : Type) `{CompareEq K1} `{CompareEq K2}
  : CompareEq (K1 * K2).
Proof.
  intros [x1 x2] [y1 y2]. rewrite compare_pair_unfold.
  destruct (compare_key x1 y1) eqn:E1; try discriminate.
  intros E2. apply compare_eq in E1. apply compare_eq in E2. congruence.
Qed.

(** ** [sort_values] *)

Section SortValues.

Context {A K : Type} `{CompareLaws K} (by_ : A -> K).

Local Abbreviation key_le := (fun a b : A => leb_key (by_ a) (by_ b) = true).

Lemma insert_sorted_perm (x : A) (l : list A) :
  Permutation (insert_sorted by_ x l) (x :: l).
Proof.
  induction l as [| y t IH]; simpl.
  - apply Permutation_refl.
  - destruct (leb_key (by_ x) (by_ y)).
    + apply Permutation_refl.
    + apply perm_trans with (y :: x :: t).
      * apply perm_skip. exact IH.
      * apply perm_swap.
Qed.

(** Sorting rearranges the rows and loses none. *)
Lemma sort_values_perm (l : list A) : Permutation (sort_values by_ l) l.
Proof.
  induction l as [| x t IH]; simpl.
  - apply perm_nil.
  - apply perm_trans with (x :: sort_values by_ t).
    + apply insert_sorted_perm.
    + apply perm_skip. exact IH.
Qed.

Lemma insert_sorted_sorted (x : A) (l : list A) :
  StronglySorted key_le l -> StronglySorted key_le (insert_sorted by_ x l).
Proof.
  induction l as [| y t IH]; simpl; intros S.
  - constructor; constructor.
  - apply StronglySorted_inv in S. destruct S as [St Fy].
    destruct (leb_key (by_ x) (by_ y)) eqn:L.
    + constructor; [constructor; assumption |].
      constructor; [exact L |].
      eapply Forall_impl; [| exact Fy].
      intros z Lz. simpl in *. exact (leb_key_trans _ _ _ L Lz).
    + constructor; [exact (IH St) |].
      eapply Permutation_Forall.
      * apply Permutation_sym. apply insert_sorted_perm.
      * constructor; [exact (leb_key_total _ _ L) | exact Fy].
Qed.

(** The sorted frame is ascending in its key. *)
Lemma sort_values_sorted (l : list A) : StronglySorted key_le (sort_values by_ l).
Proof.
  induction l as [| x t IH]; simpl.
  - constructor.
  - apply insert_sorted_sorted. exact IH.
Qed.

Lemma insert_sorted_head (x : A) (l : list A) :
  Forall (key_le x) l -> insert_sorted by_ x l = x :: l.
Proof.
  destruct l as [| y t]; simpl; intros F; [reflexivity |].
  apply Forall_inv in F. simpl in F. rewrite F. reflexivity.
Qed.

Lemma filter_insert_sorted (p : A -> bool) (x : A) (l : list A) :
  StronglySorted key_le l ->
  filter p (insert_sorted by_ x l)
  = if p x then insert_sorted by_ x (filter p l) else filter p l.
Proof.
  induction l as [| y t IH]; simpl; intros S.
  - destruct (p x); reflexivity.
  - apply StronglySorted_inv in S. destruct S as [St Fy].
    destruct (leb_key (by_ x) (by_ y)) eqn:L; simpl.
    + destruct (p x) eqn:Px; [| reflexivity].
      destruct (p y) eqn:Py; simpl.
      * rewrite L. reflexivity.
      * symmetry. apply insert_sorted_head.
        apply Forall_forall. intros z Iz. apply filter_In in Iz.
        destruct Iz as [Iz _].
        rewrite Forall_forall in Fy. simpl.
        exact (leb_key_trans _ _ _ L (Fy z Iz)).
    + rewrite (IH St).
      destruct (p x) eqn:Px; destruct (p y) eqn:Py; simpl; try reflexivity.
      rewrite L. reflexivity.
Qed.

(** Sorting keeps rows with equal keys in order, so it commutes with the
    selection of rows. *)
Lemma filter_sort_values (p : A -> bool) (l : list A) :
  filter p (sort_values by_ l) = sort_values by_ (filter p l).
Proof.
  induction l as [| x t IH]; simpl; [reflexivity |].
  rewrite filter_insert_sorted by apply sort_values_sorted.
  rewrite IH. destruct (p x); reflexivity.
Qed.

End SortValues.

(** ** [unique] and [groupby] *)

Section Unique.

Context {K : Type} {C : Compare K} {L : CompareLaws K} {E : CompareEq K}.

Local Abbreviation key_lt := (fun a b : K => compare_key a b = Lt).

Lemma eqb_key_true (x y : K) : eqb_key x y = true <-> x = y.
Proof.
  unfold eqb_key. split.
  - destruct (compare_key x y) eqn:Exy; try discriminate.
    intros _. apply compare_eq. exact Exy.
  - intros ->. rewrite compare_refl. reflexivity.
Qed.

Lemma in_group_true (k : K) (x : option K) : in_group k x = true <-> x = Some k.
Proof.
  destruct x as [k' |]; simpl.
  - rewrite eqb_key_true. split; congruence.
  - split; discriminate.
Qed.

Lemma insert_unique_In (x y : K) (l : list K) :
  In y (insert_unique x l) <-> y = x \/ In y l.
Proof.
  induction l as [| z t IH]; simpl.
  - intuition.
  - destruct (compare_key x z) eqn:Exz; simpl.
    + apply compare_eq in Exz. subst z. intuition.
    + intuition.
    + rewrite IH. intuition.
Qed.

(** [unique] keeps exactly the values that occur. *)
Lemma unique_In (y : K) (l : list K) : In y (unique l) <-> In y l.
Proof.
  induction l as [| x t IH]; simpl; [tauto |].
  rewrite insert_unique_In, IH. intuition.
Qed.

Lemma insert_unique_sorted (x : K) (l : list K) :
  StronglySorted key_lt l -> StronglySorted key_lt (insert_unique x l).
Proof.
  induction l as [| z t IH]; simpl; intros S.
  - constructor; constructor.
  - pose proof (StronglySorted_inv S) as [St Fz].
    destruct (compare_key x z) eqn:Exz.
    + exact S.
    + constructor; [exact S |].
      constructor; [exact Exz |].
      eapply Forall_impl; [| exact Fz].
      intros w Lw. simpl in *. exact (compare_lt_trans _ _ _ Exz Lw).
    + constructor; [exact (IH St) |].
      apply Forall_forall. intros w Iw. apply insert_unique_In in Iw.
      destruct Iw as [-> | Iw].
      * apply compare_gt_lt. exact Exz.
      * rewrite Forall_forall in Fz. exact (Fz w Iw).
Qed.

(** [unique] is strictly ascending. *)
Lemma unique_sorted (l : list K) : StronglySorted key_lt (unique l).
Proof.
  induction l as [| x t IH]; simpl.
  - constructor.
  - apply insert_unique_sorted. exact IH.
Qed.

Lemma sorted_lt_NoDup (l : list K) : StronglySorted key_lt l -> NoDup l.
Proof.
  induction l as [| x t IH]; intros S.
  - constructor.
  - apply StronglySorted_inv in S. destruct S as [St Fx].
    constructor; [| exact (IH St)].
    intros I. rewrite Forall_forall in Fx. specialize (Fx x I). simpl in Fx.
    rewrite compare_refl in Fx. discriminate.
Qed.

Lemma unique_NoDup (l : list K) : NoDup (unique l).
Proof. apply sorted_lt_NoDup. apply unique_sorted. Qed.

(** A strictly ascending list is determined by the set of its elements. *)
Lemma sorted_lt_ext (l1 l2 : list K) :
  StronglySorted key_lt l1 -> StronglySorted key_lt l2 ->
  (forall x, In x l1 <-> In x l2) -> l1 = l2.
Proof.
  revert l2. induction l1 as [| a t1 IH]; intros [| b t2] S1 S2 Ext.
  - reflexivity.
  - exfalso. apply (proj2 (Ext b)). left. reflexivity.
  - exfalso. apply (proj1 (Ext a)). left. reflexivity.
  - apply StronglySorted_inv in S1. destruct S1 as [S1 F1].
    apply StronglySorted_inv in S2. destruct S2 as [S2 F2].
    rewrite Forall_forall in F1, F2.
    assert (Eab : a = b).
    { destruct (proj1 (Ext a) (or_introl eq_refl)) as [Eba | Ia]; [congruence |].
      destruct (proj2 (Ext b) (or_introl eq_refl)) as [Eab | Ib]; [congruence |].
      pose proof (compare_lt_trans _ _ _ (F1 b Ib) (F2 a Ia)) as Laa.
      rewrite compare_refl in Laa. discriminate. }
    subst b. f_equal. apply IH; [exact S1 | exact S2 |].
    intros x. split; intros Ix.
    + destruct (proj1 (Ext x) (or_intror Ix)) as [Eax | Ix2]; [| exact Ix2].
      subst x. specialize (F1 a Ix). simpl in F1.
      rewrite compare_refl in F1. discriminate.
    + destruct (proj2 (Ext x) (or_intror Ix)) as [Eax | Ix1]; [| exact Ix1].
      subst x. specialize (F2 a Ix). simpl in F2.
      rewrite compare_refl in F2. discriminate.
Qed.

(** [unique] depends on the set of values only, not on their order or
    their multiplicity. *)
Lemma unique_ext (l1 l2 : list K) :
  (forall x, In x l1 <-> In x l2) -> unique l1 = unique l2.
Proof.
  intros Ext. apply sorted_lt_ext; try apply unique_sorted.
  intros x. rewrite !unique_In. apply Ext.
Qed.

Lemma filter_eqb_NoDup (k : K) (l : list K) :
  NoDup l -> In k l -> filter (eqb_key k) l = [k].
Proof.
  induction l as [| x t IH]; intros N I; [destruct I |].
  inversion N as [| ? ? Nx Nt]; subst. simpl.
  destruct (eqb_key k x) eqn:B.
  - apply eqb_key_true in B. subst x. f_equal.
    assert (F : forall y, In y t -> eqb_key k y = false).
    { intros y Iy. destruct (eqb_key k y) eqn:By; [| reflexivity].
      apply eqb_key_true in By. subst y. contradiction. }
    clear - F. induction t as [| y t IH]; simpl; [reflexivity |].
    rewrite (F y (or_introl eq_refl)). apply IH.
    intros z Iz. apply F. right. exact Iz.
  - destruct I as [-> | I].
    + rewrite (proj2 (eqb_key_true k k) eq_refl) in B. discriminate.
    + exact (IH Nt I).
Qed.

End Unique.

Lemma dropna_In {A : Type} (x : A) (c : list (option A)) :
  In x (dropna c) <-> In (Some x) c.
Proof.
  induction c as [| [y |] t IH]; simpl.
  - tauto.
  - rewrite IH. split; intros [H | H]; auto; left; congruence.
  - rewrite IH. split; [auto | intros [H | H]; [discriminate | exact H]].
Qed.

Lemma dropna_map_Some {A B : Type} (f : A -> B) (l : list A) :
  dropna (map (fun x => Some (f x)) l) = map f l.
Proof. induction l as [| x t IH]; simpl; [| rewrite IH]; reflexivity. Qed.

(** ** The target column *)

Lemma leb_key_Qle (x y : Q) : leb_key x y = true <-> x <= y.
Proof.
  unfold leb_key, compare_key, compare_Q. rewrite Qle_alt.
  destruct (x ?= y); split; congruence.
Qed.

Lemma gt_spec (a b : option Q) :
  gt a b = true <-> exists x m, a = Some x /\ b = Some m /\ m < x.
Proof.
  destruct a as [x |], b as [m |]; simpl;
    try (split; [discriminate | intros [? [? [? [? _]]]]; discriminate]).
  rewrite negb_true_iff, Qle_bool_false. split.
  - intros Lt. exists x, m. auto.
  - intros [x' [m' [Ex [Em Lt]]]]. congruence.
Qed.

Lemma on_track_one (med : option Q) (r : Merged.row) :
  on_track med r = 1%Z
  <-> exists x m, avg_yoy_change r = Some x /\ med = Some m /\ m < x.
Proof.
  unfold on_track. rewrite <- gt_spec.
  destruct (gt (avg_yoy_change r) med); split; congruence.
Qed.

Lemma on_track_binary (med : option Q) (r : Merged.row) :
  on_track med r = 0%Z \/ on_track med r = 1%Z.
Proof. unfold on_track. destruct (gt _ _); auto. Qed.

Lemma assign_map (features : list Merged.row) (f g h : Merged.row -> Z) :
  assign features (map f features) (map g features) (map h features)
  = map (fun r => {| Feat.base := r; Feat.on_track_2030 := f r;
                     Feat.region_encoded := g r; Feat.income_encoded := h r |})
        features.
Proof.
  unfold assign. induction features as [| r t IH]; simpl; [reflexivity |].
  f_equal. exact IH.
Qed.

Lemma encode_categorical (le : Sklearn.LabelEncoder) (f : Merged.row -> option string)
  (l : list Merged.row) :
  map (Sklearn.encode le) (categorical (map f l))
  = map (fun r => Sklearn.encode le (fillna_with "Unknown"%string (f r))) l.
Proof. unfold categorical. rewrite !map_map. reflexivity. Qed.

(** The rows [engineer_features] returns: the filled frame, each row with
    its label and its two codes. *)
Lemma engineer_features_rows (np : Floats) (df : list Obs.row) :
  let filled := fill_missing np (merged_features np df) in
  let le_region := Sklearn.fit (categorical (map region filled)) in
  let le_income := Sklearn.fit (categorical (map income_level filled)) in
  engineer_features np df
  = Returned
      (map (fun r =>
              {| Feat.base := r;
                 Feat.on_track_2030 := on_track (median_change np filled) r;
                 Feat.region_encoded :=
                   Sklearn.encode le_region (fillna_with "Unknown"%string (region r));
                 Feat.income_encoded :=
                   Sklearn.encode le_income (fillna_with "Unknown"%string (income_level r)) |})
           filled,
       le_region, le_income).
Proof.
  intros filled le_region le_income.
  unfold engineer_features. fold filled.
  unfold Sklearn.fit_transform, create_target. cbn [fst snd].
  rewrite !encode_categorical. rewrite assign_map. reflexivity.
Qed.

Lemma engineer_features_base (np : Floats) (df : list Obs.row)
  (features : list Feat.row) (le_region le_income : Sklearn.LabelEncoder) :
  engineer_features np df = Returned (features, le_region, le_income) ->
  map Feat.base features = fill_missing np (merged_features np df)
  /\ forall r, In r features ->
       Feat.on_track_2030 r
       = on_track (median_change np (map Feat.base features)) (Feat.base r).
Proof.
  rewrite engineer_features_rows. intros Eq. injection Eq as Ef _ _.
  assert (B : map Feat.base features = fill_missing np (merged_features np df)).
  { subst features. rewrite map_map. simpl. apply map_id. }
  split; [exact B |].
  intros r I. rewrite B. subst features.
  apply in_map_iff in I. destruct I as [m [Er _]]. subst r. reflexivity.
Qed.

(** ** The median *)

Lemma sort_Q_sorted (v : list Q) : StronglySorted Qle (sort_values (fun x : Q => x) v).
Proof.
  pose proof (sort_values_sorted (fun x : Q => x) v) as S.
  induction S as [| x t St IH Fx]; constructor; [exact IH |].
  eapply Forall_impl; [| exact Fx].
  intros y Ly. apply leb_key_Qle. exact Ly.
Qed.

Lemma sort_Q_length (v : list Q) : length (sort_values (fun x : Q => x) v) = length v.
Proof. apply Permutation_length. apply sort_values_perm. Qed.

Lemma sorted_nth_le (s : list Q) :
  StronglySorted Qle s ->
  forall i j, (i <= j)%nat -> (j < length s)%nat -> nth i s 0 <= nth j s 0.
Proof.
  induction 1 as [| x t St IH Fx]; intros i j Hij Hj; simpl in Hj; [lia |].
  destruct i as [| i], j as [| j]; simpl; try lia.
  - apply Qle_refl.
  - rewrite Forall_forall in Fx. apply Fx. apply nth_In. lia.
  - apply IH; lia.
Qed.

(** The values strictly above a bound [m]. *)
Lemma above_sorted (m : Q) (s : list Q) :
  StronglySorted Qle s ->
  forall i, (i < length s)%nat -> nth i s 0 <= m ->
  (length (filter (fun x => negb (Qle_bool x m)) s) <= length s - S i)%nat.
Proof.
  induction 1 as [| x t St IH Fx]; intros i Hi Hm; simpl in Hi; [lia |].
  assert (Hx : Qle_bool x m = true).
  { apply Qle_bool_iff. apply Qle_trans with (nth i (x :: t) 0); [| exact Hm].
    apply (sorted_nth_le (x :: t) (SSorted_cons x St Fx) 0 i); simpl; lia. }
  simpl filter. rewrite Hx. simpl negb. cbv iota.
  destruct i as [| i]; simpl.
  - pose proof (filter_length_le (fun x => negb (Qle_bool x m)) t). lia.
  - simpl in Hm. assert (Hi' : (i < length t)%nat) by lia.
    specialize (IH i Hi' Hm). lia.
Qed.

Lemma median_unfold (np : Floats) (c : list (option Q)) :
  let s := sort_values (fun x : Q => x) (dropna c) in
  median np c
  = if Nat.eqb (length s) 0 then None
    else if Nat.even (length s)
         then Some (fmid np (nth (length s / 2 - 1) s 0) (nth (length s / 2) s 0))
         else Some (nth (length s / 2) s 0).
Proof.
  intros s. unfold median. fold s.
  destruct (length s) as [| n]; reflexivity.
Qed.

Lemma even_half (n : nat) :
  Nat.even n = true -> n <> 0%nat ->
  (n / 2 - 1 < n / 2)%nat /\ (n / 2 < n)%nat /\ (n - S (n / 2 - 1) = n / 2)%nat.
Proof.
  intros Ev Nz. apply Nat.even_spec in Ev. destruct Ev as [k Ek].
  assert (Hk : (n / 2 = k)%nat).
  { rewrite Ek. rewrite Nat.mul_comm. apply Nat.div_mul. lia. }
  rewrite Hk. lia.
Qed.

Lemma odd_half (n : nat) :
  Nat.even n = false -> (n / 2 < n)%nat /\ (n - S (n / 2) = n / 2)%nat.
Proof.
  intros Ev.
  assert (Od : Nat.odd n = true) by (unfold Nat.odd; rewrite Ev; reflexivity).
  apply Nat.odd_spec in Od. destruct Od as [k Ek].
  assert (Hk : (n / 2 = k)%nat).
  { rewrite Ek. rewrite Nat.add_comm, Nat.mul_comm. rewrite Nat.div_add by lia.
    reflexivity. }
  rewrite Hk. lia.
Qed.

(** The median sits at or above the value of rank [n - n/2 - 1] of the
    sorted column: at most [n/2] values lie strictly above it. *)
Lemma median_rank (np : Floats) (c : list (option Q)) (m : Q) :
  median np c = Some m ->
  let s := sort_values (fun x : Q => x) (dropna c) in
  exists i, (i < length s)%nat /\ nth i s 0 <= m
            /\ (length s - S i = length s / 2)%nat.
Proof.
  intros Em s. rewrite median_unfold in Em. fold s in Em.
  pose proof (sort_Q_sorted (dropna c)) as Srt. fold s in Srt.
  destruct (Nat.eqb (length s) 0) eqn:En; [discriminate |].
  apply Nat.eqb_neq in En.
  destruct (Nat.even (length s)) eqn:Ev.
  - destruct (even_half _ Ev En) as [H1 [H2 H3]].
    set (h := (length s / 2)%nat) in *.
    injection Em as Em. subst m.
    exists (h - 1)%nat.
    split; [lia |]. split; [| exact H3].
    apply (fmid_between np). apply sorted_nth_le; [exact Srt | lia | lia].
  - destruct (odd_half _ Ev) as [H2 H3].
    set (h := (length s / 2)%nat) in *.
    injection Em as Em. subst m.
    exists h.
    split; [lia |]. split; [apply Qle_refl | exact H3].
Qed.

Lemma filter_gt_dropna (m : Q) (c : list (option Q)) :
  length (filter (fun a => gt a (Some m)) c)
  = length (filter (fun x => negb (Qle_bool x m)) (dropna c)).
Proof.
  induction c as [| [x |] t IH]; simpl; [reflexivity | | exact IH].
  destruct (negb (Qle_bool x m)); simpl; rewrite IH; reflexivity.
Qed.

Lemma dropna_length {A : Type} (c : list (option A)) :
  (length (dropna c) <= length c)%nat.
Proof. induction c as [| [x |] t IH]; simpl; lia. Qed.

(** At most half of a column lies strictly above its median. *)
Lemma above_median_half (np : Floats) (c : list (option Q)) :
  (length (filter (fun a => gt a (median np c)) c) <= length c / 2)%nat.
Proof.
  destruct (median np c) as [m |] eqn:Em.
  - rewrite filter_gt_dropna.
    destruct (median_rank np c m Em) as [i [Hi [Hm Hh]]].
    pose proof (above_sorted m _ (sort_Q_sorted (dropna c)) i Hi Hm) as B.
    rewrite filter_sort_values in B. rewrite !sort_Q_length in B.
    rewrite !sort_Q_length in Hh.
    apply Nat.le_trans with (length (dropna c) / 2)%nat; [lia |].
    apply Nat.Div0.div_le_mono. apply dropna_length.
  - assert (Z : filter (fun a => gt a None) c = []).
    { clear. induction c as [| [x |] t IH]; simpl; auto. }
    rewrite Z. simpl. lia.
Qed.

Lemma count_on_track (med : option Q) (features : list Merged.row) :
  count_occ Z.eq_dec (map (on_track med) features) 1%Z
  = length (filter (fun a => gt a med) (column avg_yoy_change features)).
Proof.
  unfold column, on_track.
  induction features as [| r t IH]; simpl; [reflexivity |].
  destruct (gt (avg_yoy_change r) med); simpl; rewrite IH; reflexivity.
Qed.

(** The median of a column whose values are all equal is that value. *)
Lemma median_constant (np : Floats) (c : list (option Q)) (a m : Q) :
  (forall x, In (Some x) c -> x == a) -> median np c = Some m -> m == a.
Proof.
  intros All Em. rewrite median_unfold in Em.
  set (s := sort_values (fun x : Q => x) (dropna c)) in *.
  assert (Hs : forall i, (i < length s)%nat -> nth i s 0 == a).
  { intros i Hi. apply All. apply dropna_In.
    apply Permutation_in with s; [apply sort_values_perm |].
    apply nth_In. exact Hi. }
  destruct (Nat.eqb (length s) 0) eqn:En; [discriminate |].
  apply Nat.eqb_neq in En.
  assert (Hh : (length s / 2 < length s)%nat) by (apply Nat.div_lt; lia).
  set (h := (length s / 2)%nat) in *.
  destruct (Nat.even (length s)); injection Em as Em; rewrite <- Em.
  - assert (E1 : nth (h - 1) s 0 == a) by (apply Hs; lia).
    assert (E2 : nth h s 0 == a) by (apply Hs; lia).
    assert (Le : nth (h - 1) s 0 <= nth h s 0) by (rewrite E1, E2; apply Qle_refl).
    destruct (fmid_between np _ _ Le) as [Lo Hi].
    set (m' := fmid np _ _) in *. clearbody m'. lra.
  - apply Hs. exact Hh.
Qed.

Lemma on_track_zero_tie (med : option Q) (r : Merged.row) (x m : Q) :
  avg_yoy_change r = Some x -> med = Some m -> x == m -> on_track med r = 0%Z.
Proof.
  intros Ex Em Eq. unfold on_track, gt. rewrite Ex, Em.
  assert (B : Qle_bool x m = true).
  { apply Qle_bool_iff. rewrite Eq. apply Qle_refl. }
  rewrite B. reflexivity.
Qed.

(** ** The median by counting *)

Lemma filter_none {A : Type} (f : A -> bool) (l : list A) :
  (forall x, In x l -> f x = false) -> filter f l = [].
Proof.
  induction l as [| y t IH]; intros H; simpl; [reflexivity |].
  rewrite (H y (or_introl eq_refl)). apply IH.
  intros x I. apply H. right. exact I.
Qed.

Lemma filter_length_mono {A : Type} (f g : A -> bool) (l : list A) :
  (forall x, In x l -> f x = true -> g x = true) ->
  (length (filter f l) <= length (filter g l))%nat.
Proof.
  induction l as [| y t IH]; intros H; simpl; [lia |].
  assert (IHt : (length (filter f t) <= length (filter g t))%nat).
  { apply IH. intros x I. apply H. right. exact I. }
  destruct (f y) eqn:Fy.
  - rewrite (H y (or_introl eq_refl) Fy). simpl. lia.
  - destruct (g y); simpl; lia.
Qed.

(** The values strictly below a bound [m]. *)
Lemma below_sorted (m : Q) (s : list Q) :
  StronglySorted Qle s ->
  forall i, (i < length s)%nat -> m <= nth i s 0 ->
  (length (filter (fun y => negb (Qle_bool m y)) s) <= i)%nat.
Proof.
  induction 1 as [| x t St IH Fx]; intros i Hi Hm; simpl in Hi; [lia |].
  destruct i as [| i].
  - simpl in Hm. rewrite filter_none; [simpl; lia |].
    intros y Iy.
    assert (Ly : m <= y).
    { destruct Iy as [<- | Iy]; [exact Hm |].
      rewrite Forall_forall in Fx. apply Qle_trans with x; [exact Hm | apply Fx, Iy]. }
    apply Qle_bool_iff in Ly. rewrite Ly. reflexivity.
  - simpl in Hm. assert (Hi' : (i < length t)%nat) by lia.
    specialize (IH i Hi' Hm). simpl filter.
    destruct (negb (Qle_bool m x)); simpl; lia.
Qed.

Lemma count_sort (f : Q -> bool) (v : list Q) :
  length (filter f (sort_values (fun x : Q => x) v)) = length (filter f v).
Proof. rewrite filter_sort_values. apply sort_Q_length. Qed.

(** The value at position [k] of the sorted values has rank [k]. *)
Lemma has_rank_sorted (v : list Q) (k : nat) :
  (k < length v)%nat -> has_rank v k (nth k (sort_values (fun x : Q => x) v) 0).
Proof.
  intros Hk. set (s := sort_values (fun x : Q => x) v).
  assert (Hs : (k < length s)%nat) by (unfold s; rewrite sort_Q_length; exact Hk).
  pose proof (sort_Q_sorted v) as Srt. fold s in Srt.
  split.
  - apply Permutation_in with s; [apply sort_values_perm | apply nth_In; exact Hs].
  - unfold count_below, count_at_most.
    rewrite <- (count_sort _ v), <- (count_sort (fun y => Qle_bool y (nth k s 0)) v).
    fold s. split.
    + apply below_sorted; [exact Srt | exact Hs | apply Qle_refl].
    + pose proof (above_sorted (nth k s 0) s Srt k Hs (Qle_refl _)) as A.
      pose proof (filter_length (fun y => Qle_bool y (nth k s 0)) s) as P.
      lia.
Qed.

(** Two values of the same rank are the same number. *)
Lemma has_rank_unique (v : list Q) (k : nat) (x y : Q) :
  has_rank v k x -> has_rank v k y -> x == y.
Proof.
  assert (G : forall a b, has_rank v k a -> has_rank v k b -> ~ a < b).
  { intros a b [_ [_ Ha]] [_ [Hb _]] Lt.
    assert (M : (count_at_most v a <= count_below v b)%nat).
    { apply filter_length_mono. intros z _ Hz.
      apply Qle_bool_iff in Hz.
      destruct (Qle_bool b z) eqn:B; [| reflexivity].
      apply Qle_bool_iff in B. exfalso.
      apply (Qlt_irrefl a). apply Qlt_le_trans with b; [exact Lt |].
      apply Qle_trans with z; assumption. }
    lia. }
  intros Hx Hy. apply Qle_antisym; apply Qnot_lt_le.
  - exact (G y x Hy Hx).
  - exact (G x y Hx Hy).
Qed.

Lemma batch_median_nonempty (np : Floats) (v : list Q) (m : Q) :
  batch_median np v m -> v <> [].
Proof.
  unfold batch_median. intros H E. subst v. simpl in H.
  destruct H as [lo [hi [[[] _] _]]].
Qed.

(** The medians of a batch are one number. *)
Lemma batch_median_unique (np : Floats) (v : list Q) (m m' : Q) :
  batch_median np v m -> batch_median np v m' -> m == m'.
Proof.
  unfold batch_median. destruct (Nat.even (length v)).
  - intros [lo [hi [Hl [Hh ->]]]] [lo' [hi' [Hl' [Hh' ->]]]].
    apply (fmid_proper np); eapply has_rank_unique; eassumption.
  - apply has_rank_unique.
Qed.

(** What [median] returns is the median of the values that are present. *)
Lemma median_batch_median (np : Floats) (c : list (option Q)) (m : Q) :
  median np c = Some m -> batch_median np (dropna c) m.
Proof.
  intros Em. rewrite median_unfold in Em. cbn zeta in Em.
  rewrite sort_Q_length in Em. unfold batch_median.
  destruct (Nat.eqb (length (dropna c)) 0) eqn:En; [discriminate |].
  apply Nat.eqb_neq in En.
  destruct (Nat.even (length (dropna c))) eqn:Ev.
  - destruct (even_half _ Ev En) as [H1 [H2 _]].
    injection Em as Em.
    exists (nth (length (dropna c) / 2 - 1) (sort_values (fun x : Q => x) (dropna c)) 0),
           (nth (length (dropna c) / 2) (sort_values (fun x : Q => x) (dropna c)) 0).
    split; [apply has_rank_sorted; lia |].
    split; [apply has_rank_sorted; exact H2 |].
    symmetry. exact Em.
  - destruct (odd_half _ Ev) as [H2 _].
    injection Em as Em. rewrite <- Em. apply has_rank_sorted. exact H2.
Qed.

Lemma median_present (np : Floats) (c : list (option Q)) :
  dropna c <> [] -> exists m, median np c = Some m.
Proof.
  intros Ne. rewrite median_unfold. cbn zeta. rewrite sort_Q_length.
  destruct (Nat.eqb (length (dropna c)) 0) eqn:En.
  - apply Nat.eqb_eq in En. destruct (dropna c); [contradiction Ne; reflexivity |].
    discriminate En.
  - destruct (Nat.even (length (dropna c))); eexists; reflexivity.
Qed.

(** A record is labelled 1 exactly when its change is strictly above the
    median of the changes of the frame. *)
Lemma on_track_above_median (np : Floats) (features : list Merged.row) (r : Merged.row) :
  on_track (median_change np features) r = 1%Z
  <-> exists x m, avg_yoy_change r = Some x
                  /\ batch_median np (changes features) m /\ m < x.
Proof.
  rewrite on_track_one. unfold median_change, changes. split.
  - intros [x [m [Ex [Em Lt]]]]. exists x, m.
    split; [exact Ex |]. split; [apply median_batch_median; exact Em | exact Lt].
  - intros [x [m' [Ex [Bm Lt]]]].
    destruct (median_present np (column avg_yoy_change features)
                (batch_median_nonempty np _ m' Bm)) as [m Em].
    exists x, m. split; [exact Ex |]. split; [exact Em |].
    rewrite (batch_median_unique np _ m m' (median_batch_median np _ m Em) Bm).
    exact Lt.
Qed.

(** C3: the threshold of the labels is the median of the changes of the
    batch, the middle value of the changes or the mean of the two middle
    ones; a batch with a change has one, and one only.  The label of a
    record is 1 exactly when its change is strictly above that median, and 0
    otherwise; when every change of the batch equals the median, every label
    is 0; and [engineer_features] labels its rows by this rule. *)
Theorem C3_label_strictly_above_median :
  (forall np (features : list Merged.row),
     (changes features <> [] ->
      exists m, median_change np features = Some m
                /\ batch_median np (changes features) m)
     /\ (forall m m',
           batch_median np (changes features) m ->
           batch_median np (changes features) m' -> m == m')
     /\ length (create_target np features) = length features
     /\ (forall i r,
           nth_error features i = Some r ->
           exists t,
             nth_error (create_target np features) i = Some t
             /\ (t = 0%Z \/ t = 1%Z)
             /\ (t = 1%Z
                 <-> exists x m, avg_yoy_change r = Some x
                                 /\ batch_median np (changes features) m /\ m < x))
     /\ (forall m,
           batch_median np (changes features) m ->
           (forall r, In r features ->
                      exists x, avg_yoy_change r = Some x /\ x == m) ->
           Forall (fun t => t = 0%Z) (create_target np features))
     /\ (forall a,
           (forall r, In r features ->
                      exists x, avg_yoy_change r = Some x /\ x == a) ->
           Forall (fun t => t = 0%Z) (create_target np features)))
  /\ (forall np df features le_region le_income,
        engineer_features np df = Returned (features, le_region, le_income) ->
        forall r, In r features ->
          (Feat.on_track_2030 r = 0%Z \/ Feat.on_track_2030 r = 1%Z)
          /\ (Feat.on_track_2030 r = 1%Z
              <-> exists x m,
                    avg_yoy_change (Feat.base r) = Some x
                    /\ batch_median np (changes (map Feat.base features)) m
                    /\ m < x)).
Proof.
  split.
  - intros np features.
    assert (Ties : forall a,
               (forall r, In r features ->
                          exists x, avg_yoy_change r = Some x /\ x == a) ->
               Forall (fun t => t = 0%Z) (create_target np features)).
    { intros a All. unfold create_target. apply Forall_forall.
      intros t It. apply in_map_iff in It. destruct It as [r [Et Ir]]. subst t.
      destruct (All r Ir) as [x [Ex Eq]].
      destruct (median_change np features) as [m |] eqn:Em.
      - apply (on_track_zero_tie _ r x m Ex eq_refl).
        rewrite Eq. symmetry.
        apply (median_constant np (column avg_yoy_change features) a m); [| exact Em].
        intros y Iy. unfold column in Iy. apply in_map_iff in Iy.
        destruct Iy as [r' [Ey Ir']].
        destruct (All r' Ir') as [x' [Ex' Eq']]. congruence.
      - unfold on_track, gt. rewrite Ex. reflexivity. }
    split.
    { intros Ne. destruct (median_present np _ Ne) as [m Em].
      exists m. split; [exact Em | apply median_batch_median; exact Em]. }
    split; [intros m m'; apply batch_median_unique |].
    split; [unfold create_target; apply length_map |].
    split.
    { intros i r Ei. exists (on_track (median_change np features) r).
      split; [unfold create_target; apply map_nth_error; exact Ei |].
      split; [apply on_track_binary | apply on_track_above_median]. }
    split; [| exact Ties].
    intros m _ All. exact (Ties m All).
  - intros np df features le_region le_income Eq r Ir.
    destruct (engineer_features_base np df features le_region le_income Eq)
      as [_ Lab].
    rewrite (Lab r Ir).
    split; [apply on_track_binary | apply on_track_above_median].
Qed.

(** C3 on the batch of four countries with changes 1, 2, 3 and 4: the
    median is 5/2, and the two records above it are labelled 1. *)
Lemma C3_label_strictly_above_median_witness :
  exists features le_region le_income,
    engineer_features exact_floats trend_batch
    = Returned (features, le_region, le_income)
    /\ batch_median exact_floats (changes (map Feat.base features)) (5 # 2)
    /\ map Feat.on_track_2030 features = [0; 0; 1; 1]%Z
    /\ forall r, In r features ->
         (Feat.on_track_2030 r = 1%Z
          <-> exists x m,
                avg_yoy_change (Feat.base r) = Some x
                /\ batch_median exact_floats (changes (map Feat.base features)) m
                /\ m < x).
Proof.
  destruct (engineer_features exact_floats trend_batch)
    as [[[features le_region] le_income] | e] eqn:Eq;
    [| vm_compute in Eq; discriminate Eq].
  exists features, le_region, le_income.
  split; [reflexivity |].
  split; [| split].
  - destruct (proj1 (proj1 C3_label_strictly_above_median exact_floats
                       (map Feat.base features))) as [m [Em Bm]].
    + vm_compute in Eq. injection Eq as Ef _ _. subst features.
      vm_compute. discriminate.
    + vm_compute in Eq. injection Eq as Ef _ _. subst features.
      vm_compute in Em. injection Em as Em. rewrite Em. exact Bm.
  - vm_compute in Eq. injection Eq as Ef _ _. subst features. reflexivity.
  - intros r Ir.
    exact (proj2 (proj2 C3_label_strictly_above_median exact_floats trend_batch
                    features le_region le_income Eq r Ir)).
Defined.

Lemma engineer_features_target (np : Floats) (df : list Obs.row)
  (features : list Feat.row) (le_region le_income : Sklearn.LabelEncoder) :
  engineer_features np df = Returned (features, le_region, le_income) ->
  map Feat.on_track_2030 features = create_target np (map Feat.base features).
Proof.
  intros Eq.
  destruct (engineer_features_base np df features le_region le_income Eq)
    as [_ Lab].
  unfold create_target. rewrite map_map. apply map_ext_in. exact Lab.
Qed.

(** C10: in every batch at most half of the records, rounded down, get the
    label 1, whatever the values; so also among the rows that
    [engineer_features] returns. *)
Theorem C10_positive_labels_at_most_half :
  (forall np (features : list Merged.row),
     (count_occ Z.eq_dec (create_target np features) 1%Z <= length features / 2)%nat)
  /\ (forall np df features le_region le_income,
        engineer_features np df = Returned (features, le_region, le_income) ->
        (count_occ Z.eq_dec (map Feat.on_track_2030 features) 1%Z
         <= length features / 2)%nat).
Proof.
  assert (G : forall np (features : list Merged.row),
             (count_occ Z.eq_dec (create_target np features) 1%Z
              <= length features / 2)%nat).
  { intros np features. unfold create_target. rewrite count_on_track.
    pose proof (above_median_half np (column avg_yoy_change features)) as B.
    unfold median_change. unfold column in *. rewrite length_map in B. exact B. }
  split; [exact G |].
  intros np df features le_region le_income Eq.
  rewrite (engineer_features_target np df features le_region le_income Eq).
  specialize (G np (map Feat.base features)). rewrite length_map in G. exact G.
Qed.

(** C10 on a batch of four records: two of them are above the median. *)
Lemma C10_positive_labels_at_most_half_witness :
  exists features le_region le_income,
    engineer_features exact_floats trend_batch = Returned (features, le_region, le_income)
    /\ map Feat.on_track_2030 features = [0; 0; 1; 1]%Z
    /\ (count_occ Z.eq_dec (map Feat.on_track_2030 features) 1%Z
        <= length features / 2)%nat.
Proof.
  destruct (engineer_features exact_floats trend_batch)
    as [[[features le_region] le_income] | e] eqn:Eq.
  - exists features, le_region, le_income.
    split; [reflexivity |].
    split.
    + vm_compute in Eq. injection Eq as Ef _ _. subst features. reflexivity.
    + exact (proj2 C10_positive_labels_at_most_half _ _ _ _ _ Eq).
  - vm_compute in Eq. discriminate Eq.
Defined.

(** ** The merged frame, key by key *)

Lemma dropna_key_perm {A K : Type} (key : A -> option K) (l l' : list A) :
  Permutation l l' ->
  forall k, In k (dropna (map key l)) <-> In k (dropna (map key l')).
Proof.
  intros P k. rewrite !dropna_In, !in_map_iff.
  split; intros [r [Er Ir]]; exists r; split; try exact Er.
  - exact (Permutation_in r P Ir).
  - exact (Permutation_in r (Permutation_sym P) Ir).
Qed.

(** Grouping a sorted frame: one group per key that occurs, holding the
    rows of that key, sorted. *)
Lemma groupby_sort_values {A K K' : Type}
  {CK : Compare K} {LK : CompareLaws K} {EK : CompareEq K}
  {CK' : Compare K'} {LK' : CompareLaws K'}
  (key : A -> option K) (by_ : A -> K') (df : list A) :
  groupby key (sort_values by_ df)
  = map (fun k => (k, sort_values by_ (filter (fun r => in_group k (key r)) df)))
        (unique (dropna (map key df))).
Proof.
  unfold groupby.
  rewrite (unique_ext _ (dropna (map key df)))
    by (apply dropna_key_perm; apply sort_values_perm).
  apply map_ext. intros k. rewrite filter_sort_values. reflexivity.
Qed.

Lemma progress_features_by_key (np : Floats) (df : list Obs.row) :
  progress_features np (sort_values country_goal_year df)
  = map (fun k => agg_progress np
                    (k, sort_values country_goal_year (observations_of k df)))
        (unique (dropna (map country_goal df))).
Proof.
  unfold progress_features. rewrite groupby_sort_values, map_map. reflexivity.
Qed.

Lemma latest_attrs_by_country (df : list Obs.row) :
  latest_attrs (sort_values country_goal_year df)
  = map (fun c => last_attrs
                    (c, sort_values Obs.year
                          (sort_values country_goal_year
                             (observations_of_country c df))))
        (unique (dropna (map Obs.country_code df))).
Proof.
  unfold latest_attrs. rewrite groupby_sort_values, map_map.
  rewrite (unique_ext _ (dropna (map Obs.country_code df)))
    by (apply dropna_key_perm; apply sort_values_perm).
  apply map_ext. intros c. rewrite filter_sort_values. reflexivity.
Qed.

Lemma flat_map_singleton {A B : Type} (g : A -> list B) (h : A -> B) (l : list A) :
  (forall x, In x l -> g x = [h x]) -> flat_map g l = map h l.
Proof.
  induction l as [| x t IH]; intros Hg; simpl; [reflexivity |].
  rewrite (Hg x (or_introl eq_refl)).
  rewrite IH by (intros y Iy; apply Hg; right; exact Iy).
  reflexivity.
Qed.

(** A left join on a right frame with one row per key adds the columns of
    that row. *)
Lemma merge_left_unique_right (left : list Prog.row) (cs : list string)
  (f : string -> Attr.row) :
  NoDup cs ->
  (forall c, Attr.country_code (f c) = c) ->
  (forall p, In p left -> In (Prog.country_code p) cs) ->
  merge_left left (map f cs)
  = map (fun p => {| Merged.prog := p;
                     Merged.attrs := Attr.attrs (f (Prog.country_code p)) |})
        left.
Proof.
  intros N Hf Hl. unfold merge_left.
  apply flat_map_singleton. intros p Ip.
  rewrite filter_map_swap.
  rewrite (filter_ext _ (eqb_key (Prog.country_code p)))
    by (intros c; rewrite Hf; reflexivity).
  rewrite (filter_eqb_NoDup _ _ N (Hl p Ip)).
  reflexivity.
Qed.

Lemma country_goal_Some (o : Obs.row) (c g : string) :
  country_goal o = Some (c, g)
  <-> Obs.country_code o = Some c /\ Obs.goal_code o = Some g.
Proof.
  unfold country_goal.
  destruct (Obs.country_code o) as [c' |], (Obs.goal_code o) as [g' |];
    split; try discriminate; try (intros [? ?]; discriminate).
  - intros Eq. injection Eq as -> ->. auto.
  - intros [Ec Eg]. congruence.
Qed.

(** The merged frame has one record per key that occurs in the batch:
    [group_row] of that key, in ascending key order. *)
Lemma merged_features_by_key (np : Floats) (df : list Obs.row) :
  merged_features np df
  = map (group_row np df) (unique (dropna (map country_goal df))).
Proof.
  unfold merged_features.
  rewrite progress_features_by_key, latest_attrs_by_country.
  rewrite merge_left_unique_right.
  - rewrite map_map. reflexivity.
  - apply unique_NoDup.
  - reflexivity.
  - intros p Ip. apply in_map_iff in Ip. destruct Ip as [[c g] [Ep Ik]]. subst p.
    simpl. rewrite unique_In, dropna_In, in_map_iff in Ik.
    destruct Ik as [o [Eo Io]].
    apply country_goal_Some in Eo. destruct Eo as [Ec _].
    apply unique_In. apply dropna_In. apply in_map_iff.
    exists o. split; assumption.
Qed.

(** ** The feature records, key by key *)

Lemma eqb_key_sym {K : Type} {C : Compare K} {L : CompareLaws K} (x y : K) :
  eqb_key x y = eqb_key y x.
Proof.
  unfold eqb_key. rewrite (compare_antisym x y).
  destruct (compare_key x y); reflexivity.
Qed.

Lemma observations_of_In (k : string * string) (df : list Obs.row) (o : Obs.row) :
  In o (observations_of k df) <-> In o df /\ country_goal o = Some k.
Proof. unfold observations_of. rewrite filter_In, in_group_true. tauto. Qed.

(** The keys of the frame are the keys under which the batch has an
    observation. *)
Lemma key_occurs (k : string * string) (df : list Obs.row) :
  In k (unique (dropna (map country_goal df))) <-> observations_of k df <> [].
Proof.
  rewrite unique_In, dropna_In, in_map_iff. split.
  - intros [o [Eo Io]] Em.
    assert (I : In o (observations_of k df)) by (apply observations_of_In; auto).
    rewrite Em in I. destruct I.
  - intros Ne. destruct (observations_of k df) as [| o t] eqn:Eo; [congruence |].
    assert (I : In o (observations_of k df)) by (rewrite Eo; left; reflexivity).
    apply observations_of_In in I. exists o. tauto.
Qed.

Lemma merged_key_fill_row (gdp pop life lit : option Q) (r : Merged.row) :
  merged_key (fill_row gdp pop life lit r) = merged_key r.
Proof. reflexivity. Qed.

Lemma merged_key_group_row (np : Floats) (df : list Obs.row) (k : string * string) :
  merged_key (group_row np df k) = k.
Proof. destruct k; reflexivity. Qed.

(** What [engineer_features] returns holds, for every key that occurs, exactly
    one record: the filled [group_row] of that key. *)
Lemma feature_of_key (np : Floats) (df : list Obs.row)
  (features : list Feat.row) (le_region le_income : Sklearn.LabelEncoder)
  (k : string * string) :
  engineer_features np df = Returned (features, le_region, le_income) ->
  observations_of k df <> [] ->
  exists r gdp pop life lit,
    filter (fun r => eqb_key (feature_key r) k) features = [r]
    /\ Feat.base r = fill_row gdp pop life lit (group_row np df k).
Proof.
  intros Eq Ne.
  destruct (engineer_features_base np df features le_region le_income Eq)
    as [B _].
  unfold fill_missing in B. rewrite merged_features_by_key in B.
  set (ukeys := unique (dropna (map country_goal df))) in *.
  set (gdp := median _ _) in B. set (pop := median _ _) in B.
  set (life := median _ _) in B. set (lit := median _ _) in B.
  rewrite map_map in B.
  assert (F : map Feat.base (filter (fun r => eqb_key (feature_key r) k) features)
              = [fill_row gdp pop life lit (group_row np df k)]).
  { change (fun r => eqb_key (feature_key r) k)
      with (fun r => (fun m => eqb_key (merged_key m) k) (Feat.base r)).
    rewrite <- filter_map_swap. rewrite B. rewrite filter_map_swap.
    rewrite (filter_ext _ (eqb_key k)).
    - rewrite filter_eqb_NoDup; [reflexivity | apply unique_NoDup |].
      apply key_occurs. exact Ne.
    - intros k'. rewrite merged_key_fill_row, merged_key_group_row.
      apply eqb_key_sym. }
  destruct (filter (fun r => eqb_key (feature_key r) k) features) as [| r [| r' t]];
    try discriminate.
  injection F as F. exists r, gdp, pop, life, lit. split; [reflexivity | exact F].
Qed.

(** Conversely every record returned is the filled [group_row] of a key that
    occurs in the batch. *)
Lemma feature_has_key (np : Floats) (df : list Obs.row)
  (features : list Feat.row) (le_region le_income : Sklearn.LabelEncoder)
  (r : Feat.row) :
  engineer_features np df = Returned (features, le_region, le_income) ->
  In r features ->
  exists gdp pop life lit,
    observations_of (feature_key r) df <> []
    /\ Feat.base r = fill_row gdp pop life lit (group_row np df (feature_key r)).
Proof.
  intros Eq Ir.
  destruct (engineer_features_base np df features le_region le_income Eq)
    as [B _].
  unfold fill_missing in B. rewrite merged_features_by_key in B.
  set (gdp := median _ _) in B. set (pop := median _ _) in B.
  set (life := median _ _) in B. set (lit := median _ _) in B.
  rewrite map_map in B.
  assert (Ib : In (Feat.base r) (map Feat.base features)) by (apply in_map; exact Ir).
  rewrite B in Ib. apply in_map_iff in Ib. destruct Ib as [k [Ek Ik]].
  exists gdp, pop, life, lit.
  assert (Hk : feature_key r = k).
  { unfold feature_key. rewrite <- Ek.
    rewrite merged_key_fill_row. apply merged_key_group_row. }
  rewrite Hk. split; [apply key_occurs; exact Ik | symmetry; exact Ek].
Qed.

Lemma group_row_data_points (np : Floats) (df : list Obs.row) (k : string * string) :
  Prog.data_points (Merged.prog (group_row np df k))
  = Z.of_nat (length (observations_of k df)).
Proof.
  unfold group_row, agg_progress, agg_count. cbn [Merged.prog Prog.data_points snd].
  rewrite (dropna_map_Some Obs.year). rewrite length_map.
  rewrite (Permutation_length (sort_values_perm country_goal_year _)).
  reflexivity.
Qed.

(** C9: for every key under which the batch has an observation,
    [engineer_features] returns exactly one record of that key, and its
    [data_points] is the number of observations of the batch under the key. *)
Theorem C9_one_record_per_key_with_count :
  forall np df features le_region le_income c g,
    engineer_features np df = Returned (features, le_region, le_income) ->
    observations_of (c, g) df <> [] ->
    exists r,
      filter (fun r => eqb_key (feature_key r) (c, g)) features = [r]
      /\ feature_key r = (c, g)
      /\ Prog.data_points (Merged.prog (Feat.base r))
         = Z.of_nat (length (observations_of (c, g) df)).
Proof.
  intros np df features le_region le_income c g Eq Ne.
  destruct (feature_of_key np df features le_region le_income (c, g) Eq Ne)
    as [r [gdp [pop [life [lit [Fr Br]]]]]].
  exists r. split; [exact Fr |]. split.
  - unfold feature_key. rewrite Br. reflexivity.
  - rewrite Br. cbn [fill_row Merged.prog fill_trend Prog.data_points].
    apply group_row_data_points.
Qed.

(** C9 on a batch with a key observed twice. *)
Lemma C9_one_record_per_key_with_count_witness :
  exists features le_region le_income r,
    engineer_features exact_floats mixed_batch = Returned (features, le_region, le_income)
    /\ filter (fun r => eqb_key (feature_key r) ("JPN", "1")%string) features = [r]
    /\ Prog.data_points (Merged.prog (Feat.base r)) = 2%Z.
Proof.
  destruct (engineer_features exact_floats mixed_batch)
    as [[[features le_region] le_income] | e] eqn:Eq.
  - assert (Ne : observations_of ("JPN", "1")%string mixed_batch <> [])
      by (vm_compute; discriminate).
    destruct (C9_one_record_per_key_with_count
                exact_floats mixed_batch features le_region le_income
                "JPN"%string "1"%string Eq Ne) as [r [Fr [_ Dr]]].
    exists features, le_region, le_income, r.
    split; [reflexivity |]. split; [exact Fr | exact Dr].
  - vm_compute in Eq. discriminate Eq.
Defined.

(** ** A key with a single observation *)

Lemma group_row_single (np : Floats) (df : list Obs.row) (k : string * string)
  (o : Obs.row) :
  observations_of k df = [o] ->
  Prog.value_std (Merged.prog (group_row np df k)) = None
  /\ Prog.avg_yoy_change (Merged.prog (group_row np df k))
     = match Obs.yoy_change o with
       | Some y => Some (fmean np [y])
       | None => None
       end.
Proof.
  intros Eo. unfold group_row. rewrite Eo.
  cbn [sort_values fold_right insert_sorted Merged.prog agg_progress snd map
       Prog.value_std Prog.avg_yoy_change].
  split.
  - unfold agg_std. destruct (Obs.avg_indicator_value o); reflexivity.
  - unfold agg_mean. destruct (Obs.yoy_change o); reflexivity.
Qed.

(** C4, as stated, fails: the one observation of a key may carry a change,
    and then the mean change of the key is that change, not 0. *)
Lemma C4_single_observation_keeps_its_change :
  ~ (forall r,
       In r (returned_features (engineer_features exact_floats single_batch)) ->
       value_std (Feat.base r) = Some 0
       /\ exists x, avg_yoy_change (Feat.base r) = Some x /\ x == 0).
Proof.
  intros H.
  destruct (returned_features (engineer_features exact_floats single_batch))
    as [| r t] eqn:E; [vm_compute in E; discriminate E |].
  destruct (H r (or_introl eq_refl)) as [_ [x [Ex Eq]]].
  vm_compute in E. injection E as Er _. subst r.
  vm_compute in Ex. injection Ex as Ex. subst x.
  vm_compute in Eq. discriminate Eq.
Qed.

(** C4, amended: for a key with exactly one observation, the record of the
    key has [value_std] 0; its [avg_yoy_change] is the change of that
    observation when the observation has one, and 0 when it has none; never
    a missing value. *)
Theorem C4_single_observation :
  forall np df features le_region le_income c g o,
    engineer_features np df = Returned (features, le_region, le_income) ->
    observations_of (c, g) df = [o] ->
    exists r,
      filter (fun r => eqb_key (feature_key r) (c, g)) features = [r]
      /\ value_std (Feat.base r) = Some 0
      /\ (forall y, Obs.yoy_change o = Some y ->
            exists x, avg_yoy_change (Feat.base r) = Some x /\ x == y)
      /\ (Obs.yoy_change o = None -> avg_yoy_change (Feat.base r) = Some 0).
Proof.
  intros np df features le_region le_income c g o Eq Eo.
  assert (Ne : observations_of (c, g) df <> []) by (rewrite Eo; discriminate).
  destruct (feature_of_key np df features le_region le_income (c, g) Eq Ne)
    as [r [gdp [pop [life [lit [Fr Br]]]]]].
  destruct (group_row_single np df (c, g) o Eo) as [Hs Hm].
  exists r. split; [exact Fr |].
  unfold value_std, avg_yoy_change. rewrite Br.
  cbn [fill_row Merged.prog fill_trend Prog.value_std Prog.avg_yoy_change].
  rewrite Hs, Hm. split; [reflexivity |]. split.
  - intros y Ey. rewrite Ey. exists (fmean np [y]).
    split; [reflexivity | apply (fmean_one np)].
  - intros Ey. rewrite Ey. reflexivity.
Qed.

(** C4, amended, on the batch of one observation with a change of 5. *)
Lemma C4_single_observation_witness :
  exists features le_region le_income r,
    engineer_features exact_floats single_batch = Returned (features, le_region, le_income)
    /\ features = [r]
    /\ value_std (Feat.base r) = Some 0
    /\ exists x, avg_yoy_change (Feat.base r) = Some x /\ x == 5.
Proof.
  destruct (engineer_features exact_floats single_batch)
    as [[[features le_region] le_income] | e] eqn:Eq.
  - destruct (C4_single_observation
                exact_floats single_batch features le_region le_income
                "JPN"%string "1"%string
                (observation (Some "JPN") (Some "1") 2020 (Some 50) (Some 5) (Some 400))%string
                Eq eq_refl) as [r [Fr [Sr [Yr _]]]].
    exists features, le_region, le_income, r.
    split; [reflexivity |]. split.
    + vm_compute in Eq. injection Eq as Ef _ _. subst features.
      vm_compute in Fr. exact Fr.
    + split; [exact Sr |]. apply Yr. reflexivity.
  - vm_compute in Eq. discriminate Eq.
Defined.

(** ** The last known attributes of a country *)

Lemma agg_last_snoc {A : Type} (c : list (option A)) (x : option A) :
  agg_last (c ++ [x]) = match x with Some _ => x | None => agg_last c end.
Proof. unfold agg_last. rewrite fold_left_app. reflexivity. Qed.

(** [agg_last] is missing exactly when the whole column is. *)
Lemma agg_last_None {A B : Type} (f : A -> option B) (rows : list A) :
  agg_last (map f rows) = None -> forall o, In o rows -> f o = None.
Proof.
  induction rows as [| o t IH] using rev_ind; intros E o' I; [destruct I |].
  rewrite map_app in E. simpl in E. rewrite agg_last_snoc in E.
  apply in_app_or in I. destruct (f o) eqn:Fo; [discriminate |].
  destruct I as [I | [<- | []]]; [exact (IH E o' I) | exact Fo].
Qed.

(** Otherwise it is the value of a row after which the column is missing. *)
Lemma agg_last_Some {A B : Type} (f : A -> option B) (rows : list A) (v : B) :
  agg_last (map f rows) = Some v ->
  exists r1 o r2, rows = r1 ++ o :: r2 /\ f o = Some v
                  /\ forall o', In o' r2 -> f o' = None.
Proof.
  induction rows as [| o t IH] using rev_ind; intros E; [discriminate |].
  rewrite map_app in E. simpl in E. rewrite agg_last_snoc in E.
  destruct (f o) as [x |] eqn:Fo.
  - injection E as ->. exists t, o, []. split; [reflexivity |].
    split; [exact Fo | intros o' []].
  - destruct (IH E) as [r1 [o1 [r2 [Er [Fo1 N]]]]].
    exists r1, o1, (r2 ++ [o]). split; [rewrite Er, <- app_assoc; reflexivity |].
    split; [exact Fo1 |].
    intros o' I. apply in_app_or in I.
    destruct I as [I | [<- | []]]; [exact (N o' I) | exact Fo].
Qed.

Lemma sorted_before {A : Type} (R : A -> A -> Prop) (l1 l2 : list A) (x : A) :
  StronglySorted R (l1 ++ x :: l2) -> forall y, In y l1 -> R y x.
Proof.
  induction l1 as [| z t IH]; intros S y I; [destruct I |].
  simpl in S. apply StronglySorted_inv in S. destruct S as [St Fz].
  destruct I as [<- | I].
  - rewrite Forall_forall in Fz. apply Fz. apply in_or_app. right. left. reflexivity.
  - exact (IH St y I).
Qed.

Lemma leb_key_Zle (x y : Z) : leb_key x y = true <-> (x <= y)%Z.
Proof.
  unfold leb_key, compare_key, compare_Z, Z.le.
  destruct (x ?= y)%Z; split; congruence.
Qed.

(** The rows of a country in the order in which [latest_attrs] reads them. *)
Lemma country_rows_In (c : string) (df : list Obs.row) (o : Obs.row) :
  In o (sort_values Obs.year
          (sort_values country_goal_year (observations_of_country c df)))
  <-> In o (observations_of_country c df).
Proof.
  split; intros I.
  - eapply Permutation_in; [| exact I].
    eapply perm_trans; apply sort_values_perm.
  - eapply Permutation_in; [| exact I].
    apply Permutation_sym. eapply perm_trans; apply sort_values_perm.
Qed.

(** [GroupBy.last()] after [sort_values('year')] yields, column by column,
    the latest known value. *)
Lemma agg_last_latest_known {B : Type} (df : list Obs.row) (c : string)
  (f : Obs.row -> option B) :
  latest_known df c f
    (agg_last
       (map f (sort_values Obs.year
                 (sort_values country_goal_year (observations_of_country c df))))).
Proof.
  set (rows := sort_values Obs.year _).
  assert (Srt : StronglySorted (fun a b => leb_key (Obs.year a) (Obs.year b) = true) rows)
    by apply sort_values_sorted.
  assert (Mem : forall o, In o rows <-> In o (observations_of_country c df))
    by (intros o; apply country_rows_In).
  unfold latest_known. destruct (agg_last (map f rows)) as [v |] eqn:E.
  - destruct (agg_last_Some f rows v E) as [r1 [o [r2 [Er [Fo N]]]]].
    exists o. split; [apply Mem; rewrite Er; apply in_or_app; right; left; reflexivity |].
    split; [exact Fo |].
    intros o' Io' Fo'. apply Mem in Io'. rewrite Er in Io', Srt.
    apply in_app_or in Io'. destruct Io' as [I1 | [<- | I2]].
    + apply leb_key_Zle. exact (sorted_before _ r1 r2 o Srt o' I1).
    + apply Z.le_refl.
    + exfalso. apply Fo'. exact (N o' I2).
  - intros o' Io'. apply Mem in Io'. exact (agg_last_None f rows E o' Io').
Qed.

(** C5, as stated, fails: the attributes of a country need not all come
    from one observation of maximum period.  Here both observations of the
    latest year lack the GDP figure, and the joined figure is that of the
    year before. *)
Lemma C5_attributes_not_from_one_observation :
  ~ (forall r,
       In r (merged_features exact_floats mixed_batch) ->
       exists o,
         latest_of_country mixed_batch (Prog.country_code (Merged.prog r)) o
         /\ Attr.region (Merged.attrs r) = Obs.region o
         /\ Attr.income_level (Merged.attrs r) = Obs.income_level o
         /\ Attr.gdp_per_capita (Merged.attrs r) = Obs.gdp_per_capita o
         /\ Attr.population (Merged.attrs r) = Obs.population o
         /\ Attr.life_expectancy (Merged.attrs r) = Obs.life_expectancy o
         /\ Attr.adult_literacy_rate (Merged.attrs r) = Obs.adult_literacy_rate o).
Proof.
  intros H.
  destruct (merged_features exact_floats mixed_batch) as [| r t] eqn:E;
    [vm_compute in E; discriminate E |].
  destruct (H r (or_introl eq_refl)) as [o [[Io Mo] [_ [_ [Go _]]]]].
  vm_compute in E. injection E as Er _. subst r.
  cbn [Merged.prog Merged.attrs Prog.country_code Attr.gdp_per_capita] in *.
  assert (I20 : In (observation (Some "JPN") (Some "2") 2020 (Some 7) None None)%string
                   (observations_of_country "JPN"%string mixed_batch))
    by (vm_compute; left; reflexivity).
  specialize (Mo _ I20). cbn [observation Obs.year] in Mo.
  vm_compute in Io.
  destruct Io as [<- | [<- | [<- | []]]]; cbn [Obs.gdp_per_capita Obs.year] in *;
    try discriminate Go.
  lia.
Qed.

(** C5, amended: each contextual attribute joined to a record is the latest
    known value of that attribute for the country of the record: the value
    in the latest observation of the country that has the attribute, missing
    only when none has it; the attributes may so come from different
    observations.  All records of a country get the same attributes. *)
Theorem C5_latest_known_attributes :
  forall np df r,
    In r (merged_features np df) ->
    latest_known df (Prog.country_code (Merged.prog r)) Obs.region
      (Attr.region (Merged.attrs r))
    /\ latest_known df (Prog.country_code (Merged.prog r)) Obs.income_level
         (Attr.income_level (Merged.attrs r))
    /\ latest_known df (Prog.country_code (Merged.prog r)) Obs.gdp_per_capita
         (Attr.gdp_per_capita (Merged.attrs r))
    /\ latest_known df (Prog.country_code (Merged.prog r)) Obs.population
         (Attr.population (Merged.attrs r))
    /\ latest_known df (Prog.country_code (Merged.prog r)) Obs.life_expectancy
         (Attr.life_expectancy (Merged.attrs r))
    /\ latest_known df (Prog.country_code (Merged.prog r)) Obs.adult_literacy_rate
         (Attr.adult_literacy_rate (Merged.attrs r))
    /\ (forall r',
          In r' (merged_features np df) ->
          Prog.country_code (Merged.prog r') = Prog.country_code (Merged.prog r) ->
          Merged.attrs r' = Merged.attrs r).
Proof.
  intros np df r Ir. rewrite merged_features_by_key in *.
  apply in_map_iff in Ir. destruct Ir as [[c g] [Er _]]. subst r.
  cbn [group_row Merged.prog Merged.attrs agg_progress Prog.country_code fst
       last_attrs Attr.attrs snd Attr.region Attr.income_level Attr.gdp_per_capita
       Attr.population Attr.life_expectancy Attr.adult_literacy_rate].
  repeat (split; [apply agg_last_latest_known |]).
  intros r' Ir' Ec. apply in_map_iff in Ir'. destruct Ir' as [[c' g'] [Er' _]].
  subst r'. cbn [group_row Merged.prog agg_progress Prog.country_code fst] in Ec.
  subst c'. reflexivity.
Qed.

(** C5, amended, on the batch whose latest year has no GDP figure. *)
Lemma C5_latest_known_attributes_witness :
  exists r,
    In r (merged_features exact_floats mixed_batch)
    /\ Attr.gdp_per_capita (Merged.attrs r) = Some 400
    /\ latest_known mixed_batch "JPN"%string Obs.gdp_per_capita (Some 400).
Proof.
  destruct (merged_features exact_floats mixed_batch) as [| r t] eqn:E;
    [vm_compute in E; discriminate E |].
  exists r.
  assert (Ir : In r (r :: t)) by (left; reflexivity).
  rewrite <- E in Ir.
  pose proof (proj1 (proj2 (proj2 (C5_latest_known_attributes
                                     exact_floats mixed_batch r Ir)))) as G.
  vm_compute in E. injection E as Er _. subst r.
  split; [left; reflexivity |]. split; [reflexivity | exact G].
Defined.

(** ** The categorical encoder *)

(** C8: the encoder fitted on a categorical column, after missing values
    are replaced by "Unknown", depends only on the set of values of the
    column: two columns with the same values, in any order and with any
    multiplicities, get the same classes and the same code for every
    value. *)
Theorem C8_encoding_depends_on_value_set :
  forall col1 col2 : list (option string),
    (forall v, In v (categorical col1) <-> In v (categorical col2)) ->
    fst (Sklearn.fit_transform (categorical col1))
    = fst (Sklearn.fit_transform (categorical col2))
    /\ forall v,
         Sklearn.encode (fst (Sklearn.fit_transform (categorical col1))) v
         = Sklearn.encode (fst (Sklearn.fit_transform (categorical col2))) v.
Proof.
  intros col1 col2 Same.
  assert (E : fst (Sklearn.fit_transform (categorical col1))
              = fst (Sklearn.fit_transform (categorical col2))).
  { unfold Sklearn.fit_transform, Sklearn.fit. cbn [fst]. f_equal.
    apply unique_ext. exact Same. }
  split; [exact E |]. intros v. rewrite E. reflexivity.
Qed.

(** C8 on two columns with the values Asia, Europe and a missing one. *)
Lemma C8_encoding_depends_on_value_set_witness :
  Sklearn.classes_
    (fst (Sklearn.fit_transform
            (categorical [Some "Europe"; None; Some "Asia"]%string)))
  = ["Asia"; "Europe"; "Unknown"]%string
  /\ fst (Sklearn.fit_transform
            (categorical [Some "Europe"; None; Some "Asia"]%string))
     = fst (Sklearn.fit_transform
              (categorical [Some "Asia"; Some "Asia"; None; Some "Europe"]%string)).
Proof.
  split; [reflexivity |].
  apply (C8_encoding_depends_on_value_set
           [Some "Europe"; None; Some "Asia"]%string
           [Some "Asia"; Some "Asia"; None; Some "Europe"]%string).
  intros v. simpl. tauto.
Defined.

(** ** Errors of a run *)

Lemma call_library_error {A : Type} (r : Sklearn.py_exn + A) (e : exn) :
  call r = Raised e -> library_error e.
Proof. destruct r as [pe | a]; simpl; intros E; [| discriminate]. exists pe. congruence. Qed.

Lemma feature_matrix_library_error (cols : list string) (features : list Feat.row)
  (e : exn) :
  feature_matrix cols features = Raised e -> library_error e.
Proof.
  unfold feature_matrix, bind.
  destruct (call (select cols)) as [fs | e'] eqn:E; [discriminate |].
  intros Eq. injection Eq as <-. exact (call_library_error _ _ E).
Qed.

Lemma train_model_library_error (sk : Sklearn.Estimator) (features : list Feat.row)
  (e : exn) :
  train_model sk features = Raised e -> library_error e.
Proof.
  unfold train_model, bind.
  destruct (feature_matrix feature_cols features) as [X | e1] eqn:E1.
  2: { intros Eq. injection Eq as <-. exact (feature_matrix_library_error _ _ _ E1). }
  destruct (call (Sklearn.train_test_split sk X _ _ _)) as [split | e2] eqn:E2.
  2: { intros Eq. injection Eq as <-. exact (call_library_error _ _ E2). }
  destruct (call (Sklearn.forest_fit sk _ _ _ _ _)) as [model | e3] eqn:E3.
  2: { intros Eq. injection Eq as <-. exact (call_library_error _ _ E3). }
  destruct (call (Sklearn.predict sk model _)) as [y_pred | e4] eqn:E4.
  2: { intros Eq. injection Eq as <-. exact (call_library_error _ _ E4). }
  discriminate.
Qed.

Lemma generate_predictions_library_error (sk : Sklearn.Estimator)
  (model : Sklearn.Model sk) (features : list Feat.row) (cols : list string) (e : exn) :
  generate_predictions sk model features cols = Raised e -> library_error e.
Proof.
  unfold generate_predictions, bind.
  destruct (feature_matrix cols features) as [X | e1] eqn:E1.
  2: { intros Eq. injection Eq as <-. exact (feature_matrix_library_error _ _ _ E1). }
  destruct (call (Sklearn.predict_proba_1 sk model X)) as [ps | e2] eqn:E2.
  2: { intros Eq. injection Eq as <-. exact (call_library_error _ _ E2). }
  destruct (Nat.eqb (length ps) (length features)); [discriminate |].
  intros Eq. injection Eq as <-. exists Sklearn.ValueError. reflexivity.
Qed.

(** A run raises nothing but what the library raises. *)
Lemma pipeline_library_error (np : Floats) (sk : Sklearn.Estimator)
  (df : list Obs.row) (e : exn) :
  pipeline np sk df = Raised e -> library_error e.
Proof.
  unfold pipeline. rewrite engineer_features_rows. cbn [bind fst].
  destruct (train_model sk _) as [trained | e1] eqn:E1; cbn [bind].
  2: { intros Eq. injection Eq as <-. exact (train_model_library_error _ _ _ E1). }
  apply generate_predictions_library_error.
Qed.

(** ** Incomplete observations *)

Lemma filter_filter_implied {A : Type} (p q : A -> bool) (l : list A) :
  (forall x, p x = true -> q x = true) -> filter p (filter q l) = filter p l.
Proof.
  intros Imp. induction l as [| x t IH]; simpl; [reflexivity |].
  destruct (q x) eqn:Qx; simpl; rewrite IH; [reflexivity |].
  destruct (p x) eqn:Px; [| reflexivity].
  rewrite (Imp x Px) in Qx. discriminate.
Qed.

Lemma filter_comm {A : Type} (p q : A -> bool) (l : list A) :
  filter p (filter q l) = filter q (filter p l).
Proof.
  induction l as [| x t IH]; simpl; [reflexivity |].
  destruct (q x) eqn:Qx, (p x) eqn:Px; simpl; rewrite ?Qx, ?Px, IH; reflexivity.
Qed.

Lemma dropna_filter_present {A B : Type} (f : A -> option B) (l : list A) :
  dropna (map f (filter (fun o => match f o with Some _ => true | None => false end) l))
  = dropna (map f l).
Proof.
  induction l as [| x t IH]; simpl; [reflexivity |].
  destruct (f x) eqn:Fx; simpl; rewrite ?Fx, IH; reflexivity.
Qed.

(** [agg_last] reads the present entries only. *)
Lemma agg_last_dropna {A : Type} (c : list (option A)) :
  agg_last c = agg_last (map Some (dropna c)).
Proof.
  unfold agg_last. generalize (@None A) as acc.
  induction c as [| [x |] t IH]; intros acc; simpl.
  - reflexivity.
  - apply IH.
  - apply IH.
Qed.

(** The key of an observation that has none is no key. *)
Lemma in_group_has_key (k : string * string) (o : Obs.row) :
  in_group k (country_goal o) = true -> has_key o = true.
Proof. unfold has_key. destruct (country_goal o); [reflexivity | discriminate]. Qed.

Lemma observations_of_keyed (k : string * string) (df : list Obs.row) :
  observations_of k (filter has_key df) = observations_of k df.
Proof.
  unfold observations_of. apply filter_filter_implied.
  intros o. apply in_group_has_key.
Qed.

Lemma keys_of_keyed (df : list Obs.row) :
  unique (dropna (map country_goal (filter has_key df)))
  = unique (dropna (map country_goal df)).
Proof.
  unfold has_key. rewrite dropna_filter_present. reflexivity.
Qed.

(** The aggregates of a batch are those of its observations that have both
    key columns. *)
Lemma progress_features_keyed (np : Floats) (df : list Obs.row) :
  progress_features np (sort_values country_goal_year df)
  = progress_features np (sort_values country_goal_year (filter has_key df)).
Proof.
  rewrite !progress_features_by_key. rewrite keys_of_keyed.
  apply map_ext. intros k. rewrite observations_of_keyed. reflexivity.
Qed.

(** The statistics of the value column are those of the observations that
    have a value. *)
Lemma value_statistics_present (np : Floats) (df : list Obs.row)
  (k : string * string) :
  let p := Merged.prog (group_row np df k) in
  let p' := Merged.prog (group_row np (filter has_value df) k) in
  Prog.value_mean p = Prog.value_mean p'
  /\ Prog.value_std p = Prog.value_std p'
  /\ Prog.value_min p = Prog.value_min p'
  /\ Prog.value_max p = Prog.value_max p'
  /\ Prog.value_latest p = Prog.value_latest p'.
Proof.
  cbn zeta. unfold group_row.
  cbn [Merged.prog agg_progress snd Prog.value_mean Prog.value_std Prog.value_min
       Prog.value_max Prog.value_latest].
  assert (E : dropna (map Obs.avg_indicator_value
                 (sort_values country_goal_year
                    (observations_of k (filter has_value df))))
              = dropna (map Obs.avg_indicator_value
                   (sort_values country_goal_year (observations_of k df)))).
  { unfold observations_of. rewrite filter_comm.
    rewrite <- filter_sort_values. unfold has_value.
    apply dropna_filter_present. }
  unfold agg_mean, agg_std, agg_min, agg_max.
  rewrite (agg_last_dropna (map Obs.avg_indicator_value
             (sort_values country_goal_year (observations_of k df)))).
  rewrite (agg_last_dropna (map Obs.avg_indicator_value
             (sort_values country_goal_year
                (observations_of k (filter has_value df))))).
  rewrite E. repeat split; reflexivity.
Qed.

(** C6, as stated, fails: a batch with an observation that lacks its
    country code, one that lacks its goal code and one that lacks its value
    is aggregated; nothing is raised. *)
Lemma C6_incomplete_batch_is_aggregated :
  ~ (existsb (fun o => negb (complete o)) incomplete_batch = true ->
     engineer_features exact_floats incomplete_batch = Raised DataIntegrityError).
Proof. intros H. specialize (H eq_refl). vm_compute in H. discriminate H. Qed.

(** C6, amended: [engineer_features] returns on every batch, and no run
    raises a [DataIntegrityError]; observations without a country code or
    a goal code are left out of every group, so the aggregates are those of
    the batch without them; a missing value is skipped by the statistics of
    the value column, which are those of the batch without the observations
    that lack a value. *)
Theorem C6_incomplete_observations_are_skipped :
  forall np df,
    (exists out, engineer_features np df = Returned out)
    /\ (forall sk, pipeline np sk df <> Raised DataIntegrityError)
    /\ progress_features np (sort_values country_goal_year df)
       = progress_features np
           (sort_values country_goal_year (filter has_key df))
    /\ (forall k,
          Prog.value_mean (Merged.prog (group_row np df k))
          = Prog.value_mean (Merged.prog (group_row np (filter has_value df) k))
          /\ Prog.value_std (Merged.prog (group_row np df k))
             = Prog.value_std (Merged.prog (group_row np (filter has_value df) k))
          /\ Prog.value_min (Merged.prog (group_row np df k))
             = Prog.value_min (Merged.prog (group_row np (filter has_value df) k))
          /\ Prog.value_max (Merged.prog (group_row np df k))
             = Prog.value_max (Merged.prog (group_row np (filter has_value df) k))
          /\ Prog.value_latest (Merged.prog (group_row np df k))
             = Prog.value_latest
                 (Merged.prog (group_row np (filter has_value df) k))).
Proof.
  intros np df.
  split; [eexists; apply engineer_features_rows |].
  split.
  { intros sk Eq. destruct (pipeline_library_error np sk df _ Eq) as [pe Epe].
    discriminate Epe. }
  split; [apply progress_features_keyed |].
  intros k. exact (value_statistics_present np df k).
Qed.

(** C6, amended, on the batch with the three incomplete observations: it is
    aggregated into the one record of the one complete key. *)
Lemma C6_incomplete_observations_are_skipped_witness :
  (exists out, engineer_features exact_floats incomplete_batch = Returned out)
  /\ pipeline exact_floats holdout_estimator incomplete_batch <> Raised DataIntegrityError
  /\ map feature_key (returned_features (engineer_features exact_floats incomplete_batch))
     = [("JPN", "1")]%string.
Proof.
  split; [exact (proj1 (C6_incomplete_observations_are_skipped
                          exact_floats incomplete_batch)) |].
  split; [| reflexivity].
  exact (proj1 (proj2 (C6_incomplete_observations_are_skipped
                         exact_floats incomplete_batch)) holdout_estimator).
Defined.

(** ** The trainer *)

(** C7, as stated, fails: on a batch whose labels are all 0 the training
    split has a single class, and [train_model] hands it to the estimator and
    returns the fitted model; nothing in it counts the classes. *)
Lemma C7_single_class_split_is_fitted :
  ~ (forall y_train,
       training_labels holdout_estimator
         (returned_features (engineer_features exact_floats flat_batch)) = Some y_train ->
       (label_classes y_train < 2)%nat ->
       train_model holdout_estimator
         (returned_features (engineer_features exact_floats flat_batch))
       = Raised TrainingError).
Proof.
  intros H. specialize (H [0; 0]%Z eq_refl).
  assert (L : (label_classes [0; 0]%Z < 2)%nat) by (vm_compute; lia).
  specialize (H L). vm_compute in H. discriminate H.
Qed.

(** C7, amended: [train_model] raises no [TrainingError], and nothing but
    what the split, the fit or the scoring of the library raises; whenever
    these three return, it returns the fitted model, whatever the number of
    label classes in the training split. *)
Theorem C7_trainer_fits_any_split :
  forall sk features,
    train_model sk features <> Raised TrainingError
    /\ (forall e, train_model sk features = Raised e -> library_error e)
    /\ (forall X split model y_pred,
          feature_matrix feature_cols features = Returned X ->
          Sklearn.train_test_split sk X (map Feat.on_track_2030 features)
            (2 # 10) 42%Z = inr split ->
          Sklearn.forest_fit sk 100%Z 10%Z 42%Z
            (fst (fst (fst split))) (snd (fst split)) = inr model ->
          Sklearn.predict sk model (snd (fst (fst split))) = inr y_pred ->
          training_labels sk features = Some (snd (fst split))
          /\ train_model sk features = Returned (model, feature_cols)).
Proof.
  intros sk features.
  split.
  { intros Eq. destruct (train_model_library_error sk features _ Eq) as [pe Epe].
    discriminate Epe. }
  split; [intros e; apply train_model_library_error |].
  intros X split model y_pred EX Es Ef Ep.
  unfold training_labels, train_model, bind.
  rewrite EX, Es. cbn [call]. rewrite Ef. cbn [call]. rewrite Ep. cbn [call].
  split; reflexivity.
Qed.

(** C7, amended, on the batch whose labels are all 0. *)
Lemma C7_trainer_fits_any_split_witness :
  exists (X : list (list cell))
         (split : list (list cell) * list (list cell) * list Z * list Z)
         (model : Sklearn.Model holdout_estimator),
    training_labels holdout_estimator
      (returned_features (engineer_features exact_floats flat_batch)) = Some (snd (fst split))
    /\ label_classes (snd (fst split)) = 1%nat
    /\ feature_matrix feature_cols
         (returned_features (engineer_features exact_floats flat_batch)) = Returned X
    /\ train_model holdout_estimator
         (returned_features (engineer_features exact_floats flat_batch))
       = Returned (model, feature_cols).
Proof.
  destruct (feature_matrix feature_cols
              (returned_features (engineer_features exact_floats flat_batch)))
    as [X | e] eqn:EX; [| vm_compute in EX; discriminate EX].
  destruct (Sklearn.train_test_split holdout_estimator X
              (map Feat.on_track_2030
                 (returned_features (engineer_features exact_floats flat_batch)))
              (2 # 10) 42%Z) as [pe | split] eqn:Es.
  { vm_compute in EX. injection EX as <-. vm_compute in Es. discriminate Es. }
  destruct (proj2 (proj2 (C7_trainer_fits_any_split holdout_estimator
              (returned_features (engineer_features exact_floats flat_batch))))
              X split (unique (snd (fst split)))
              (map (fun _ => hd 0%Z (unique (snd (fst split)))) (snd (fst (fst split))))
              EX Es eq_refl eq_refl) as [Tl Tm].
  exists X, split, (unique (snd (fst split))).
  split; [exact Tl |]. split; [| split; [reflexivity | exact Tm]].
  vm_compute in EX. injection EX as <-. vm_compute in Es. injection Es as <-.
  reflexivity.
Defined.

(** * Further properties of [engineer_features] *)

Lemma feature_keys (np : Floats) (df : list Obs.row)
  (features : list Feat.row) (le_region le_income : Sklearn.LabelEncoder) :
  engineer_features np df = Returned (features, le_region, le_income) ->
  map feature_key features = unique (dropna (map country_goal df)).
Proof.
  intros Eq.
  destruct (engineer_features_base np df features le_region le_income Eq)
    as [B _].
  unfold fill_missing in B. rewrite merged_features_by_key in B.
  unfold feature_key. rewrite <- (map_map Feat.base merged_key). rewrite B.
  rewrite !map_map.
  rewrite (map_ext _ (fun k => k)); [apply map_id |].
  intros k. rewrite merged_key_fill_row. apply merged_key_group_row.
Qed.

(** X1: the records come in strictly ascending order of their key, and their
    keys are the keys under which the batch has an observation. *)
Theorem X1_records_ascending_by_key :
  forall np df features le_region le_income,
    engineer_features np df = Returned (features, le_region, le_income) ->
    StronglySorted (fun a b => compare_key a b = Lt) (map feature_key features)
    /\ NoDup (map feature_key features)
    /\ (forall k, In k (map feature_key features) <-> observations_of k df <> []).
Proof.
  intros np df features le_region le_income Eq.
  rewrite (feature_keys np df features le_region le_income Eq).
  split; [apply unique_sorted |]. split; [apply unique_NoDup |].
  intros k. apply key_occurs.
Qed.

(** X1 on the batch with two keys for one country. *)
Lemma X1_records_ascending_by_key_witness :
  exists features le_region le_income,
    engineer_features exact_floats mixed_batch = Returned (features, le_region, le_income)
    /\ map feature_key features = [("JPN", "1"); ("JPN", "2")]%string
    /\ NoDup (map feature_key features).
Proof.
  destruct (engineer_features exact_floats mixed_batch)
    as [[[features le_region] le_income] | e] eqn:Eq.
  - exists features, le_region, le_income.
    split; [reflexivity |]. split.
    + vm_compute in Eq. injection Eq as Ef _ _. subst features. reflexivity.
    + exact (proj1 (proj2 (X1_records_ascending_by_key _ _ _ _ _ Eq))).
  - vm_compute in Eq. discriminate Eq.
Defined.

(** The records returned, as the filled [group_row]s of the keys. *)
Lemma features_by_key (np : Floats) (df : list Obs.row)
  (features : list Feat.row) (le_region le_income : Sklearn.LabelEncoder) :
  engineer_features np df = Returned (features, le_region, le_income) ->
  exists gdp pop life lit,
    map Feat.base features
    = map (fun k => fill_row gdp pop life lit (group_row np df k))
          (unique (dropna (map country_goal df))).
Proof.
  intros Eq.
  destruct (engineer_features_base np df features le_region le_income Eq)
    as [B _].
  unfold fill_missing in B. rewrite merged_features_by_key in B.
  rewrite map_map in B. eexists _, _, _, _. exact B.
Qed.

Lemma list_sum_map_add {A : Type} (f g : A -> nat) (l : list A) :
  list_sum (map (fun x => f x + g x)%nat l) = (list_sum (map f l) + list_sum (map g l))%nat.
Proof. induction l as [| x t IH]; simpl; [reflexivity | rewrite IH; lia]. Qed.

Lemma indicator_sum_absent {K : Type} {C : Compare K} {L : CompareLaws K}
  {E : CompareEq K} (k0 : K) (ks : list K) :
  ~ In k0 ks ->
  list_sum (map (fun k => if eqb_key k k0 then 1 else 0)%nat ks) = 0%nat.
Proof.
  induction ks as [| k t IH]; intros N; simpl; [reflexivity |].
  destruct (eqb_key k k0) eqn:B.
  - apply eqb_key_true in B. subst k. exfalso. apply N. left. reflexivity.
  - apply IH. intros I. apply N. right. exact I.
Qed.

Lemma indicator_sum_present {K : Type} {C : Compare K} {L : CompareLaws K}
  {E : CompareEq K} (k0 : K) (ks : list K) :
  NoDup ks -> In k0 ks ->
  list_sum (map (fun k => if eqb_key k k0 then 1 else 0)%nat ks) = 1%nat.
Proof.
  induction ks as [| k t IH]; intros N I; [destruct I |].
  inversion N as [| ? ? Nk Nt]; subst. simpl.
  destruct (eqb_key k k0) eqn:B.
  - apply eqb_key_true in B. subst k.
    rewrite (indicator_sum_absent k0 t Nk). reflexivity.
  - destruct I as [-> | I]; [| exact (IH Nt I)].
    rewrite (proj2 (eqb_key_true k0 k0) eq_refl) in B. discriminate.
Qed.

(** The groups of a frame split its keyed rows: every row with a key is in
    the group of exactly one key. *)
Lemma groups_partition {A K : Type} {C : Compare K} {L : CompareLaws K}
  {E : CompareEq K} (key : A -> option K) (l : list A) (ks : list K) :
  NoDup ks ->
  (forall r k, In r l -> key r = Some k -> In k ks) ->
  list_sum (map (fun k => length (filter (fun r => in_group k (key r)) l)) ks)
  = length (filter (fun r => match key r with Some _ => true | None => false end) l).
Proof.
  intros N Cov. induction l as [| x t IH].
  - simpl. clear. induction ks as [| k ks' IHk]; simpl; [reflexivity | exact IHk].
  - assert (IH' := IH (fun r k I => Cov r k (or_intror I))). clear IH.
    rewrite (map_ext _ (fun k => (if in_group k (key x) then 1 else 0)
                                 + length (filter (fun r => in_group k (key r)) t))%nat)
      by (intros k; simpl; destruct (in_group k (key x)); reflexivity).
    rewrite list_sum_map_add, IH'. simpl.
    destruct (key x) as [k0 |] eqn:Kx; simpl.
    + rewrite (indicator_sum_present k0 ks N (Cov x k0 (or_introl eq_refl) Kx)).
      reflexivity.
    + clear. induction ks as [| k ks' IHk]; simpl; [reflexivity | exact IHk].
Qed.

Lemma zsum_of_nat (f : string * string -> nat) (ks : list (string * string)) :
  zsum (map (fun k => Z.of_nat (f k)) ks) = Z.of_nat (list_sum (map f ks)).
Proof.
  induction ks as [| k t IH]; simpl; [reflexivity |].
  rewrite IH. lia.
Qed.

(** X2: the [data_points] of the records add up to the number of
    observations that have both key columns, each record counting at least
    one; so there are at most as many records as such observations. *)
Theorem X2_data_points_partition :
  forall np df features le_region le_income,
    engineer_features np df = Returned (features, le_region, le_income) ->
    zsum (map (fun r => Prog.data_points (Merged.prog (Feat.base r))) features)
    = Z.of_nat (length (filter has_key df))
    /\ Forall (fun r => (1 <= Prog.data_points (Merged.prog (Feat.base r)))%Z) features
    /\ (length features <= length (filter has_key df))%nat.
Proof.
  intros np df features le_region le_income Eq.
  destruct (features_by_key np df features le_region le_income Eq)
    as [gdp [pop [life [lit B]]]].
  set (ukeys := unique (dropna (map country_goal df))) in *.
  assert (D : map (fun r => Prog.data_points (Merged.prog (Feat.base r))) features
              = map (fun k => Z.of_nat (length (observations_of k df))) ukeys).
  { rewrite <- (map_map Feat.base (fun m => Prog.data_points (Merged.prog m))).
    rewrite B, map_map. apply map_ext. intros k.
    cbn [fill_row Merged.prog fill_trend Prog.data_points].
    apply group_row_data_points. }
  assert (S : zsum (map (fun r => Prog.data_points (Merged.prog (Feat.base r))) features)
              = Z.of_nat (length (filter has_key df))).
  { rewrite D, zsum_of_nat. f_equal. unfold observations_of, has_key.
    apply groups_partition; [apply unique_NoDup |].
    intros r k Ir Kr. apply unique_In. apply dropna_In. apply in_map_iff.
    exists r. split; assumption. }
  assert (P : Forall (fun r => (1 <= Prog.data_points (Merged.prog (Feat.base r)))%Z)
                     features).
  { apply Forall_forall. intros r Ir.
    assert (Id : In (Prog.data_points (Merged.prog (Feat.base r)))
                    (map (fun r => Prog.data_points (Merged.prog (Feat.base r))) features))
      by (apply in_map_iff; exists r; auto).
    rewrite D in Id. apply in_map_iff in Id. destruct Id as [k [Ek Ik]].
    rewrite <- Ek. apply key_occurs in Ik.
    destruct (observations_of k df); [congruence | simpl; lia]. }
  split; [exact S |]. split; [exact P |].
  clear - S P. revert S. generalize (length (filter has_key df)) as n.
  induction P as [| r t Hr Pt IH]; intros n S; simpl in *; [lia |].
  specialize (IH (Z.to_nat (zsum (map (fun r => Prog.data_points (Merged.prog (Feat.base r))) t)))).
  assert (Nn : (0 <= zsum (map (fun r => Prog.data_points (Merged.prog (Feat.base r))) t))%Z).
  { clear - Pt. induction Pt as [| r t Hr Pt IH]; simpl; lia. }
  rewrite Z2Nat.id in IH by exact Nn. specialize (IH eq_refl). lia.
Qed.

(** X2 on the batch with incomplete observations: two of the four have a
    key, both under the one record. *)
Lemma X2_data_points_partition_witness :
  exists features le_region le_income,
    engineer_features exact_floats incomplete_batch
    = Returned (features, le_region, le_income)
    /\ zsum (map (fun r => Prog.data_points (Merged.prog (Feat.base r))) features)
       = 2%Z
    /\ (length features <= 2)%nat.
Proof.
  destruct (engineer_features exact_floats incomplete_batch)
    as [[[features le_region] le_income] | e] eqn:Eq.
  - exists features, le_region, le_income.
    destruct (X2_data_points_partition _ _ _ _ _ Eq) as [S [_ Len]].
    split; [reflexivity |]. split; [exact S | exact Len].
  - vm_compute in Eq. discriminate Eq.
Defined.

(** ** When the defaults apply *)

Lemma dropna_present_length {A B : Type} (f : A -> option B) (l : list A) :
  length (dropna (map f l))
  = length (filter (fun o => match f o with Some _ => true | None => false end) l).
Proof.
  induction l as [| x t IH]; simpl; [reflexivity |].
  destruct (f x); simpl; rewrite IH; reflexivity.
Qed.

Lemma dropna_all_missing {A B : Type} (f : A -> option B) (l : list A) :
  (forall o, In o l -> f o = None) -> dropna (map f l) = [].
Proof.
  induction l as [| x t IH]; intros N; simpl; [reflexivity |].
  rewrite (N x (or_introl eq_refl)). apply IH.
  intros o I. apply N. right. exact I.
Qed.

Lemma sorted_group_In (k : string * string) (df : list Obs.row) (o : Obs.row) :
  In o (sort_values country_goal_year (observations_of k df))
  <-> In o (observations_of k df).
Proof.
  split; intros I.
  - exact (Permutation_in o (sort_values_perm country_goal_year _) I).
  - exact (Permutation_in o (Permutation_sym (sort_values_perm country_goal_year _)) I).
Qed.

(** The number of values the statistics of a key are computed from. *)
Lemma group_values_length (k : string * string) (df : list Obs.row) :
  length (dropna (map Obs.avg_indicator_value
                    (sort_values country_goal_year (observations_of k df))))
  = length (valued k df).
Proof.
  rewrite dropna_present_length. fold has_value.
  rewrite filter_sort_values.
  rewrite (Permutation_length (sort_values_perm country_goal_year _)).
  reflexivity.
Qed.

Lemma agg_std_few (np : Floats) (c : list (option Q)) :
  (length (dropna c) < 2)%nat -> agg_std np c = None.
Proof.
  unfold agg_std. destruct (dropna c) as [| x [| y t]]; simpl; intros H;
    [reflexivity | reflexivity | lia].
Qed.

Lemma agg_std_many (np : Floats) (c : list (option Q)) :
  (2 <= length (dropna c))%nat -> agg_std np c <> None.
Proof.
  unfold agg_std. destruct (dropna c) as [| x [| y t]]; simpl; intros H;
    [lia | lia | discriminate].
Qed.

Lemma agg_sum_present (np : Floats) (c : list (option Q)) :
  exists t, agg_sum np c = Some t.
Proof. unfold agg_sum. destruct (dropna c); eexists; reflexivity. Qed.

(** X3: in every record returned the three trend columns are present.
    [value_std] is the default 0 when fewer than two observations of the key
    carry a value (and only the fill makes it so: with two or more the
    aggregate is present already); [avg_yoy_change] and [total_change] are 0
    when no observation of the key carries a change; [total_change] is
    present before the fill, which never changes it. *)
Theorem X3_trend_defaults :
  forall np df features le_region le_income r,
    engineer_features np df = Returned (features, le_region, le_income) ->
    In r features ->
    (exists sd ch tot,
       value_std (Feat.base r) = Some sd
       /\ avg_yoy_change (Feat.base r) = Some ch
       /\ Prog.total_change (Merged.prog (Feat.base r)) = Some tot
       /\ Prog.total_change (Merged.prog (group_row np df (feature_key r)))
          = Some tot)
    /\ ((length (valued (feature_key r) df) < 2)%nat ->
        value_std (Feat.base r) = Some 0)
    /\ ((length (valued (feature_key r) df) < 2)%nat
        <-> Prog.value_std (Merged.prog (group_row np df (feature_key r))) = None)
    /\ ((forall o, In o (observations_of (feature_key r) df) -> Obs.yoy_change o = None) ->
        avg_yoy_change (Feat.base r) = Some 0
        /\ Prog.total_change (Merged.prog (Feat.base r)) = Some 0).
Proof.
  intros np df features le_region le_income r Eq Ir.
  destruct (feature_has_key np df features le_region le_income r Eq Ir)
    as [gdp [pop [life [lit [_ Br]]]]].
  set (k := feature_key r) in *.
  unfold value_std, avg_yoy_change. rewrite Br.
  cbn [fill_row Merged.prog fill_trend Prog.value_std Prog.avg_yoy_change
       Prog.total_change].
  unfold group_row.
  cbn [Merged.prog agg_progress snd Prog.value_std Prog.avg_yoy_change
       Prog.total_change].
  set (rows := sort_values country_goal_year (observations_of k df)).
  pose proof (group_values_length k df) as Len. fold rows in Len.
  split; [| split; [| split]].
  - destruct (agg_sum_present np (map Obs.yoy_change rows)) as [tot Et].
    rewrite Et.
    destruct (agg_std np (map Obs.avg_indicator_value rows)) as [sd |];
      destruct (agg_mean np (map Obs.yoy_change rows)) as [ch |];
      simpl; eexists _, _, _; repeat split; reflexivity.
  - intros Few. rewrite agg_std_few by (rewrite Len; exact Few). reflexivity.
  - split.
    + intros Few. apply agg_std_few. rewrite Len. exact Few.
    + intros Em.
      destruct (Nat.lt_ge_cases (length (valued k df)) 2) as [Lt | Ge]; [exact Lt |].
      exfalso. apply (agg_std_many np (map Obs.avg_indicator_value rows));
        [rewrite Len; exact Ge | exact Em].
  - intros NoChange.
    assert (Dn : dropna (map Obs.yoy_change rows) = []).
    { apply dropna_all_missing. intros o Io. apply NoChange.
      apply sorted_group_In. exact Io. }
    unfold agg_mean, agg_sum. rewrite Dn. split; reflexivity.
Qed.

(** X3 on the batch with two keys: the key observed once, without a change,
    gets the three defaults. *)
Lemma X3_trend_defaults_witness :
  exists features le_region le_income r,
    engineer_features exact_floats mixed_batch = Returned (features, le_region, le_income)
    /\ In r features
    /\ feature_key r = ("JPN", "2")%string
    /\ value_std (Feat.base r) = Some 0
    /\ avg_yoy_change (Feat.base r) = Some 0
    /\ Prog.total_change (Merged.prog (Feat.base r)) = Some 0.
Proof.
  destruct (engineer_features exact_floats mixed_batch)
    as [[[features le_region] le_income] | e] eqn:Eq;
    [| vm_compute in Eq; discriminate Eq].
  pose proof Eq as Ec. vm_compute in Ec. injection Ec as Ef _ _.
  destruct features as [| r1 [| r2 t]]; try discriminate Ef.
  injection Ef as _ E2 _.
  assert (Ir : In r2 (r1 :: r2 :: t)) by (right; left; reflexivity).
  assert (Ek : feature_key r2 = ("JPN", "2")%string) by (rewrite <- E2; reflexivity).
  destruct (X3_trend_defaults _ _ _ _ _ r2 Eq Ir) as [_ [Few [_ NoChange]]].
  exists (r1 :: r2 :: t), le_region, le_income, r2.
  split; [reflexivity |]. split; [exact Ir |]. split; [exact Ek |].
  split.
  - apply Few. rewrite Ek. vm_compute. lia.
  - apply NoChange. rewrite Ek. intros o Io. vm_compute in Io.
    destruct Io as [<- | []]. reflexivity.
Defined.

(** ** Bounds of the value statistics *)

Lemma Qmin_case (x y : Q) : Qmin x y = x \/ Qmin x y = y.
Proof. unfold Qmin, GenericMinMax.gmin. destruct (x ?= y); auto. Qed.

Lemma Qmax_case (x y : Q) : Qmax x y = x \/ Qmax x y = y.
Proof. unfold Qmax, GenericMinMax.gmax. destruct (x ?= y); auto. Qed.

Lemma fold_min_spec (t : list Q) (x : Q) :
  In (fold_left Qmin t x) (x :: t)
  /\ forall y, In y (x :: t) -> fold_left Qmin t x <= y.
Proof.
  revert x. induction t as [| z t IH]; intros x; simpl.
  - split; [auto | intros y [<- | []]; apply Qle_refl].
  - destruct (IH (Qmin x z)) as [I Le]. split.
    + destruct I as [E | I]; [| auto].
      remember (Qmin x z) as m eqn:Hm.
      destruct (Qmin_case x z) as [H | H]; [left | right; left]; congruence.
    + intros y [<- | [<- | Iy]].
      * apply Qle_trans with (Qmin x z); [apply Le; left; reflexivity | apply Q.le_min_l].
      * apply Qle_trans with (Qmin x z); [apply Le; left; reflexivity | apply Q.le_min_r].
      * apply Le. right. exact Iy.
Qed.

Lemma fold_max_spec (t : list Q) (x : Q) :
  In (fold_left Qmax t x) (x :: t)
  /\ forall y, In y (x :: t) -> y <= fold_left Qmax t x.
Proof.
  revert x. induction t as [| z t IH]; intros x; simpl.
  - split; [auto | intros y [<- | []]; apply Qle_refl].
  - destruct (IH (Qmax x z)) as [I Le]. split.
    + destruct I as [E | I]; [| auto].
      remember (Qmax x z) as m eqn:Hm.
      destruct (Qmax_case x z) as [H | H]; [left | right; left]; congruence.
    + intros y [<- | [<- | Iy]].
      * apply Qle_trans with (Qmax x z); [apply Q.le_max_l | apply Le; left; reflexivity].
      * apply Qle_trans with (Qmax x z); [apply Q.le_max_r | apply Le; left; reflexivity].
      * apply Le. right. exact Iy.
Qed.

Lemma agg_last_In {A : Type} (c : list (option A)) (x : A) :
  agg_last c = Some x -> In x (dropna c).
Proof.
  intros E. rewrite <- (map_id c) in E.
  destruct (agg_last_Some (fun o : option A => o) c x E) as [r1 [o [r2 [Er [Eo _]]]]].
  apply dropna_In. rewrite Er, Eo. apply in_or_app. right. left. reflexivity.
Qed.

Lemma agg_last_present {A : Type} (c : list (option A)) :
  dropna c <> [] -> agg_last c <> None.
Proof.
  intros Ne E. apply Ne. rewrite <- (map_id c) in E.
  rewrite <- (map_id c).
  apply dropna_all_missing. exact (agg_last_None (fun o : option A => o) c E).
Qed.

(** The values a key's statistics are computed from are the values of its
    observations. *)
Lemma group_value_In (k : string * string) (df : list Obs.row) (x : Q) :
  In x (dropna (map Obs.avg_indicator_value
                  (sort_values country_goal_year (observations_of k df))))
  <-> exists o, In o (valued k df) /\ Obs.avg_indicator_value o = Some x.
Proof.
  rewrite dropna_In, in_map_iff. unfold valued. split.
  - intros [o [Eo Io]]. exists o. split; [| exact Eo].
    apply filter_In. split; [apply sorted_group_In; exact Io |].
    unfold has_value. rewrite Eo. reflexivity.
  - intros [o [Io Eo]]. apply filter_In in Io. destruct Io as [Io _].
    exists o. split; [exact Eo | apply sorted_group_In; exact Io].
Qed.

(** X4: for a key with an observation that carries a value, the minimum,
    the mean, the maximum and the latest value of the record are all
    present; the minimum, the maximum and the latest are values of
    observations of the key, and the latest lies between the minimum and the
    maximum; when one observation only carries a value, the four are that
    value.  For a key with no such observation the four are missing. *)
Theorem X4_value_statistics_bounds :
  forall np df features le_region le_income r,
    engineer_features np df = Returned (features, le_region, le_income) ->
    In r features ->
    (valued (feature_key r) df = [] ->
     Prog.value_min (Merged.prog (Feat.base r)) = None
     /\ Prog.value_mean (Merged.prog (Feat.base r)) = None
     /\ Prog.value_max (Merged.prog (Feat.base r)) = None
     /\ Prog.value_latest (Merged.prog (Feat.base r)) = None)
    /\ (valued (feature_key r) df <> [] ->
        exists a m b l,
          Prog.value_min (Merged.prog (Feat.base r)) = Some a
          /\ Prog.value_mean (Merged.prog (Feat.base r)) = Some m
          /\ Prog.value_max (Merged.prog (Feat.base r)) = Some b
          /\ Prog.value_latest (Merged.prog (Feat.base r)) = Some l
          /\ a <= l <= b
          /\ (exists o, In o (valued (feature_key r) df)
                        /\ Obs.avg_indicator_value o = Some a)
          /\ (exists o, In o (valued (feature_key r) df)
                        /\ Obs.avg_indicator_value o = Some b)
          /\ (exists o, In o (valued (feature_key r) df)
                        /\ Obs.avg_indicator_value o = Some l)
          /\ (forall o, valued (feature_key r) df = [o] ->
                Obs.avg_indicator_value o = Some a
                /\ m == a /\ b = a /\ l = a)).
Proof.
  intros np df features le_region le_income r Eq Ir.
  destruct (feature_has_key np df features le_region le_income r Eq Ir)
    as [gdp [pop [life [lit [_ Br]]]]].
  set (k := feature_key r) in *. rewrite Br.
  cbn [fill_row Merged.prog fill_trend Prog.value_min Prog.value_mean
       Prog.value_max Prog.value_latest].
  unfold group_row.
  cbn [Merged.prog agg_progress snd Prog.value_min Prog.value_mean
       Prog.value_max Prog.value_latest].
  set (c := map Obs.avg_indicator_value
              (sort_values country_goal_year (observations_of k df))).
  pose proof (group_values_length k df) as Len. fold c in Len.
  pose proof (group_value_In k df) as Mem. fold c in Mem.
  split.
  - intros Em. rewrite Em in Len. simpl in Len.
    assert (Ev : dropna c = []) by (destruct (dropna c); [reflexivity | discriminate]).
    unfold agg_min, agg_mean, agg_max. rewrite Ev.
    repeat split; try reflexivity.
    destruct (agg_last c) as [l |] eqn:El; [| reflexivity].
    apply agg_last_In in El. rewrite Ev in El. destruct El.
  - intros Ne.
    assert (Nv : dropna c <> []).
    { intros Ev. rewrite Ev in Len. simpl in Len.
      destruct (valued k df); [congruence | discriminate]. }
    destruct (agg_last c) as [l |] eqn:El;
      [| exfalso; exact (agg_last_present c Nv El)].
    apply agg_last_In in El.
    unfold agg_min, agg_mean, agg_max.
    destruct (dropna c) as [| x t] eqn:Ev; [congruence |].
    destruct (fold_min_spec t x) as [Imin Lmin].
    destruct (fold_max_spec t x) as [Imax Lmax].
    exists (fold_left Qmin t x), (fmean np (x :: t)), (fold_left Qmax t x), l.
    repeat (split; [reflexivity |]).
    split; [| split; [| split; [| split]]].
    + split; [apply Lmin | apply Lmax]; exact El.
    + apply Mem. exact Imin.
    + apply Mem. exact Imax.
    + apply Mem. exact El.
    + intros o Eo. rewrite Eo in Len.
      destruct t as [| y t]; [| discriminate Len].
      cbn [fold_left].
      destruct El as [El | []]. subst l.
      destruct (proj1 (Mem x) (or_introl eq_refl)) as [o' [Io' Ex]].
      rewrite Eo in Io'. destruct Io' as [<- | []].
      split; [exact Ex |].
      split; [apply (fmean_one np) |]. split; reflexivity.
Qed.

(** X4 on the batch with a key observed twice, with the values 45 and 50:
    the latest value, 50, is the maximum. *)
Lemma X4_value_statistics_bounds_witness :
  exists features le_region le_income r,
    engineer_features exact_floats mixed_batch = Returned (features, le_region, le_income)
    /\ In r features
    /\ feature_key r = ("JPN", "1")%string
    /\ exists a m b l,
         Prog.value_min (Merged.prog (Feat.base r)) = Some a
         /\ Prog.value_mean (Merged.prog (Feat.base r)) = Some m
         /\ Prog.value_max (Merged.prog (Feat.base r)) = Some b
         /\ Prog.value_latest (Merged.prog (Feat.base r)) = Some l
         /\ a <= l <= b /\ a == 45 /\ l == 50 /\ b == 50.
Proof.
  destruct (engineer_features exact_floats mixed_batch)
    as [[[features le_region] le_income] | e] eqn:Eq;
    [| vm_compute in Eq; discriminate Eq].
  pose proof Eq as Ec. vm_compute in Ec. injection Ec as Ef _ _.
  destruct features as [| r1 t]; try discriminate Ef.
  injection Ef as E1 _.
  assert (Ir : In r1 (r1 :: t)) by (left; reflexivity).
  assert (Ek : feature_key r1 = ("JPN", "1")%string) by (rewrite <- E1; reflexivity).
  destruct (X4_value_statistics_bounds _ _ _ _ _ r1 Eq Ir) as [_ Some_].
  assert (Ne : valued (feature_key r1) mixed_batch <> [])
    by (rewrite Ek; vm_compute; discriminate).
  destruct (Some_ Ne) as [a [m [b [l [Ea [Em [Eb [El [Bl _]]]]]]]]].
  exists (r1 :: t), le_region, le_income, r1.
  split; [reflexivity |]. split; [exact Ir |]. split; [exact Ek |].
  exists a, m, b, l.
  split; [exact Ea |]. split; [exact Em |]. split; [exact Eb |].
  split; [exact El |]. split; [exact Bl |].
  rewrite <- E1 in Ea, Eb, El. vm_compute in Ea, Eb, El.
  injection Ea as <-. injection Eb as <-. injection El as <-.
  repeat split; reflexivity.
Defined.

(** ** The latest value and the latest year of a key *)

Lemma same_group_order (k : string * string) (a b : Obs.row) :
  country_goal a = Some k -> country_goal b = Some k ->
  leb_key (country_goal_year a) (country_goal_year b)
  = leb_key (Obs.year a) (Obs.year b).
Proof.
  destruct k as [c g]. intros Ea Eb.
  apply country_goal_Some in Ea. apply country_goal_Some in Eb.
  destruct Ea as [Ca Ga]. destruct Eb as [Cb Gb].
  unfold leb_key, country_goal_year. rewrite Ca, Ga, Cb, Gb.
  rewrite !compare_pair_unfold.
  change (compare_key (Some c) (Some c)) with (compare_key c c).
  change (compare_key (Some g) (Some g)) with (compare_key g g).
  rewrite !compare_refl. reflexivity.
Qed.

Lemma StronglySorted_impl_In {A : Type} (R R' : A -> A -> Prop) (l : list A) :
  (forall a b, In a l -> In b l -> R a b -> R' a b) ->
  StronglySorted R l -> StronglySorted R' l.
Proof.
  intros Imp S. induction S as [| x t St IH Fx]; constructor.
  - apply IH. intros a b Ia Ib. apply Imp; right; assumption.
  - rewrite Forall_forall in *. intros y Iy.
    apply Imp; [left; reflexivity | right; exact Iy | exact (Fx y Iy)].
Qed.

(** The rows of a key, as the aggregation reads them, are in period
    order. *)
Lemma group_rows_by_year (k : string * string) (df : list Obs.row) :
  StronglySorted (fun a b => (Obs.year a <= Obs.year b)%Z)
    (sort_values country_goal_year (observations_of k df)).
Proof.
  eapply StronglySorted_impl_In; [| apply sort_values_sorted].
  intros a b Ia Ib Le. simpl in Le.
  apply sorted_group_In in Ia. apply sorted_group_In in Ib.
  apply observations_of_In in Ia. apply observations_of_In in Ib.
  rewrite (same_group_order k a b (proj2 Ia) (proj2 Ib)) in Le.
  apply leb_key_Zle. exact Le.
Qed.

(** ['last'] on rows in period order yields the latest known value. *)
Lemma agg_last_latest_in {B : Type} (rows : list Obs.row) (f : Obs.row -> option B) :
  StronglySorted (fun a b => (Obs.year a <= Obs.year b)%Z) rows ->
  latest_in rows f (agg_last (map f rows)).
Proof.
  intros Srt. unfold latest_in. destruct (agg_last (map f rows)) as [v |] eqn:E.
  - destruct (agg_last_Some f rows v E) as [r1 [o [r2 [Er [Fo N]]]]].
    exists o. split; [rewrite Er; apply in_or_app; right; left; reflexivity |].
    split; [exact Fo |].
    intros o' Io' Fo'. rewrite Er in Io', Srt.
    apply in_app_or in Io'. destruct Io' as [I1 | [<- | I2]].
    + exact (sorted_before _ r1 r2 o Srt o' I1).
    + apply Z.le_refl.
    + exfalso. apply Fo'. exact (N o' I2).
  - intros o' Io'. exact (agg_last_None f rows E o' Io').
Qed.

Lemma latest_in_ext {B : Type} (rows rows' : list Obs.row) (f : Obs.row -> option B)
  (v : option B) :
  (forall o, In o rows <-> In o rows') -> latest_in rows f v -> latest_in rows' f v.
Proof.
  intros Ext. unfold latest_in. destruct v as [x |].
  - intros [o [Io [Fo Mx]]]. exists o. split; [apply Ext; exact Io |].
    split; [exact Fo |]. intros o' Io'. apply Mx. apply Ext. exact Io'.
  - intros N o' Io'. apply N. apply Ext. exact Io'.
Qed.

Lemma fold_max_int_spec (t : list Z) (x : Z) :
  In (fold_left Z.max t x) (x :: t)
  /\ forall y, In y (x :: t) -> (y <= fold_left Z.max t x)%Z.
Proof.
  revert x. induction t as [| z t IH]; intros x; simpl.
  - split; [auto | intros y [<- | []]; lia].
  - destruct (IH (Z.max x z)) as [I Le]. split.
    + destruct I as [E | I]; [| auto].
      destruct (Z.max_spec x z) as [[_ H] | [_ H]]; [right; left | left]; congruence.
    + intros y [<- | [<- | Iy]].
      * specialize (Le (Z.max x z) (or_introl eq_refl)). lia.
      * specialize (Le (Z.max x z) (or_introl eq_refl)). lia.
      * apply Le. right. exact Iy.
Qed.

(** X5: [value_latest] of a record is the value of the latest observation of
    its key that carries a value (missing when none does), and [latest_year]
    is the greatest year among the observations of the key. *)
Theorem X5_latest_value_and_year :
  forall np df features le_region le_income r,
    engineer_features np df = Returned (features, le_region, le_income) ->
    In r features ->
    latest_in (observations_of (feature_key r) df) Obs.avg_indicator_value
      (Prog.value_latest (Merged.prog (Feat.base r)))
    /\ exists o,
         In o (observations_of (feature_key r) df)
         /\ Prog.latest_year (Merged.prog (Feat.base r)) = Some (Obs.year o)
         /\ forall o', In o' (observations_of (feature_key r) df) ->
                       (Obs.year o' <= Obs.year o)%Z.
Proof.
  intros np df features le_region le_income r Eq Ir.
  destruct (feature_has_key np df features le_region le_income r Eq Ir)
    as [gdp [pop [life [lit [Ne Br]]]]].
  set (k := feature_key r) in *. rewrite Br.
  cbn [fill_row Merged.prog fill_trend Prog.value_latest Prog.latest_year].
  unfold group_row.
  cbn [Merged.prog agg_progress snd Prog.value_latest Prog.latest_year].
  set (rows := sort_values country_goal_year (observations_of k df)).
  assert (Mem : forall o, In o rows <-> In o (observations_of k df))
    by (intros o; apply sorted_group_In).
  split.
  - apply (latest_in_ext rows _ _ _ Mem).
    apply agg_last_latest_in. apply group_rows_by_year.
  - unfold agg_max_int. rewrite (dropna_map_Some Obs.year).
    destruct rows as [| o0 t] eqn:Er.
    { exfalso. destruct (observations_of k df) as [| o t] eqn:Eo; [congruence |].
      apply (proj2 (Mem o)). left. reflexivity. }
    cbn [map].
    destruct (fold_max_int_spec (map Obs.year t) (Obs.year o0)) as [I Le].
    change (Obs.year o0 :: map Obs.year t) with (map Obs.year (o0 :: t)) in I, Le.
    apply in_map_iff in I. destruct I as [o [Eo Io]].
    exists o. split; [apply Mem; exact Io |]. split; [rewrite Eo; reflexivity |].
    intros o' Io'. rewrite Eo. apply Le. apply in_map. apply Mem. exact Io'.
Qed.

(** X5 on the batch with a key observed in 2019 and in 2020. *)
Lemma X5_latest_value_and_year_witness :
  exists features le_region le_income r,
    engineer_features exact_floats mixed_batch = Returned (features, le_region, le_income)
    /\ In r features
    /\ Prog.value_latest (Merged.prog (Feat.base r)) = Some 50
    /\ Prog.latest_year (Merged.prog (Feat.base r)) = Some 2020%Z
    /\ latest_in (observations_of (feature_key r) mixed_batch) Obs.avg_indicator_value
         (Prog.value_latest (Merged.prog (Feat.base r))).
Proof.
  destruct (engineer_features exact_floats mixed_batch)
    as [[[features le_region] le_income] | e] eqn:Eq;
    [| vm_compute in Eq; discriminate Eq].
  pose proof Eq as Ec. vm_compute in Ec. injection Ec as Ef _ _.
  destruct features as [| r1 t]; try discriminate Ef.
  injection Ef as E1 _.
  assert (Ir : In r1 (r1 :: t)) by (left; reflexivity).
  destruct (X5_latest_value_and_year _ _ _ _ _ r1 Eq Ir) as [L _].
  exists (r1 :: t), le_region, le_income, r1.
  split; [reflexivity |]. split; [exact Ir |].
  split; [rewrite <- E1; reflexivity |].
  split; [rewrite <- E1; reflexivity | exact L].
Defined.

(** ** The order of the rows of the batch *)

Lemma leb_key_antisym {K : Type} {C : Compare K} {L : CompareLaws K}
  {E : CompareEq K} (x y : K) :
  leb_key x y = true -> leb_key y x = true -> x = y.
Proof.
  unfold leb_key. rewrite (compare_antisym x y).
  destruct (compare_key x y) eqn:Exy; simpl; try discriminate.
  intros _ _. apply compare_eq. exact Exy.
Qed.

(** Two ascending arrangements of the same rows agree when no two rows
    share a key. *)
Lemma sorted_perm_eq {A K : Type} {C : Compare K} {L : CompareLaws K}
  {E : CompareEq K} (by_ : A -> K) (l1 l2 : list A) :
  NoDup (map by_ l1) ->
  Permutation l1 l2 ->
  StronglySorted (fun a b => leb_key (by_ a) (by_ b) = true) l1 ->
  StronglySorted (fun a b => leb_key (by_ a) (by_ b) = true) l2 ->
  l1 = l2.
Proof.
  revert l2. induction l1 as [| a t1 IH]; intros l2 N P S1 S2.
  - apply Permutation_nil in P. congruence.
  - destruct l2 as [| b t2].
    { apply Permutation_sym, Permutation_nil in P. discriminate. }
    apply StronglySorted_inv in S1. destruct S1 as [S1 F1].
    apply StronglySorted_inv in S2. destruct S2 as [S2 F2].
    rewrite Forall_forall in F1, F2.
    simpl in N. inversion N as [| ? ? Na Nt]; subst.
    assert (Eab : a = b).
    { assert (Ib : In b (a :: t1))
        by (apply (Permutation_in b (Permutation_sym P)); left; reflexivity).
      assert (Ia : In a (b :: t2)) by (apply (Permutation_in a P); left; reflexivity).
      destruct Ib as [Eb | Ib]; [exact Eb |].
      destruct Ia as [Ea | Ia]; [congruence |].
      exfalso. apply Na.
      rewrite (leb_key_antisym (by_ a) (by_ b) (F1 b Ib) (F2 a Ia)).
      apply in_map. exact Ib. }
    subst b. f_equal.
    apply IH; [exact Nt | exact (Permutation_cons_inv P) | exact S1 | exact S2].
Qed.

(** Sorting forgets the order of arrival when no two rows share a key. *)
Lemma sort_values_perm_eq {A K : Type} {C : Compare K} {L : CompareLaws K}
  {E : CompareEq K} (by_ : A -> K) (l1 l2 : list A) :
  NoDup (map by_ l1) -> Permutation l1 l2 ->
  sort_values by_ l1 = sort_values by_ l2.
Proof.
  intros N P. apply (sorted_perm_eq by_).
  - apply (Permutation_NoDup (l := map by_ l1)); [| exact N].
    apply Permutation_map. apply Permutation_sym. apply sort_values_perm.
  - apply perm_trans with l1; [apply sort_values_perm |].
    apply perm_trans with l2; [exact P |].
    apply Permutation_sym. apply sort_values_perm.
  - apply sort_values_sorted.
  - apply sort_values_sorted.
Qed.

(** X6: when no two observations of the batch share country code, goal code
    and year, the result of [engineer_features] does not depend on the order
    in which the batch lists them. *)
Theorem X6_row_order_irrelevant :
  forall np df df',
    NoDup (map country_goal_year df) ->
    Permutation df df' ->
    engineer_features np df = engineer_features np df'.
Proof.
  intros np df df' N P.
  unfold engineer_features, merged_features.
  rewrite (sort_values_perm_eq country_goal_year df df' N P). reflexivity.
Qed.

(** X6 on the batch of four countries and its reverse. *)
Lemma X6_row_order_irrelevant_witness :
  engineer_features exact_floats trend_batch
  = engineer_features exact_floats (rev trend_batch).
Proof.
  apply X6_row_order_irrelevant.
  - vm_compute. repeat constructor; simpl; intuition discriminate.
  - apply Permutation_rev.
Defined.

(** ** Imputation of the economic attributes *)

Lemma median_missing (np : Floats) (c : list (option Q)) :
  median np c = None <-> forall x, In x c -> x = None.
Proof.
  rewrite median_unfold. cbn zeta. rewrite sort_Q_length. split.
  - intros E x Ix. destruct x as [y |]; [| reflexivity].
    apply dropna_In in Ix. exfalso.
    destruct (Nat.eqb (length (dropna c)) 0) eqn:En.
    + apply Nat.eqb_eq in En. destruct (dropna c); [destruct Ix | discriminate En].
    + destruct (Nat.even (length (dropna c))); discriminate E.
  - intros N. rewrite <- (map_id c).
    rewrite (dropna_all_missing (fun o : option Q => o) c N). reflexivity.
Qed.

(** The median lies between two values of the column. *)
Lemma median_in_range (np : Floats) (c : list (option Q)) (x : Q) :
  median np c = Some x ->
  exists a b, In (Some a) c /\ In (Some b) c /\ a <= x <= b.
Proof.
  intros Em. rewrite median_unfold in Em.
  set (s := sort_values (fun x : Q => x) (dropna c)) in *.
  pose proof (sort_Q_sorted (dropna c)) as Srt. fold s in Srt.
  assert (Hs : forall i, (i < length s)%nat -> In (Some (nth i s 0)) c).
  { intros i Hi. apply dropna_In.
    apply Permutation_in with s; [apply sort_values_perm |].
    apply nth_In. exact Hi. }
  destruct (Nat.eqb (length s) 0) eqn:En; [discriminate |].
  apply Nat.eqb_neq in En.
  assert (Hh : (length s / 2 < length s)%nat) by (apply Nat.div_lt; lia).
  set (h := (length s / 2)%nat) in *.
  destruct (Nat.even (length s)); injection Em as Em; rewrite <- Em.
  - exists (nth (h - 1) s 0), (nth h s 0).
    assert (Le : nth (h - 1) s 0 <= nth h s 0)
      by (apply sorted_nth_le; [exact Srt | lia | exact Hh]).
    split; [apply Hs; lia |]. split; [apply Hs; exact Hh |].
    apply (fmid_between np). exact Le.
  - exists (nth h s 0), (nth h s 0).
    split; [apply Hs; exact Hh |]. split; [apply Hs; exact Hh |].
    split; apply Qle_refl.
Qed.

Lemma fillna_imputed (np : Floats) (merged : list Merged.row)
  (get : Merged.row -> option Q) (m : Merged.row) :
  In m merged ->
  imputed np merged get (get m) (fillna (median np (column get merged)) (get m)).
Proof.
  intros Im. unfold imputed.
  assert (Ic : In (get m) (column get merged)) by (apply in_map; exact Im).
  destruct (get m) as [y |] eqn:Gm; simpl.
  - split; [intros x Ex; exact Ex |]. split; [discriminate |]. split.
    + split; [discriminate |]. intros N. rewrite <- Gm. apply N. exact Im.
    + intros x Ex. injection Ex as <-. exists y, y.
      split; [exact Ic |]. split; [exact Ic |]. split; apply Qle_refl.
  - split; [discriminate |]. split; [reflexivity |]. split.
    + rewrite median_missing. unfold column. split.
      * intros N m' Im'. apply N. apply in_map. exact Im'.
      * intros N x Ix. apply in_map_iff in Ix. destruct Ix as [m' [Ex Im']].
        rewrite <- Ex. apply N. exact Im'.
    + intros x Ex. apply (median_in_range np). exact Ex.
Qed.

(** X7: every record returned is a record of the merged frame with its
    economic attributes filled: an attribute that the merge gave is kept; a
    missing one becomes the median of that attribute over the merged frame,
    which lies between two joined values; it is still missing after the fill
    exactly when the merge gave it to no record. *)
Theorem X7_median_imputation :
  forall np df features le_region le_income r,
    engineer_features np df = Returned (features, le_region, le_income) ->
    In r features ->
    exists m,
      In m (merged_features np df)
      /\ merged_key m = feature_key r
      /\ imputed np (merged_features np df) gdp_per_capita
           (gdp_per_capita m) (gdp_per_capita (Feat.base r))
      /\ imputed np (merged_features np df) population
           (population m) (population (Feat.base r))
      /\ imputed np (merged_features np df) life_expectancy
           (life_expectancy m) (life_expectancy (Feat.base r))
      /\ imputed np (merged_features np df) adult_literacy_rate
           (adult_literacy_rate m) (adult_literacy_rate (Feat.base r)).
Proof.
  intros np df features le_region le_income r Eq Ir.
  destruct (engineer_features_base np df features le_region le_income Eq)
    as [B _].
  assert (Ib : In (Feat.base r) (map Feat.base features)) by (apply in_map; exact Ir).
  rewrite B in Ib. unfold fill_missing in Ib.
  apply in_map_iff in Ib. destruct Ib as [m [Em Im]].
  exists m. split; [exact Im |].
  split; [unfold feature_key; rewrite <- Em; reflexivity |].
  rewrite <- Em.
  unfold gdp_per_capita, population, life_expectancy, adult_literacy_rate.
  cbn [fill_row Merged.attrs Attr.gdp_per_capita Attr.population
       Attr.life_expectancy Attr.adult_literacy_rate].
  repeat split;
    first [ apply (fillna_imputed np _ gdp_per_capita m Im)
          | apply (fillna_imputed np _ population m Im)
          | apply (fillna_imputed np _ life_expectancy m Im)
          | apply (fillna_imputed np _ adult_literacy_rate m Im) ].
Qed.

(** X7 on the batch of four countries, the last without a GDP figure: it
    gets the median 300 of the other three. *)
Lemma X7_median_imputation_witness :
  exists features le_region le_income r m,
    engineer_features exact_floats trend_batch = Returned (features, le_region, le_income)
    /\ In r features
    /\ In m (merged_features exact_floats trend_batch)
    /\ merged_key m = feature_key r
    /\ gdp_per_capita m = None
    /\ gdp_per_capita (Feat.base r) = Some 300
    /\ imputed exact_floats (merged_features exact_floats trend_batch) gdp_per_capita
         (gdp_per_capita m) (gdp_per_capita (Feat.base r)).
Proof.
  destruct (engineer_features exact_floats trend_batch)
    as [[[features le_region] le_income] | e] eqn:Eq;
    [| vm_compute in Eq; discriminate Eq].
  pose proof Eq as Ec. vm_compute in Ec. injection Ec as Ef _ _.
  destruct features as [| r1 [| r2 [| r3 [| r4 t]]]]; try discriminate Ef.
  injection Ef as _ _ _ E4 _.
  assert (Ir : In r4 (r1 :: r2 :: r3 :: r4 :: t)) by (simpl; tauto).
  destruct (X7_median_imputation _ _ _ _ _ r4 Eq Ir) as [m [Im [Ek [G _]]]].
  exists (r1 :: r2 :: r3 :: r4 :: t), le_region, le_income, r4, m.
  split; [reflexivity |]. split; [exact Ir |]. split; [exact Im |].
  split; [exact Ek |].
  assert (Gm : gdp_per_capita m = None).
  { rewrite <- E4 in Ek. vm_compute in Im.
    destruct Im as [<- | [<- | [<- | [<- | []]]]];
      first [ reflexivity | vm_compute in Ek; discriminate Ek ]. }
  split; [exact Gm |]. split; [rewrite <- E4; reflexivity | exact G].
Defined.

(** ** Codes of the categorical columns *)

Lemma index_of_nth (v : string) (classes : list string) :
  In v classes ->
  nth_error classes (Sklearn.index_of v classes) = Some v
  /\ (Sklearn.index_of v classes < length classes)%nat.
Proof.
  induction classes as [| c t IH]; intros I; [destruct I |].
  simpl. destruct (eqb_key v c) eqn:B.
  - apply eqb_key_true in B. subst c. simpl. split; [reflexivity | lia].
  - destruct I as [-> | I].
    + rewrite (proj2 (eqb_key_true v v) eq_refl) in B. discriminate.
    + destruct (IH I) as [N Lt]. simpl. split; [exact N | lia].
Qed.

(** A column and the encoder fitted on it: every value of the column is a
    class, its code is the position of that class, and the classes are the
    values of the column in strictly ascending order. *)
Lemma fit_transform_round_trip (y : list string) (v : string) :
  In v y ->
  nth_error (Sklearn.classes_ (fst (Sklearn.fit_transform y)))
            (Z.to_nat (Sklearn.encode (fst (Sklearn.fit_transform y)) v)) = Some v
  /\ (0 <= Sklearn.encode (fst (Sklearn.fit_transform y)) v
      < Z.of_nat (length (Sklearn.classes_ (fst (Sklearn.fit_transform y)))))%Z.
Proof.
  intros I. unfold Sklearn.fit_transform, Sklearn.fit, Sklearn.encode.
  cbn [fst Sklearn.classes_].
  assert (Iu : In v (unique y)) by (apply unique_In; exact I).
  destruct (index_of_nth v (unique y) Iu) as [N Lt].
  rewrite Nat2Z.id. split; [exact N | lia].
Qed.

(** X8: the encoders returned decode the codes of the records: the class at
    position [region_encoded] is the region of the record, "Unknown" when
    the region is missing, and likewise for the income level; the codes lie
    within the classes; two records have the same code exactly when they
    have the same value; and the classes are in strictly ascending order. *)
Theorem X8_codes_decode :
  forall np df features le_region le_income,
    engineer_features np df = Returned (features, le_region, le_income) ->
    StronglySorted (fun a b => compare_key a b = Lt) (Sklearn.classes_ le_region)
    /\ StronglySorted (fun a b => compare_key a b = Lt) (Sklearn.classes_ le_income)
    /\ (forall r, In r features ->
          nth_error (Sklearn.classes_ le_region) (Z.to_nat (Feat.region_encoded r))
          = Some (fillna_with "Unknown"%string (region (Feat.base r)))
          /\ (0 <= Feat.region_encoded r
              < Z.of_nat (length (Sklearn.classes_ le_region)))%Z
          /\ nth_error (Sklearn.classes_ le_income) (Z.to_nat (Feat.income_encoded r))
             = Some (fillna_with "Unknown"%string (income_level (Feat.base r)))
          /\ (0 <= Feat.income_encoded r
              < Z.of_nat (length (Sklearn.classes_ le_income)))%Z)
    /\ (forall r1 r2, In r1 features -> In r2 features ->
          (Feat.region_encoded r1 = Feat.region_encoded r2
           <-> fillna_with "Unknown"%string (region (Feat.base r1))
               = fillna_with "Unknown"%string (region (Feat.base r2)))
          /\ (Feat.income_encoded r1 = Feat.income_encoded r2
              <-> fillna_with "Unknown"%string (income_level (Feat.base r1))
                  = fillna_with "Unknown"%string (income_level (Feat.base r2)))).
Proof.
  intros np df features le_region le_income Eq.
  pose proof Eq as Eq'. rewrite engineer_features_rows in Eq'.
  cbn zeta in Eq'. injection Eq' as Ef Er Ei.
  set (filled := fill_missing np (merged_features np df)) in *.
  assert (Rows : forall r, In r features ->
            In (Feat.base r) filled
            /\ Feat.region_encoded r
               = Sklearn.encode le_region (fillna_with "Unknown"%string (region (Feat.base r)))
            /\ Feat.income_encoded r
               = Sklearn.encode le_income
                   (fillna_with "Unknown"%string (income_level (Feat.base r)))).
  { intros r Ir. rewrite <- Ef in Ir. apply in_map_iff in Ir.
    destruct Ir as [m [Em Im]]. subst r. cbn [Feat.base Feat.region_encoded
      Feat.income_encoded]. rewrite Er, Ei. auto. }
  assert (Dec : forall r, In r features ->
            nth_error (Sklearn.classes_ le_region) (Z.to_nat (Feat.region_encoded r))
            = Some (fillna_with "Unknown"%string (region (Feat.base r)))
            /\ (0 <= Feat.region_encoded r
                < Z.of_nat (length (Sklearn.classes_ le_region)))%Z
            /\ nth_error (Sklearn.classes_ le_income) (Z.to_nat (Feat.income_encoded r))
               = Some (fillna_with "Unknown"%string (income_level (Feat.base r)))
            /\ (0 <= Feat.income_encoded r
                < Z.of_nat (length (Sklearn.classes_ le_income)))%Z).
  { intros r Ir. destruct (Rows r Ir) as [Ib [Cr Ci]]. rewrite Cr, Ci.
    rewrite <- Er, <- Ei.
    assert (Vr : In (fillna_with "Unknown"%string (region (Feat.base r)))
                    (categorical (map region filled))).
    { unfold categorical. rewrite map_map. apply in_map_iff.
      exists (Feat.base r). split; [reflexivity | exact Ib]. }
    assert (Vi : In (fillna_with "Unknown"%string (income_level (Feat.base r)))
                    (categorical (map income_level filled))).
    { unfold categorical. rewrite map_map. apply in_map_iff.
      exists (Feat.base r). split; [reflexivity | exact Ib]. }
    destruct (fit_transform_round_trip _ _ Vr) as [N1 B1].
    destruct (fit_transform_round_trip _ _ Vi) as [N2 B2].
    repeat split; first [ exact N1 | exact N2 | apply B1 | apply B2 ]. }
  split; [rewrite <- Er; apply unique_sorted |].
  split; [rewrite <- Ei; apply unique_sorted |].
  split; [exact Dec |].
  intros r1 r2 I1 I2.
  destruct (Dec r1 I1) as [N1 [_ [M1 _]]]. destruct (Dec r2 I2) as [N2 [_ [M2 _]]].
  destruct (Rows r1 I1) as [_ [C1 D1]]. destruct (Rows r2 I2) as [_ [C2 D2]].
  split; split; intros H.
  - rewrite H in N1. congruence.
  - rewrite C1, C2, H. reflexivity.
  - rewrite H in M1. congruence.
  - rewrite D1, D2, H. reflexivity.
Qed.

(** X8 on the batch of five countries in three regions. *)
Lemma X8_codes_decode_witness :
  exists features le_region le_income,
    engineer_features exact_floats region_batch = Returned (features, le_region, le_income)
    /\ Sklearn.classes_ le_region = ["Asia"; "Europe"; "Unknown"]%string
    /\ map Feat.region_encoded features = [2; 1; 1; 0; 0]%Z
    /\ StronglySorted (fun a b => compare_key a b = Lt) (Sklearn.classes_ le_region).
Proof.
  destruct (engineer_features exact_floats region_batch)
    as [[[features le_region] le_income] | e] eqn:Eq;
    [| vm_compute in Eq; discriminate Eq].
  pose proof (proj1 (X8_codes_decode _ _ _ _ _ Eq)) as S.
  exists features, le_region, le_income.
  split; [reflexivity |].
  vm_compute in Eq. injection Eq as Ef Er Ei. subst features le_region.
  split; [reflexivity |]. split; [reflexivity | exact S].
Defined.

(** ** The balance of the labels *)











(** * Further properties of [generate_predictions] *)

Lemma combine_same_length {A B : Type} (l : list A) (l' : list B) :
  length l' = length l ->
  map fst (combine l l') = l /\ map snd (combine l l') = l'.
Proof.
  revert l'. induction l as [| x t IH]; intros [| y t'] E; simpl in *;
    try discriminate; [split; reflexivity |].
  destruct (IH t') as [F S]; [lia |]. rewrite F, S. split; reflexivity.
Qed.

(** Selecting a column that the frame does not have raises. *)
Lemma select_unknown (cols : list string) (c : string) :
  In c cols -> lookup_column c frame_columns = None ->
  select cols = inl Sklearn.KeyError.
Proof.
  induction cols as [| d t IH]; intros I N; [destruct I |].
  cbn [select]. destruct I as [-> | I].
  - rewrite N. reflexivity.
  - rewrite (IH I N). destruct (lookup_column d frame_columns); reflexivity.
Qed.

(** X10: [generate_predictions] returns one row per record, in the order of
    the records and with the record unchanged, carrying the probabilities
    the model gave in that order.  It raises [KeyError] when a requested
    column does not exist, what [predict_proba] raises when it raises, and
    [ValueError] when the model gives a number of probabilities that is not
    the number of records. *)
Theorem X10_predictions_row_by_row :
  forall sk (model : Sklearn.Model sk) features cols,
    (forall out,
       generate_predictions sk model features cols = Returned out ->
       map Pred.feat out = features
       /\ exists X,
            feature_matrix cols features = Returned X
            /\ Sklearn.predict_proba_1 sk model X
               = inr (map Pred.prediction_2030_probability out))
    /\ (forall c, In c cols -> lookup_column c frame_columns = None ->
          generate_predictions sk model features cols
          = Raised (LibraryError Sklearn.KeyError))
    /\ (forall X pe,
          feature_matrix cols features = Returned X ->
          Sklearn.predict_proba_1 sk model X = inl pe ->
          generate_predictions sk model features cols = Raised (LibraryError pe))
    /\ (forall X ps,
          feature_matrix cols features = Returned X ->
          Sklearn.predict_proba_1 sk model X = inr ps ->
          length ps <> length features ->
          generate_predictions sk model features cols
          = Raised (LibraryError Sklearn.ValueError)).
Proof.
  intros sk model features cols. split; [| split; [| split]].
  - intros out. unfold generate_predictions, bind.
    destruct (feature_matrix cols features) as [X | e]; [| discriminate].
    destruct (Sklearn.predict_proba_1 sk model X) as [pe | ps] eqn:Ep;
      cbn [call]; [discriminate |].
    destruct (Nat.eqb (length ps) (length features)) eqn:El; [| discriminate].
    apply Nat.eqb_eq in El. intros Eo. injection Eo as <-.
    destruct (combine_same_length features ps El) as [F S].
    split.
    + rewrite map_map. cbn [predicted Pred.feat]. exact F.
    + exists X. split; [reflexivity |].
      rewrite map_map. cbn [predicted Pred.prediction_2030_probability].
      rewrite Ep. f_equal. symmetry. exact S.
  - intros c Ic Nc. unfold generate_predictions, feature_matrix, bind.
    rewrite (select_unknown cols c Ic Nc). reflexivity.
  - intros X pe EX Ep. unfold generate_predictions, bind.
    rewrite EX, Ep. reflexivity.
  - intros X ps EX Ep Ne. unfold generate_predictions, bind.
    rewrite EX, Ep. cbn [call].
    apply Nat.eqb_neq in Ne. rewrite Ne. reflexivity.
Qed.

(** X10 on the batch of four countries, with the stand-in estimator. *)
Lemma X10_predictions_row_by_row_witness :
  exists features model out,
    returned_features (engineer_features exact_floats trend_batch) = features
    /\ generate_predictions holdout_estimator model features feature_cols = Returned out
    /\ map Pred.feat out = features
    /\ generate_predictions holdout_estimator model features ["no_such_column"%string]
       = Raised (LibraryError Sklearn.KeyError).
Proof.
  set (features := returned_features (engineer_features exact_floats trend_batch)).
  set (model := [0; 1]%Z : Sklearn.Model holdout_estimator).
  destruct (generate_predictions holdout_estimator model features feature_cols)
    as [out | e] eqn:Eg; [| vm_compute in Eg; discriminate Eg].
  destruct (X10_predictions_row_by_row holdout_estimator model features feature_cols)
    as [R _].
  destruct (X10_predictions_row_by_row holdout_estimator model features
              ["no_such_column"%string]) as [_ [K _]].
  exists features, model, out.
  split; [reflexivity |]. split; [exact Eg |].
  split; [exact (proj1 (R out Eg)) |].
  apply (K "no_such_column"%string); [left; reflexivity | reflexivity].
Defined.

(** X11: a probability gets no category exactly when it is at most 0 or
    above 1; in particular a probability of exactly 0 gets none. *)
Theorem X11_category_missing_outside_bins :
  forall p, prediction_category p = None <-> p <= 0 \/ 1 < p.
Proof.
  intros p. rewrite prediction_category_bins.
  destruct (Qle_bool p 0) eqn:B0.
  { apply Qle_bool_iff in B0. tauto. }
  apply Qle_bool_false in B0.
  destruct (Qle_bool p (3 # 10)) eqn:B3.
  { apply Qle_bool_iff in B3. split; [discriminate | intros [H | H]; lra]. }
  destruct (Qle_bool p (5 # 10)) eqn:B5.
  { apply Qle_bool_iff in B5. split; [discriminate | intros [H | H]; lra]. }
  destruct (Qle_bool p (7 # 10)) eqn:B7.
  { apply Qle_bool_iff in B7. split; [discriminate | intros [H | H]; lra]. }
  destruct (Qle_bool p 1) eqn:B1.
  { apply Qle_bool_iff in B1. split; [discriminate | intros [H | H]; lra]. }
  apply Qle_bool_false in B1. tauto.
Qed.

(** Turns the tests of the bins into inequalities. *)
Ltac bins p :=
  rewrite (prediction_category_bins p) in *;
  destruct (Qle_bool p 0) eqn:?B0;
  destruct (Qle_bool p (3 # 10)) eqn:?B3;
  destruct (Qle_bool p (5 # 10)) eqn:?B5;
  destruct (Qle_bool p (7 # 10)) eqn:?B7;
  destruct (Qle_bool p 1) eqn:?B1;
  repeat match goal with
         | H : Qle_bool _ _ = true |- _ => apply Qle_bool_iff in H
         | H : Qle_bool _ _ = false |- _ => apply Qle_bool_false in H
         end.

(** X12: the flag and the category agree except at the one probability 0.5:
    "Moderate Progress" and "On Track" come with the flag 1, "Off Track" with
    the flag 0, and "At Risk" comes with the flag 1 exactly when the
    probability is 0.5. *)
Theorem X12_flag_agrees_with_category :
  forall p,
    (prediction_category p = Some "Off Track"%string -> prediction_on_track p = 0%Z)
    /\ (prediction_category p = Some "At Risk"%string ->
        (prediction_on_track p = 1%Z <-> p == 5 # 10))
    /\ (prediction_category p = Some "Moderate Progress"%string ->
        prediction_on_track p = 1%Z)
    /\ (prediction_category p = Some "On Track"%string -> prediction_on_track p = 1%Z).
Proof.
  intros p. repeat split.
  - intros C. apply prediction_on_track_zero. bins p; try discriminate C; lra.
  - intros F. apply prediction_on_track_one in F. bins p; try discriminate H; lra.
  - intros E. apply prediction_on_track_one. lra.
  - intros C. apply prediction_on_track_one. bins p; try discriminate C; lra.
  - intros C. apply prediction_on_track_one. bins p; try discriminate C; lra.
Qed.

(** X12 at the probability 0.5. *)
Lemma X12_flag_agrees_with_category_witness :
  prediction_category (5 # 10) = Some "At Risk"%string
  /\ prediction_on_track (5 # 10) = 1%Z.
Proof.
  split; [reflexivity |].
  apply (proj1 (proj2 (X12_flag_agrees_with_category (5 # 10)))); reflexivity.
Defined.

(** X13: a greater probability never gets a lower flag or an earlier
    category in the order Off Track, At Risk, Moderate Progress, On Track. *)
Theorem X13_flag_and_category_monotone :
  forall p q,
    p <= q ->
    (prediction_on_track p <= prediction_on_track q)%Z
    /\ forall c d,
         prediction_category p = Some c ->
         prediction_category q = Some d ->
         (Sklearn.index_of c category_labels <= Sklearn.index_of d category_labels)%nat.
Proof.
  intros p q Le. split.
  - unfold prediction_on_track.
    destruct (Qle_bool (5 # 10) p) eqn:Bp; destruct (Qle_bool (5 # 10) q) eqn:Bq;
      try lia.
    apply Qle_bool_iff in Bp. apply Qle_bool_false in Bq. lra.
  - intros c d C D. bins p; try discriminate C; bins q; try discriminate D;
      injection C as <-; injection D as <-;
      first [ (vm_compute; lia) | (exfalso; lra) ].
Qed.

(** X13 on the probabilities 0.4 and 0.6. *)
Lemma X13_flag_and_category_monotone_witness :
  (prediction_on_track (4 # 10) <= prediction_on_track (6 # 10))%Z
  /\ (Sklearn.index_of "At Risk" category_labels
      <= Sklearn.index_of "Moderate Progress" category_labels)%nat.
Proof.
  assert (Le : 4 # 10 <= 6 # 10) by qcmp.
  destruct (X13_flag_and_category_monotone (4 # 10) (6 # 10) Le) as [F C].
  split; [exact F |].
  apply C; reflexivity.
Defined.

(** * Codes of targets and indicators *)

Section SplitJoin.

Import Extract.

Variable sep : ascii.

Local Abbreviation sep_string := (String sep EmptyString).

Lemma append_assoc (a b c : string) : ((a ++ b) ++ c = a ++ (b ++ c))%string.
Proof. induction a as [| x a IH]; simpl; [| rewrite IH]; reflexivity. Qed.

Lemma split_on_nonempty (s : string) : split_on sep s <> [].
Proof.
  destruct s as [| c s]; simpl; [discriminate |].
  destruct (Ascii.eqb c sep); [discriminate |].
  destruct (split_on sep s); discriminate.
Qed.

(** Joining the pieces of a string gives the string back. *)
Lemma concat_split_on (s : string) :
  String.concat sep_string (split_on sep s) = s.
Proof.
  induction s as [| c s IH]; simpl; [reflexivity |].
  destruct (Ascii.eqb c sep) eqn:Ec.
  - apply Ascii.eqb_eq in Ec. subst c.
    destruct (split_on sep s) as [| h t] eqn:Es;
      [exfalso; exact (split_on_nonempty s Es) |].
    rewrite <- IH. reflexivity.
  - destruct (split_on sep s) as [| h t] eqn:Es;
      [exfalso; exact (split_on_nonempty s Es) |].
    rewrite <- IH. destruct t as [| h' t']; reflexivity.
Qed.

(** No piece contains the separator. *)
Lemma split_on_pieces (s : string) :
  Forall (fun x => count_char sep x = 0%nat) (split_on sep s).
Proof.
  induction s as [| c s IH]; simpl; [repeat constructor |].
  destruct (Ascii.eqb c sep) eqn:Ec; [constructor; [reflexivity | exact IH] |].
  destruct (split_on sep s) as [| h t]; [repeat constructor; simpl; rewrite Ec; reflexivity |].
  inversion IH as [| ? ? Hh Ht]; subst.
  constructor; [simpl; rewrite Ec; exact Hh | exact Ht].
Qed.

(** There is one piece more than there are separators. *)
Lemma split_on_length (s : string) :
  length (split_on sep s) = S (count_char sep s).
Proof.
  induction s as [| c s IH]; simpl; [reflexivity |].
  destruct (Ascii.eqb c sep); [simpl; rewrite IH; reflexivity |].
  destruct (split_on sep s) as [| h t] eqn:Es;
    [exfalso; exact (split_on_nonempty s Es) |].
  simpl in *. exact IH.
Qed.

Lemma split_on_piece (h : string) :
  count_char sep h = 0%nat -> split_on sep h = [h].
Proof.
  induction h as [| c h IH]; simpl; [reflexivity |].
  destruct (Ascii.eqb c sep); [discriminate |].
  intros N. rewrite (IH N). reflexivity.
Qed.

Lemma split_on_app (h r : string) :
  count_char sep h = 0%nat ->
  split_on sep (h ++ String sep r) = h :: split_on sep r.
Proof.
  induction h as [| c h IH]; simpl.
  - intros _. rewrite Ascii.eqb_refl. reflexivity.
  - destruct (Ascii.eqb c sep); [discriminate |].
    intros N. rewrite (IH N). reflexivity.
Qed.

(** Splitting the join of pieces without separator gives the pieces back. *)
Lemma split_on_concat (l : list string) :
  l <> [] ->
  Forall (fun x => count_char sep x = 0%nat) l ->
  split_on sep (String.concat sep_string l) = l.
Proof.
  induction l as [| h t IH]; intros Ne F; [congruence |].
  inversion F as [| ? ? Hh Ht]; subst.
  destruct t as [| h' t'].
  - simpl. apply split_on_piece. exact Hh.
  - replace (String.concat sep_string (h :: h' :: t'))
      with (h ++ String sep (String.concat sep_string (h' :: t')))%string
      by reflexivity.
    rewrite (split_on_app _ _ Hh). f_equal.
    apply IH; [discriminate | exact Ht].
Qed.

End SplitJoin.

(** X14: taking the goal code of a target or indicator code never fails; the
    goal code contains no dot, and the code is the goal code itself, when it
    contains no dot, or the goal code followed by a dot and a remainder. *)
Theorem X14_goal_code_of_code :
  forall code,
    exists g,
      Extract.goal_code_of code = Some g
      /\ Extract.count_char "."%char g = 0%nat
      /\ (code = g \/ exists rest, code = (g ++ "." ++ rest)%string)
      /\ (Extract.count_char "."%char code = 0%nat -> g = code).
Proof.
  intros code. unfold Extract.goal_code_of.
  pose proof (concat_split_on "."%char code) as J.
  pose proof (split_on_pieces "."%char code) as P.
  pose proof (split_on_length "."%char code) as Len.
  destruct (Extract.split_on "."%char code) as [| g t] eqn:Es;
    [exfalso; exact (split_on_nonempty "."%char code Es) |].
  exists g. split; [reflexivity |].
  pose proof (Forall_inv P) as Pg. pose proof (Forall_inv_tail P) as Pt.
  split; [exact Pg |].
  destruct t as [| h t'].
  - simpl in J. split; [left; congruence | intros _; exact J].
  - split.
    + right. exists (String.concat "." (h :: t')). rewrite <- J. reflexivity.
    + intros N. rewrite N in Len. simpl in Len. discriminate Len.
Qed.

(** X15: the target code derived from an indicator code is the code itself,
    when it contains at most one dot, or else its part before the second
    dot; it contains one dot when the code contains any, and none otherwise;
    the goal code derived from the target code is the goal code derived from
    the indicator code; and deriving the target code again changes nothing. *)
Theorem X15_target_code_of_code :
  forall code,
    (Extract.target_code_of code = code
     \/ exists rest,
          code = (Extract.target_code_of code ++ "." ++ rest)%string)
    /\ ((Extract.count_char "."%char code <= 1)%nat ->
        Extract.target_code_of code = code)
    /\ Extract.count_char "."%char (Extract.target_code_of code)
       = Nat.min 1 (Extract.count_char "."%char code)
    /\ Extract.goal_code_of (Extract.target_code_of code) = Extract.goal_code_of code
    /\ Extract.target_code_of (Extract.target_code_of code)
       = Extract.target_code_of code.
Proof.
  intros code. unfold Extract.goal_code_of, Extract.target_code_of.
  pose proof (concat_split_on "."%char code) as J.
  pose proof (split_on_pieces "."%char code) as P.
  pose proof (split_on_length "."%char code) as Len.
  destruct (Extract.split_on "."%char code) as [| g t] eqn:Es;
    [exfalso; exact (split_on_nonempty "."%char code Es) |].
  pose proof (Forall_inv P) as Pg. pose proof (Forall_inv_tail P) as Pt.
  destruct t as [| a t'].
  - cbn [firstn String.concat] in *.
    assert (N : Extract.count_char "."%char code = 0%nat) by (simpl in Len; lia).
    rewrite J, Es. cbn [firstn String.concat hd_error]. rewrite N, J.
    repeat split; auto.
  - pose proof (Forall_inv Pt) as Pa.
    assert (Sp : Extract.split_on "."%char (String.concat "." [g; a]) = [g; a]).
    { apply split_on_concat; [discriminate | repeat constructor; assumption]. }
    cbn [firstn]. rewrite Sp. cbn [firstn hd_error].
    assert (C : Extract.count_char "."%char (String.concat "." [g; a]) = 1%nat).
    { pose proof (split_on_length "."%char (String.concat "." [g; a])) as L2.
      rewrite Sp in L2. cbn [length] in L2. injection L2 as L2. symmetry. exact L2. }
    split; [| split; [| split; [| split; reflexivity]]].
    + destruct t' as [| b t''].
      * left. exact J.
      * right. exists (String.concat "." (b :: t'')). rewrite <- J.
        cbn [String.concat]. rewrite !append_assoc. reflexivity.
    + intros Le. simpl in Len. destruct t' as [| b t'']; [exact J |].
      simpl in Len. lia.
    + rewrite C. simpl in Len. lia.
Qed.

(** * The World Bank extractor *)

Section ExtractorFacts.

Import WorldBank.

Variable fetch : nat -> option response.
Variable int_of_string : string -> option Z.
Variables code name_ : string.

Local Abbreviation extract_from_ := (extract_from fetch int_of_string code name_).

(** Fuel beyond what the loop uses changes nothing. *)
Lemma extract_from_more_fuel (fuel k page : nat) (acc : list row) (res : result) :
  extract_from_ fuel page acc = Some res ->
  extract_from_ (fuel + k) page acc = Some res.
Proof.
  revert page acc. induction fuel as [| f IH]; intros page acc; [discriminate |].
  cbn [extract_from Nat.add].
  destruct (fetch page) as [[| m [| r t]] |]; try (intros E; exact E).
  destruct (page_rows int_of_string code name_ (r :: t)) as [rows |];
    [| intros E; exact E].
  destruct (Nat.leb (total_pages m) page); [intros E; exact E |].
  apply IH.
Qed.

(** The loop stops once it has requested the last page the server
    announces. *)
Lemma extract_from_bounded (P : nat) :
  (forall page m records, fetch page = Some (Page m records) ->
                          (total_pages m <= P)%nat) ->
  forall fuel page acc,
    (1 <= fuel)%nat -> (P < fuel + page)%nat ->
    extract_from_ fuel page acc <> None.
Proof.
  intros Bound. induction fuel as [| f IH]; intros page acc H1 HP; [lia |].
  cbn [extract_from].
  destruct (fetch page) as [[| m [| r t]] |] eqn:Ef; try discriminate.
  destruct (page_rows int_of_string code name_ (r :: t)) as [rows |];
    [| discriminate].
  destruct (Nat.leb (total_pages m) page) eqn:El; [discriminate |].
  apply Nat.leb_gt in El. pose proof (Bound page m (r :: t) Ef) as B.
  apply IH; lia.
Qed.

Lemma row_of_spec (r : record) (x : row) :
  row_of int_of_string code name_ r = Some (Some x) ->
  exists v, value r = Some v
            /\ indicator_code x = code /\ indicator_name x = name_
            /\ row_value x = (if Qeq_bool v 0 then None else Some v).
Proof.
  unfold row_of. destruct (value r) as [v |]; [| discriminate].
  destruct (match date r with Some s => int_of_string s | None => Some 0%Z end)
    as [y |]; [| discriminate].
  intros E. injection E as <-. exists v. repeat split; reflexivity.
Qed.

Lemma page_rows_In (records : list record) (rows : list row) (x : row) :
  page_rows int_of_string code name_ records = Some rows ->
  In x rows ->
  exists r, In r records /\ row_of int_of_string code name_ r = Some (Some x).
Proof.
  revert rows. induction records as [| r t IH]; intros rows E I; simpl in E.
  - injection E as <-. destruct I.
  - destruct (row_of int_of_string code name_ r) as [o |] eqn:Er; [| discriminate].
    destruct (page_rows int_of_string code name_ t) as [rows' |]; [| discriminate].
    injection E as <-.
    destruct o as [y |].
    + destruct I as [<- | I].
      * exists r. split; [left; reflexivity | exact Er].
      * destruct (IH rows' eq_refl I) as [r' [Ir' Er']].
        exists r'. split; [right; exact Ir' | exact Er'].
    + destruct (IH rows' eq_refl I) as [r' [Ir' Er']].
      exists r'. split; [right; exact Ir' | exact Er'].
Qed.

(** Every row the loop returns comes from a record of a page it
    requested. *)
Lemma extract_from_rows (Inv : row -> Prop) :
  (forall page m records r x,
     fetch page = Some (Page m records) -> In r records ->
     row_of int_of_string code name_ r = Some (Some x) -> Inv x) ->
  forall fuel page acc rows,
    Forall Inv acc ->
    extract_from_ fuel page acc = Some (Rows rows) ->
    Forall Inv rows.
Proof.
  intros Step. induction fuel as [| f IH]; intros page acc rows Ha; [discriminate |].
  cbn [extract_from].
  destruct (fetch page) as [[| m [| r t]] |] eqn:Ef; try discriminate;
    try (intros E; injection E as <-; exact Ha).
  destruct (page_rows int_of_string code name_ (r :: t)) as [rows' |] eqn:Ep;
    [| discriminate].
  assert (Ha' : Forall Inv (acc ++ rows')).
  { apply Forall_app. split; [exact Ha |]. apply Forall_forall. intros x Ix.
    destruct (page_rows_In _ _ x Ep Ix) as [r' [Ir' Er']].
    exact (Step page m (r :: t) r' x Ef Ir' Er'). }
  destruct (Nat.leb (total_pages m) page).
  - intros E. injection E as <-. exact Ha'.
  - apply IH. exact Ha'.
Qed.

End ExtractorFacts.

(** X16: when no response announces more than [P] pages, the loop of
    [extract_indicator] ends within [max 1 P] requests, with the rows or with
    the exception of a request or conversion; and what it comes to does not
    depend on how many more requests it would be allowed. *)
Theorem X16_pagination_ends :
  forall fetch int_of_string code name_ P,
    (forall page m records,
       fetch page = Some (WorldBank.Page m records) ->
       (WorldBank.total_pages m <= P)%nat) ->
    exists res,
      WorldBank.extract_indicator fetch int_of_string code name_ (Nat.max 1 P)
      = Some res
      /\ forall fuel,
           (Nat.max 1 P <= fuel)%nat ->
           WorldBank.extract_indicator fetch int_of_string code name_ fuel = Some res.
Proof.
  intros fetch int_of_string code name_ P Bound.
  unfold WorldBank.extract_indicator.
  destruct (WorldBank.extract_from fetch int_of_string code name_ (Nat.max 1 P) 1 [])
    as [res |] eqn:E.
  - exists res. split; [reflexivity |]. intros fuel Le.
    replace fuel with (Nat.max 1 P + (fuel - Nat.max 1 P))%nat by lia.
    apply extract_from_more_fuel. exact E.
  - exfalso.
    apply (extract_from_bounded fetch int_of_string code name_ P Bound
             (Nat.max 1 P) 1%nat []); [lia | lia | exact E].
Qed.

(** X17: every row [extract_indicator] returns carries the indicator code
    and name it was called with, and comes from a record, of a page it
    requested, whose value is not null; the row carries that value unless it
    is 0: a measured 0 is stored as a missing value, so no row has the
    value 0. *)
Theorem X17_rows_and_zero_values :
  forall fetch int_of_string code name_ fuel rows,
    WorldBank.extract_indicator fetch int_of_string code name_ fuel
    = Some (WorldBank.Rows rows) ->
    forall x,
      In x rows ->
      WorldBank.indicator_code x = code
      /\ WorldBank.indicator_name x = name_
      /\ (forall v, WorldBank.row_value x = Some v -> ~ v == 0)
      /\ exists page m records r v,
           fetch page = Some (WorldBank.Page m records)
           /\ In r records
           /\ WorldBank.value r = Some v
           /\ WorldBank.row_value x = (if Qeq_bool v 0 then None else Some v).
Proof.
  intros fetch int_of_string code name_ fuel rows E.
  apply Forall_forall.
  apply (extract_from_rows fetch int_of_string code name_ _) with (fuel := fuel)
    (page := 1%nat) (acc := @nil WorldBank.row); [| constructor | exact E].
  intros page m records r x Ef Ir Er.
  destruct (row_of_spec int_of_string code name_ r x Er) as [v [Ev [Ec [En Erv]]]].
  split; [exact Ec |]. split; [exact En |]. split.
  - intros w Ew. rewrite Erv in Ew.
    destruct (Qeq_bool v 0) eqn:B; [discriminate |].
    injection Ew as <-. apply Qeq_bool_neq. exact B.
  - exists page, m, records, r, v. auto.
Qed.

(** X16 on the server with two pages. *)
Lemma X16_pagination_ends_witness :
  exists rows,
    WorldBank.extract_indicator two_pages int_of_digits "SP.POP.TOTL" "Population" 2
    = Some (WorldBank.Rows rows)
    /\ map WorldBank.year rows = [2020; 2021; 2023]%Z
    /\ forall fuel,
         (2 <= fuel)%nat ->
         WorldBank.extract_indicator two_pages int_of_digits "SP.POP.TOTL" "Population" fuel
         = Some (WorldBank.Rows rows).
Proof.
  assert (Bound : forall page m records,
            two_pages page = Some (WorldBank.Page m records) ->
            (WorldBank.total_pages m <= 2)%nat).
  { intros [| [| [| n]]] m records E; simpl in E; try discriminate;
      injection E as Em _; rewrite <- Em;
      cbv [WorldBank.total_pages WorldBank.pages]; lia. }
  destruct (X16_pagination_ends two_pages int_of_digits
              "SP.POP.TOTL" "Population" 2%nat Bound) as [res [E More]].
  simpl Nat.max in *.
  destruct res as [rows |]; [| vm_compute in E; discriminate E].
  exists rows. split; [exact E |]. split; [| exact More].
  vm_compute in E. injection E as <-. reflexivity.
Defined.

(** X17 on the server with two pages: the measured 0 of 2021 is stored as a
    missing value, the null of 2022 gives no row. *)
Lemma X17_rows_and_zero_values_witness :
  exists rows,
    WorldBank.extract_indicator two_pages int_of_digits "SP.POP.TOTL" "Population" 2
    = Some (WorldBank.Rows rows)
    /\ map WorldBank.row_value rows = [Some 5; None; Some 7]
    /\ forall x, In x rows -> forall v, WorldBank.row_value x = Some v -> ~ v == 0.
Proof.
  destruct (WorldBank.extract_indicator two_pages int_of_digits
              "SP.POP.TOTL" "Population" 2) as [[rows |] |] eqn:E;
    try (vm_compute in E; discriminate E).
  exists rows. split; [reflexivity |]. split.
  - vm_compute in E. injection E as <-. reflexivity.
  - intros x Ix.
    exact (proj1 (proj2 (proj2 (X17_rows_and_zero_values _ _ _ _ _ _ E x Ix)))).
Defined.

(** * The rankings printed by [main] *)

Lemma StronglySorted_app {A : Type} (R : A -> A -> Prop) (l1 l2 : list A) :
  StronglySorted R l1 -> StronglySorted R l2 ->
  (forall a b, In a l1 -> In b l2 -> R a b) ->
  StronglySorted R (l1 ++ l2).
Proof.
  induction l1 as [| x t IH]; intros S1 S2 Cross; simpl; [exact S2 |].
  apply StronglySorted_inv in S1. destruct S1 as [St Fx].
  constructor.
  - apply IH; [exact St | exact S2 |].
    intros a b Ia Ib. apply Cross; [right; exact Ia | exact Ib].
  - apply Forall_app. split; [exact Fx |].
    apply Forall_forall. intros b Ib. apply Cross; [left; reflexivity | exact Ib].
Qed.

Lemma StronglySorted_rev {A : Type} (R : A -> A -> Prop) (l : list A) :
  StronglySorted R l -> StronglySorted (fun a b => R b a) (rev l).
Proof.
  induction 1 as [| x t St IH Fx]; simpl; [constructor |].
  apply StronglySorted_app; [exact IH | repeat constructor |].
  intros a b Ia [<- | []]. rewrite Forall_forall in Fx.
  apply Fx. apply in_rev. exact Ia.
Qed.

Lemma StronglySorted_split {A : Type} (R : A -> A -> Prop) (l1 l2 : list A) :
  StronglySorted R (l1 ++ l2) ->
  StronglySorted R l1 /\ forall a b, In a l1 -> In b l2 -> R a b.
Proof.
  induction l1 as [| x t IH]; simpl; intros S.
  - split; [constructor | intros a b []].
  - apply StronglySorted_inv in S. destruct S as [St Fx].
    destruct (IH St) as [S1 Cross]. rewrite Forall_forall in Fx. split.
    + constructor; [exact S1 |]. apply Forall_forall. intros y Iy.
      apply Fx. apply in_or_app. left. exact Iy.
    + intros a b [<- | Ia] Ib; [apply Fx; apply in_or_app; right; exact Ib |].
      exact (Cross a b Ia Ib).
Qed.

Lemma filter_all {A : Type} (p : A -> bool) (l : list A) :
  (forall x, In x l -> p x = true) ->
  filter p l = l /\ filter (fun x => negb (p x)) l = [].
Proof.
  induction l as [| x t IH]; intros H; simpl; [split; reflexivity |].
  rewrite (H x (or_introl eq_refl)). simpl.
  destruct (IH (fun y I => H y (or_intror I))) as [E1 E2].
  rewrite E1, E2. split; reflexivity.
Qed.

(** A frame without missing keys, sorted descending. *)
Lemma sort_values_desc_present {A : Type} (by_ : A -> option Q) (l : list A) :
  (forall x, In x l -> is_present (by_ x) = true) ->
  Permutation (sort_values_desc by_ l) l
  /\ StronglySorted (fun a b => leb_key (by_ b) (by_ a) = true) (sort_values_desc by_ l).
Proof.
  intros P. unfold sort_values_desc.
  destruct (filter_all _ l P) as [E1 E2]. rewrite E1, E2, app_nil_r. split.
  - apply perm_trans with (sort_values by_ (rev l)).
    + apply Permutation_sym. apply Permutation_rev.
    + apply perm_trans with (rev l); [apply sort_values_perm |].
      apply Permutation_sym. apply Permutation_rev.
  - apply (StronglySorted_rev (fun a b => leb_key (by_ a) (by_ b) = true)).
    apply sort_values_sorted.
Qed.

(** The groups of a frame are not empty, and hold rows of their key. *)
Lemma groupby_groups {A : Type} (key : A -> option string) (l : list A)
  (g : string * list A) :
  In g (groupby key l) ->
  snd g <> [] /\ forall r, In r (snd g) -> In r l /\ key r = Some (fst g).
Proof.
  unfold groupby. intros I. apply in_map_iff in I. destruct I as [k [Eg Ik]].
  subst g. cbn [fst snd]. rewrite unique_In, dropna_In, in_map_iff in Ik.
  destruct Ik as [r [Er Ir]]. split.
  - intros Em.
    assert (If : In r (filter (fun r => in_group k (key r)) l)).
    { apply filter_In. split; [exact Ir | apply in_group_true; exact Er]. }
    rewrite Em in If. destruct If.
  - intros r' I'. apply filter_In in I'. destruct I' as [I' G].
    apply in_group_true in G. auto.
Qed.

(** Every entry of the means is a country of some prediction with the mean
    of the probabilities of its predictions, which lies in [[0, 1]] when the
    probabilities do. *)
Lemma mean_probability_entry (np : Floats) (predictions : list Pred.row)
  (e : string * option Q) :
  In e (mean_probability np predictions) ->
  exists m,
    snd e = Some m
    /\ (exists r, In r predictions /\ prediction_country_name r = Some (fst e))
    /\ ((forall r, In r predictions ->
                   0 <= Pred.prediction_2030_probability r <= 1) ->
        0 <= m <= 1).
Proof.
  unfold mean_probability. intros I. apply in_map_iff in I.
  destruct I as [g [Ee Ig]]. subst e. cbn [fst snd].
  destruct (groupby_groups _ _ g Ig) as [Ne Rows].
  unfold agg_mean. rewrite (dropna_map_Some Pred.prediction_2030_probability).
  destruct (snd g) as [| r t] eqn:Es; [congruence |].
  cbn [map]. eexists. split; [reflexivity |]. split.
  - exists r. apply Rows. left. reflexivity.
  - intros B.
    change (Pred.prediction_2030_probability r
            :: map Pred.prediction_2030_probability t)
      with (map Pred.prediction_2030_probability (r :: t)).
    apply (fmean_unit np); [discriminate |].
    intros y Iy. apply in_map_iff in Iy. destruct Iy as [r' [Ey Ir']].
    subst y. apply B. apply Rows. exact Ir'.
Qed.

Lemma mean_probability_names (np : Floats) (predictions : list Pred.row) :
  NoDup (map fst (mean_probability np predictions)).
Proof.
  unfold mean_probability, groupby. rewrite !map_map. cbn [fst].
  rewrite map_id. apply unique_NoDup.
Qed.

Lemma leb_key_mean_le (a b : string * option Q) :
  is_present (snd a) = true -> is_present (snd b) = true ->
  leb_key (snd a) (snd b) = true -> mean_le a b.
Proof.
  unfold mean_le. destruct (snd a) as [x |], (snd b) as [y |]; try discriminate.
  intros _ _ L. exists x, y. split; [reflexivity |]. split; [reflexivity |].
  apply leb_key_Qle. exact L.
Qed.

Lemma mean_probability_present (np : Floats) (predictions : list Pred.row)
  (e : string * option Q) :
  In e (mean_probability np predictions) -> is_present (snd e) = true.
Proof.
  intros I. destruct (mean_probability_entry np predictions e I) as [m [Em _]].
  rewrite Em. reflexivity.
Qed.

(** X18: the first list [main] prints holds the ten countries of greatest
    mean probability, or all countries when there are fewer: it is made of
    entries of the means by country, each country at most once, in
    descending order of the mean, and no country left out has a greater mean
    than a country listed. *)
Theorem X18_top_countries :
  forall np predictions,
    exists rest,
      Permutation (mean_probability np predictions)
        (top_countries np predictions ++ rest)
      /\ length (top_countries np predictions)
         = Nat.min 10 (length (mean_probability np predictions))
      /\ NoDup (map fst (top_countries np predictions))
      /\ StronglySorted (fun a b => mean_le b a) (top_countries np predictions)
      /\ (forall a b,
            In a (top_countries np predictions) -> In b rest -> mean_le b a).
Proof.
  intros np predictions. unfold top_countries.
  set (means := mean_probability np predictions).
  destruct (sort_values_desc_present snd means
              (mean_probability_present np predictions))
    as [P S].
  set (d := sort_values_desc snd means) in *.
  exists (skipn 10 d).
  assert (Present : forall e, In e d -> is_present (snd e) = true).
  { intros e Ie. apply (mean_probability_present np predictions).
    exact (Permutation_in e P Ie). }
  assert (S' : StronglySorted (fun a b => mean_le b a) d).
  { eapply StronglySorted_impl_In; [| exact S].
    intros a b Ia Ib L. apply leb_key_mean_le; auto. }
  rewrite <- (firstn_skipn 10 d) in S'.
  destruct (StronglySorted_split _ _ _ S') as [St Cross].
  split; [rewrite firstn_skipn; apply Permutation_sym; exact P |].
  split; [rewrite length_firstn; rewrite (Permutation_length P); reflexivity |].
  split; [| split; [exact St | exact Cross]].
  assert (N : NoDup (map fst d)).
  { apply (Permutation_NoDup (l := map fst means));
      [apply Permutation_map; apply Permutation_sym; exact P |].
    apply mean_probability_names. }
  rewrite <- (firstn_skipn 10 d), map_app in N.
  exact (NoDup_app_remove_r _ _ N).
Qed.

(** X19: the second list [main] prints holds the ten countries of least mean
    probability, or all countries when there are fewer, in ascending order of
    the mean, and no country left out has a smaller mean than a country
    listed. *)
Theorem X19_bottom_countries :
  forall np predictions,
    exists rest,
      Permutation (mean_probability np predictions)
        (bottom_countries np predictions ++ rest)
      /\ length (bottom_countries np predictions)
         = Nat.min 10 (length (mean_probability np predictions))
      /\ NoDup (map fst (bottom_countries np predictions))
      /\ StronglySorted mean_le (bottom_countries np predictions)
      /\ (forall a b,
            In a (bottom_countries np predictions) -> In b rest -> mean_le a b).
Proof.
  intros np predictions. unfold bottom_countries.
  set (means := mean_probability np predictions).
  pose proof (sort_values_perm snd means) as P.
  pose proof (sort_values_sorted snd means) as S.
  set (d := sort_values snd means) in *.
  exists (skipn 10 d).
  assert (Present : forall e, In e d -> is_present (snd e) = true).
  { intros e Ie. apply (mean_probability_present np predictions).
    exact (Permutation_in e P Ie). }
  assert (S' : StronglySorted mean_le d).
  { eapply StronglySorted_impl_In; [| exact S].
    intros a b Ia Ib L. apply leb_key_mean_le; auto. }
  rewrite <- (firstn_skipn 10 d) in S'.
  destruct (StronglySorted_split _ _ _ S') as [St Cross].
  split; [rewrite firstn_skipn; apply Permutation_sym; exact P |].
  split; [rewrite length_firstn; rewrite (Permutation_length P); reflexivity |].
  split; [| split; [exact St | exact Cross]].
  assert (N : NoDup (map fst d)).
  { apply (Permutation_NoDup (l := map fst means));
      [apply Permutation_map; apply Permutation_sym; exact P |].
    apply mean_probability_names. }
  rewrite <- (firstn_skipn 10 d), map_app in N.
  exact (NoDup_app_remove_r _ _ N).
Qed.

Lemma int_of_float_mono (x y : Q) :
  0 <= x -> x <= y -> (0 <= int_of_float x <= int_of_float y)%Z.
Proof.
  intros L U. unfold int_of_float.
  rewrite (proj2 (Qle_bool_iff 0 x) L).
  rewrite (proj2 (Qle_bool_iff 0 y) (Qle_trans _ _ _ L U)).
  split.
  - rewrite <- (Qfloor_Z 0). apply Qfloor_resp_le. exact L.
  - apply Qfloor_resp_le. exact U.
Qed.

Lemma int_of_float_bounds (x : Q) (n : Z) :
  0 <= x -> x <= inject_Z n -> (0 <= int_of_float x <= n)%Z.
Proof.
  intros L U. destruct (int_of_float_mono x (inject_Z n) L U) as [Lo Hi].
  split; [exact Lo |].
  unfold int_of_float in Hi at 2.
  rewrite (proj2 (Qle_bool_iff 0 (inject_Z n)) (Qle_trans _ _ _ L U)) in Hi.
  rewrite Qfloor_Z in Hi. exact Hi.
Qed.

(** Rounding keeps a number between two integers between them. *)
Lemma fround_range (np : Floats) (x : Q) (a b : Z) :
  (Z.abs a <= 2 ^ 53)%Z -> (Z.abs b <= 2 ^ 53)%Z ->
  inject_Z a <= x <= inject_Z b ->
  inject_Z a <= fround np x <= inject_Z b.
Proof.
  intros Ha Hb [L U]. split.
  - rewrite <- (fround_int np a Ha). apply (fround_mono np). exact L.
  - rewrite <- (fround_int np b Hb). apply (fround_mono np). exact U.
Qed.

Lemma fround_unit_times_30 (np : Floats) (x : Q) :
  0 <= x <= 1 -> 0 <= fround np (x * 30) <= 30.
Proof.
  intros [L U].
  apply (fround_range np (x * 30) 0 30);
    [vm_compute; discriminate | vm_compute; discriminate |].
  change (inject_Z 0) with 0. change (inject_Z 30) with 30. lra.
Qed.

(** X20: when every probability lies between 0 and 1, so does the mean of
    every country, and the bars [main] prints beside the two lists have at
    most 30 glyphs; a greater mean never gets a shorter bar in the first
    list. *)
Theorem X20_bars_within_thirty :
  forall np predictions,
    (forall r, In r predictions -> 0 <= Pred.prediction_2030_probability r <= 1) ->
    forall e,
      In e (mean_probability np predictions) ->
      exists m,
        snd e = Some m /\ 0 <= m <= 1
        /\ (top_bar np m <= 30)%nat /\ (bottom_bar np m <= 30)%nat
        /\ forall m', m <= m' -> (top_bar np m <= top_bar np m')%nat.
Proof.
  intros np predictions B e Ie.
  destruct (mean_probability_entry np predictions e Ie) as [m [Em [_ Bm]]].
  destruct (Bm B) as [L U].
  exists m. split; [exact Em |]. split; [split; assumption |].
  destruct (fround_unit_times_30 np m (conj L U)) as [T0 T1].
  assert (T : (0 <= int_of_float (fround np (m * 30)) <= 30)%Z).
  { apply int_of_float_bounds; [exact T0 | exact T1]. }
  assert (Bt : (0 <= int_of_float (fround np (fround np (1 - m) * 30)) <= 30)%Z).
  { assert (R : 0 <= fround np (1 - m) <= 1).
    { apply (fround_range np (1 - m) 0 1);
        [vm_compute; discriminate | vm_compute; discriminate |].
      change (inject_Z 0) with 0. change (inject_Z 1) with 1. lra. }
    destruct (fround_unit_times_30 np _ R) as [R0 R1].
    apply int_of_float_bounds; [exact R0 | exact R1]. }
  unfold top_bar, bottom_bar.
  split; [clear - T; set (z := int_of_float _) in *; lia |].
  split; [clear - Bt; set (z := int_of_float _) in *; lia |].
  intros m' Le.
  assert (M : (0 <= int_of_float (fround np (m * 30))
               <= int_of_float (fround np (m' * 30)))%Z).
  { apply int_of_float_mono; [exact T0 |]. apply (fround_mono np). lra. }
  apply Z2Nat.inj_le; lia.
Qed.

(** X20 on the predictions of the batch of four countries. *)
Lemma X20_bars_within_thirty_witness :
  exists e m,
    In e (mean_probability exact_floats sample_predictions)
    /\ snd e = Some m /\ 0 <= m <= 1
    /\ (top_bar exact_floats m <= 30)%nat /\ (bottom_bar exact_floats m <= 30)%nat.
Proof.
  assert (B : forall r, In r sample_predictions ->
                        0 <= Pred.prediction_2030_probability r <= 1).
  { intros r Ir. vm_compute in Ir.
    destruct Ir as [<- | [<- | [<- | [<- | []]]]];
      cbn [Pred.prediction_2030_probability]; split; qcmp. }
  destruct (mean_probability exact_floats sample_predictions) as [| e t] eqn:Em;
    [vm_compute in Em; discriminate Em |].
  assert (Ie : In e (mean_probability exact_floats sample_predictions))
    by (rewrite Em; left; reflexivity).
  destruct (X20_bars_within_thirty exact_floats sample_predictions B e Ie)
    as [m [Es [Bm [Tb [Bb _]]]]].
  exists e, m. split; [left; reflexivity |]. auto.
Defined.

(** * The whole run *)

(** X21: a run that returns yields exactly one prediction for every key
    under which the batch has an observation, and none else, in strictly
    ascending order of the key. *)
Theorem X21_one_prediction_per_key :
  forall np sk df out,
    pipeline np sk df = Returned out ->
    StronglySorted (fun a b => compare_key a b = Lt)
      (map (fun r => feature_key (Pred.feat r)) out)
    /\ NoDup (map (fun r => feature_key (Pred.feat r)) out)
    /\ (forall k,
          In k (map (fun r => feature_key (Pred.feat r)) out)
          <-> observations_of k df <> []).
Proof.
  intros np sk df out. unfold pipeline.
  destruct (engineer_features np df) as [[[features le_region] le_income] | e]
    eqn:Ee; cbn [bind fst]; [| discriminate].
  destruct (train_model sk features) as [trained | e] eqn:Et; cbn [bind];
    [| discriminate].
  unfold generate_predictions, bind.
  destruct (feature_matrix (snd trained) features) as [X | e]; [| discriminate].
  destruct (call (Sklearn.predict_proba_1 sk (fst trained) X)) as [ps | e];
    [| discriminate].
  destruct (Nat.eqb (length ps) (length features)) eqn:El; [| discriminate].
  apply Nat.eqb_eq in El. intros Eo. injection Eo as <-.
  rewrite map_map. cbn [predicted Pred.feat].
  rewrite <- (map_map fst feature_key).
  rewrite (proj1 (combine_same_length features ps El)).
  rewrite (feature_keys np df features le_region le_income Ee).
  split; [apply unique_sorted |]. split; [apply unique_NoDup |].
  intros k. apply key_occurs.
Qed.

(** X21 on the batch of four countries with the stand-in estimator. *)
Lemma X21_one_prediction_per_key_witness :
  exists out,
    pipeline exact_floats holdout_estimator trend_batch = Returned out
    /\ map (fun r => feature_key (Pred.feat r)) out
       = [("JPN", "1"); ("KOR", "1"); ("THA", "1"); ("VNM", "1")]%string
    /\ NoDup (map (fun r => feature_key (Pred.feat r)) out).
Proof.
  destruct (pipeline exact_floats holdout_estimator trend_batch) as [out | e] eqn:E;
    [| vm_compute in E; discriminate E].
  exists out. split; [reflexivity |].
  split; [| exact (proj1 (proj2 (X21_one_prediction_per_key _ _ _ _ E)))].
  vm_compute in E. injection E as <-. reflexivity.
Defined.
